(** * htpdate: the clock-synchronisation engine of [htpdate.c]

    A shallow embedding of the functions of [src/htpdate.c] that decide how
    time samples are taken, filtered and applied:

    - [insertsort] and the consensus filter of [main] (median, inlier
      window, mean);
    - [getHTTPdate], the per-source sampling operation;
    - [setclock] and [htpdate_adjtimex], the clock controller;
    - the poll cycle of [main] and its adaptive sleep interval.

    Conventions.  A C [int] is a [Z] in [[-2^31, 2^31)] and a [long]
    (LP64) a [Z] in [[-2^63, 2^63)]; arithmetic that can leave the range is
    written with [wrap].  A [double] is an IEEE 754 binary64 number
    ([float]), with the rounding of the machine in every operation and
    conversion.  System and library calls are events of a trace; what the
    environment answers is an input of the model. *)

From Stdlib Require Import ZArith Lia String Ascii.
From Stdlib Require Import PrimFloat SpecFloat FloatOps.
From stdpp Require Import base tactics list sorting.

#[local] Open Scope Z_scope.

(** A decimal constant stands for the nearest [double], as in C. *)
#[local] Set Warnings "-inexact-float".

(** ** Machine integers *)

Module MachInt.

(** Two's complement wrap-around of [x] to [w] bits. *)
Definition wrap (w : Z) (x : Z) : Z :=
  (x + 2 ^ (w - 1)) mod 2 ^ w - 2 ^ (w - 1).

Definition wrap_int (x : Z) : Z := wrap 32 x.
Definition wrap_long (x : Z) : Z := wrap 64 x.

Definition INT_MAX : Z := 2147483647.
Definition INT_MIN : Z := -2147483648.
Definition LONG_MAX : Z := 9223372036854775807.

Definition is_int (x : Z) : Prop := INT_MIN <= x <= INT_MAX.
Definition is_long (x : Z) : Prop := - LONG_MAX - 1 <= x <= LONG_MAX.

End MachInt.
Export MachInt.

(** ** The constants of [htpdate.c] *)

Definition MAX_HTTP_HOSTS : Z := 15.
Definition DEFAULT_TIME_LIMIT : Z := 31536000.
Definition NO_TIME_LIMIT : Z := -1.
Definition DEFAULT_MIN_SLEEP : Z := 1800.
Definition DEFAULT_MAX_SLEEP : Z := 115200.
Definition MAX_DRIFT : Z := 32768000.
Definition MAX_ATTEMPT : nat := 2.

(** The number of entries of [timedelta]:
    [(MAX_HTTP_HOSTS+1)*(MAX_HTTP_HOSTS+1)-1]. *)
Definition timedelta_size : nat :=
  Z.to_nat ((MAX_HTTP_HOSTS + 1) * (MAX_HTTP_HOSTS + 1) - 1).

(** [#define sign(x) (x < 0 ? (-1) : 1)] *)
Definition sign (x : Z) : Z := if x <? 0 then -1 else 1.

(** ** [insertsort]

    The array [a] is a list that is updated in place; [length] elements of
    it are sorted.  The inner loop counts [j] down to [-1], so the model
    carries [j + 1] as a natural number. *)

Module Sort.

(** [for ( j = i - 1; j >= 0 && a[j] > value; j-- ) a[j+1] = a[j];]
    started with [j + 1 = k]; returns the array and the final [j + 1]. *)
Fixpoint insertsort_shift (a : list Z) (value : Z) (k : nat) : list Z * nat :=
  match k with
  | O => (a, O)
  | S j =>
      if value <? a !!! j
      then insertsort_shift (<[S j := a !!! j]> a) value j
      else (a, S j)
  end.

(** The body of the outer loop for one [i]. *)
Definition insertsort_step (a : list Z) (i : nat) : list Z :=
  let value := a !!! i in
  let '(a', k) := insertsort_shift a value i in
  <[k := value]> a'.

(** [for ( i = 1; i < length; i++ ) ...] *)
Definition insertsort (a : list Z) (length : nat) : list Z :=
  foldl insertsort_step a (seq 1 (length - 1)).

End Sort.
Export Sort.

(** ** System interface

    Every call the program makes to its environment is an event of the
    trace.  What the environment answers (return codes, clock readings,
    network exchanges) is read from [environment], indexed by the position
    of the call in the trace, so an environment can answer every call of a
    run differently. *)

Record timeval := Timeval { tv_sec : Z; tv_usec : Z }.

(** The messages handed to [printlog], with the values they format. *)
Inductive logmsg :=
| HostUnavailable (host : string)
| ConnectionFailed (host : string)
| ErrorSending
| ErrorGettingData (host port : string)
| UnknownTimeFormat (host : string)
| NoTimestamp (host : string)
| DebugSample (host port remote_time : string) (rtt delta : Z)
| NoCorrectionNeeded
| Offset (timedelta : float)
| Adjusting (timedelta : float)
| Setting (timedelta : float)
| SetTo (sec : Z)
| AdjustingFrequency (freq : Z)
| SeteuidFailed (id : Z)
| HTTPSNotCompiledIn (host : string)
| DebugTry (burst attempt when : Z)
| DebugAverage (goodtimes mean : Z) (timeavg : float)
| TimeChangeFailed
| DriftPPM (drift : float)
| FrequencyChangeFailed
| DebugPoll (sleeptime : Z)
| NoServerSuitable.

Inductive call :=
| Printlog (is_error : bool) (m : logmsg)
| Seteuid (id : Z)
| Gettimeofday
| Time
| Adjtime (delta : timeval)
| Settimeofday (tv : timeval)
| AdjtimexRead
| AdjtimexFreq (freq : Z)
| Sleep (seconds : Z)
| HTTPexchange (host port : string) (when : Z).

(** The calls that change the system clock or need root. *)
Definition privileged (c : call) : bool :=
  match c with
  | Seteuid _ | Adjtime _ | Settimeofday _ | AdjtimexFreq _ => true
  | _ => false
  end.

Definition clock_mutation (c : call) : bool :=
  match c with
  | Adjtime _ | Settimeofday _ | AdjtimexFreq _ => true
  | _ => false
  end.

(** What the network and the local clock do during one call of
    [getHTTPdate]. *)
Record exchange := Exchange {
  ex_getaddrinfo : Z;            (* return code of getaddrinfo *)
  ex_res0 : Z * Z;               (* first address: results of socket, connect *)
  ex_next : list (Z * Z);        (* the addresses after it (ai_next) *)
  ex_timeofday1 : timeval;       (* gettimeofday once connected *)
  ex_send : Z;                   (* return value of send *)
  ex_recv : Z;                   (* return value of recv *)
  ex_buffer : string;            (* buffer, as a C string, after recv *)
  ex_timeofday2 : timeval        (* gettimeofday after the response *)
}.

Record environment := Environment {
  os_seteuid : nat -> Z;
  os_gettimeofday : nat -> timeval;
  os_time : nat -> Z;
  os_adjtime : nat -> Z;
  os_settimeofday : nat -> Z;
  os_adjtimex_read : nat -> Z;   (* tmx.freq as the kernel leaves it *)
  os_adjtimex_freq : nat -> Z;
  net : nat -> exchange
}.

(** A run either returns a value or ends the process in [exit]. *)
Inductive outcome (A : Type) :=
| Ret (a : A) (tr : list call)
| Exited (status : Z) (tr : list call).
Arguments Ret {A} a tr.
Arguments Exited {A} status tr.

Definition M (A : Type) : Type := list call -> outcome A.

#[global] Instance M_ret : MRet M := fun A a tr => Ret a tr.
#[global] Instance M_bind : MBind M := fun A B f m tr =>
  match m tr with
  | Ret a tr' => f a tr'
  | Exited status tr' => Exited status tr'
  end.

Definition do_call {A} (c : call) (answer : nat -> A) : M A :=
  fun tr => Ret (answer (List.length tr)) (tr ++ [c]).

Definition exit {A} (status : Z) : M A := fun tr => Exited status tr.

Definition printlog (is_error : bool) (m : logmsg) : M unit :=
  do_call (Printlog is_error m) (fun _ => tt).

Definition when_ (b : bool) (m : M unit) : M unit := if b then m else mret tt.

(** The calls made inside a function whose model returns them as a list. *)
Definition emit (calls : list call) : M unit := fun tr => Ret tt (tr ++ calls).

Definition trace_of {A} (o : outcome A) : list call :=
  match o with Ret _ tr => tr | Exited _ tr => tr end.

(** [static void swuid( int id )] *)
Definition swuid (env : environment) (id : Z) : M unit :=
  r ← do_call (Seteuid id) (os_seteuid env);
  if r =? 0 then mret tt
  else printlog true (SeteuidFailed id);; exit 1.

(** ** [getHTTPdate]: one timed exchange with one source

    The request that is sent, the proxy, the HTTP and IP version only
    select which exchange takes place; they are part of [exchange].  libc's
    [strptime] (called with the format ["%d %b %Y %T"]) and the conversion
    of [gmtmktime] ([mktime] under [TZ=""]) are parameters. *)

Section Sampling.

Context {tm : Type}.
Variable strptime : string -> option tm.
Variable gmtmktime : tm -> Z.

(** The [do ... while ( ( res = res->ai_next ) )] loop over the addresses:
    [continue] jumps to the loop condition.  Returns [server_s] and [rc]. *)
Fixpoint connect_loop (server_s rc : Z) (res : Z * Z) (next : list (Z * Z))
  : Z * Z :=
  let '(sock, conn) := res in
  if sock <? 0 then
    match next with
    | [] => (sock, rc)
    | res' :: next' => connect_loop sock rc res' next'
    end
  else if conn =? 0 then (sock, conn)
  else
    match next with
    | [] => (-1, conn)
    | res' :: next' => connect_loop (-1) conn res' next'
    end.

(** [static int getHTTP (int server_s, char *buffer)] *)
Definition getHTTP (ex : exchange) : Z * list call :=
  if ex_send ex <? 0 then (0, [Printlog true ErrorSending])
  else (if ex_recv ex =? -1 then 0 else 1, []).

(** [strstr(buffer, "Date: ")], else [strstr(buffer, "date: ")], as the
    offset of [pdate] in [buffer]. *)
Definition find_date (buffer : string) : option nat :=
  match String.index 0 "Date: " buffer with
  | Some n => Some n
  | None => String.index 0 "date: " buffer
  end.

(** The date lookup of [getHTTPdate] once bytes have been received: the new
    [timevalue.tv_sec] and what is logged. *)
Definition parse_date (debug : bool) (host port : string) (buffer : string)
    (timevalue_sec : Z) (rtt : Z) (timeofday_sec : Z) : Z * list call :=
  match find_date buffer with
  | Some pdate =>
      if (35 <=? String.length buffer - pdate)%nat then
        let remote_time := String.substring (pdate + 11) 24 buffer in
        let '(sec, log) :=
          match strptime remote_time with
          | Some t => (gmtmktime t, [])
          | None => (timevalue_sec, [Printlog true (UnknownTimeFormat host)])
          end in
        (sec, log ++
              if debug
              then [Printlog false (DebugSample host port remote_time rtt
                                      (wrap_long (sec - timeofday_sec)))]
              else [])
      else (timevalue_sec, [Printlog true (NoTimestamp host)])
  | None => (timevalue_sec, [Printlog true (NoTimestamp host)])
  end.

(** [static long getHTTPdate( char *host, char *port, ..., int when )]:
    the returned delta and the lines it logs. *)
Definition getHTTPdate (debug : bool) (host port : string) (when : Z)
    (ex : exchange) : Z * list call :=
  let timevalue_sec := LONG_MAX in
  let rc := ex_getaddrinfo ex in
  if negb (rc =? 0) then (0, [Printlog true (HostUnavailable host)])
  else
    let '(server_s, rc) := connect_loop 0 rc (ex_res0 ex) (ex_next ex) in
    if negb (rc =? 0) then (0, [Printlog true (ConnectionFailed host)])
    else
      let timeofday := ex_timeofday1 ex in
      let rtt := tv_sec timeofday in
      let rtt := if when >=? tv_usec timeofday then rtt else wrap_long (rtt + 1) in
      let '(rc, log_io) := getHTTP ex in
      let log_rc :=
        if rc =? 0 then [Printlog true (ErrorGettingData host port)] else [] in
      if negb (rc =? 0) then
        let timeofday := ex_timeofday2 ex in
        let rtt := wrap_long (wrap_long ((tv_sec timeofday - rtt) * 1000000)
                              + tv_usec timeofday - when) in
        let '(sec, log_date) :=
          parse_date debug host port (ex_buffer ex) timevalue_sec rtt
                     (tv_sec timeofday) in
        (wrap_long (sec - tv_sec timeofday), log_io ++ log_rc ++ log_date)
      else
        (wrap_long (timevalue_sec - tv_sec timeofday), log_io ++ log_rc).

(** The name resolved and the loop over the addresses ended with [rc]
    zero: an address accepted the connection (or, which the program does
    not tell apart, no socket could be created at all). *)
Definition connected (ex : exchange) : Prop :=
  ex_getaddrinfo ex = 0
  /\ snd (connect_loop 0 0 (ex_res0 ex) (ex_next ex)) = 0.

(** The request was sent and [recv] returned a response. *)
Definition received (ex : exchange) : Prop :=
  0 <= ex_send ex /\ ex_recv ex <> -1.

(** The date field of a response, as [getHTTPdate] reads it: the 24
    characters that follow [pdate + 11], when there are at least 35
    characters from [pdate] on and [strptime] accepts them. *)
Definition remote_date (buffer : string) : option tm :=
  match find_date buffer with
  | Some pdate =>
      if (35 <=? String.length buffer - pdate)%nat
      then strptime (String.substring (pdate + 11) 24 buffer)
      else None
  | None => None
  end.

End Sampling.

(** ** Conversions between integers and [double]

    The conversion of an integer ([int], [long], [long long]) to [double]
    rounds to the nearest [double], ties to even; it is exact for integers
    of at most 53 bits. *)
Definition double_of_long (x : Z) : float :=
  SF2Prim (binary_normalize prec emax x 0 false).

(** The conversion [(long)x] of a double: truncation toward zero.  For a
    value outside [long], an infinity or a NaN the conversion is undefined
    in C; what is taken here is what x86-64 gives ([cvttsd2si]):
    [LONG_MIN]. *)
Definition long_of_double (x : float) : Z :=
  match Prim2SF x with
  | S754_zero _ => 0
  | S754_finite s m e =>
      let magnitude :=
        if 0 <=? e then Z.shiftl (Zpos m) e else Z.shiftr (Zpos m) (- e) in
      let v := if s then - magnitude else magnitude in
      if (- LONG_MAX - 1 <=? v) && (v <=? LONG_MAX) then v else - LONG_MAX - 1
  | S754_infinity _ | S754_nan => - LONG_MAX - 1
  end.

(** ** The clock controller: [setclock] and [htpdate_adjtimex] *)

Section Controller.

Variable env : environment.

(** [case 1] of [setclock]: adjust time smoothly. *)
Definition setclock_adjust (timedelta : float) : M Z :=
  let sec := long_of_double timedelta in
  let usec :=
    long_of_double
      ((timedelta - double_of_long sec) * double_of_long 1000000)%float in
  printlog false (Adjusting timedelta);;
  swuid env 0;;
  do_call (Adjtime (Timeval sec usec)) (os_adjtime env).

(** [case 2] of [setclock]: set time.  The cast in
    [(long)(timedelta - timeofday.tv_sec) * 1000000] applies to the
    difference, before the multiplication. *)
Definition setclock_set (timedelta : float) : M Z :=
  printlog false (Setting timedelta);;
  timeofday ← do_call Gettimeofday (os_gettimeofday env);
  let timedelta :=
    (timedelta + (double_of_long (tv_sec timeofday)
                  + double_of_long (tv_usec timeofday) * 1e-6))%float in
  let sec := long_of_double timedelta in
  let usec :=
    wrap_long
      (long_of_double (timedelta - double_of_long sec)%float * 1000000) in
  printlog false (SetTo sec);;
  swuid env 0;;
  do_call (Settimeofday (Timeval sec usec)) (os_settimeofday env).

(** [static int setclock( double timedelta, int setmode )].  [case 3] calls
    [setclock( timedelta, 1 )], which tests [timedelta == 0] once more and
    then runs [case 1]. *)
Definition setclock (timedelta : float) (setmode : Z) : M Z :=
  if (timedelta =? 0)%float then
    printlog false NoCorrectionNeeded;; mret 0
  else
    match setmode with
    | 0 => printlog false (Offset timedelta);; mret 0
    | 1 => setclock_adjust timedelta
    | 2 => setclock_set timedelta
    | 3 =>
        if (timedelta =? 0)%float then
          printlog false NoCorrectionNeeded;; mret 0
        else setclock_adjust timedelta
    | _ => mret (-1)
    end.

(** [freq = (long)(65536e6 * drift)] *)
Definition candidate_frequency (drift : float) : Z :=
  long_of_double (65536e6 * drift)%float.

(** The new value of [tmx.freq], from the value read from the kernel and
    [freq]. *)
Definition new_frequency (tmx_freq : Z) (drift : float) : Z :=
  let freq := candidate_frequency drift in
  let tmx_freq := wrap_long (tmx_freq + Z.shiftr freq 1) in
  if (tmx_freq <? - MAX_DRIFT) || (tmx_freq >? MAX_DRIFT)
  then sign tmx_freq * MAX_DRIFT
  else tmx_freq.

(** [static int htpdate_adjtimex( double drift )] *)
Definition htpdate_adjtimex (drift : float) : M Z :=
  tmx_freq ← do_call AdjtimexRead (os_adjtimex_read env);
  let tmx_freq := new_frequency tmx_freq drift in
  printlog false (AdjustingFrequency tmx_freq);;
  swuid env 0;;
  do_call (AdjtimexFreq tmx_freq) (os_adjtimex_freq env).

End Controller.

(** Clamping to [[-MAX_DRIFT, MAX_DRIFT]]. *)
Definition clamp_drift (x : Z) : Z := Z.max (- MAX_DRIFT) (Z.min MAX_DRIFT x).

(** The frequency in the words of the specification: the equal-weight
    average of the current kernel value and the candidate
    [65536e6 * drift], clamped. *)
Definition average_frequency (tmx_freq : Z) (drift : float) : Z :=
  clamp_drift ((tmx_freq + candidate_frequency drift) / 2).

(** ** The consensus filter of [main] *)

Module Consensus.

(** [timedelta[i]-mean <= 1 && timedelta[i]-mean >= -1], an [int]
    subtraction. *)
Definition inlier (x mean : Z) : bool :=
  (wrap_int (x - mean) <=? 1) && (wrap_int (x - mean) >=? -1).

(** The filter loop; [sumtimes] is a [long long] and [goodtimes] counts at
    most the 255 entries of [timedelta], so neither can wrap. *)
Definition filter_step (timedelta : list Z) (mean : Z)
    (acc : Z * Z) (i : nat) : Z * Z :=
  let '(sumtimes, goodtimes) := acc in
  if inlier (timedelta !!! i) mean
  then (sumtimes + timedelta !!! i, goodtimes + 1)
  else (sumtimes, goodtimes).

(** The step of the filter loop on the entry itself. *)
Definition filter_entry (mean : Z) (acc : Z * Z) (x : Z) : Z * Z :=
  if inlier x mean then (fst acc + x, snd acc + 1) else acc.

Definition filter_loop (timedelta : list Z) (validtimes : nat) (mean : Z)
  : Z * Z :=
  foldl (filter_step timedelta mean) (0, 0) (seq 0 validtimes).

Record consensus := Build_consensus {
  sorted : list Z;      (* timedelta after insertsort *)
  mean : Z;             (* timedelta[validtimes/2] *)
  sumtimes : Z;
  goodtimes : Z
}.

(** Lines 873-888 of [main]: sort, take the median, sum the inliers. *)
Definition consensus_of (timedelta : list Z) (validtimes : nat) : consensus :=
  let timedelta := insertsort timedelta validtimes in
  let mean := timedelta !!! (validtimes / 2)%nat in
  let '(sumtimes, goodtimes) := filter_loop timedelta validtimes mean in
  Build_consensus timedelta mean sumtimes goodtimes.

(** [timeavg = sumtimes/(double)goodtimes] *)
Definition timeavg_of (c : consensus) : float :=
  (double_of_long (sumtimes c) / double_of_long (goodtimes c))%float.

End Consensus.
Export Consensus.

(** ** The poll cycle of [main] *)

(** The variables of [main] that are fixed once the command line is read.
    [servers] are the hosts with their ports, [precision] is in
    microseconds. *)
Record config := Config {
  servers : list (string * string);
  precision : Z;
  nap : Z;
  burstmode : Z;
  timelimit : Z;
  minsleep : Z;
  maxsleep : Z;
  daemonize : bool;
  foreground : bool;
  sw_uid : Z;
  debug : bool
}.

Definition numservers (cfg : config) : Z := Z.of_nat (List.length (servers cfg)).

(** [daemonize || foreground] *)
Definition persistent (cfg : config) : bool := daemonize cfg || foreground cfg.

(** The variables that live across poll cycles. *)
Record state := State {
  setmode : Z;
  sleeptime : Z;
  starttime : Z;
  drift : float;
  timedelta : list Z
}.

(** The variables of one pass over the servers. *)
Record collect := Collect {
  samples : list Z;        (* timedelta *)
  validtimes : nat;
  offsetdetect : bool;
  when : Z
}.

(** Lines 780-788: how the polls are spread within a second.  Returns
    [precision] and [nap]. *)
Definition spread (numservers precision : Z) : Z * Z :=
  if numservers >? 1 then
    if negb (precision =? 0) && (numservers >? 2)
    then (precision, (1000000 - 2 * precision) ÷ (numservers - 1))
    else (precision, 1000000 ÷ (numservers + 1))
  else (0, 500000).

Section Cycle.

Context {tm : Type}.
Variable strptime : string -> option tm.
Variable gmtmktime : tm -> Z.
Variable env : environment.
Variable cfg : config.

(** [timestamp = getHTTPdate( ... )]: the [long] result is stored in an
    [int]. *)
Definition poll (host port : string) (when : Z) : M Z :=
  ex ← do_call (HTTPexchange host port when) (net env);
  let r := getHTTPdate strptime gmtmktime (debug cfg) host port when ex in
  emit (snd r);;
  mret (wrap_int (fst r)).

(** [do { ... try--; } while ( timestamp && try );] entered with [try]
    attempts left; [main] enters it with [MAX_ATTEMPT], so there is always
    at least one. *)
Fixpoint attempts (try : nat) (burst : Z) (host port : string) (when : Z)
  : M Z :=
  match try with
  | O => mret 0
  | S try' =>
      when_ (debug cfg)
        (printlog false
           (DebugTry (burst + 1) (Z.of_nat MAX_ATTEMPT - Z.of_nat try + 1) when));;
      timestamp ← poll host port when;
      if negb (timestamp =? 0) && negb (Nat.eqb try' 0)
      then attempts try' burst host port when
      else mret timestamp
  end.

(** The sanity check on a sample. *)
Definition admitted (timestamp : Z) : bool :=
  (timelimit cfg =? NO_TIME_LIMIT)
  || ((timestamp <? timelimit cfg) && (timestamp >? - timelimit cfg)).

(** One pass of the burst loop, lines 832-864. *)
Definition burst_body (burst : Z) (host port : string) (c : collect)
  : M collect :=
  timestamp ← attempts MAX_ATTEMPT burst host port (when c);
  let c :=
    if admitted timestamp
    then Collect (<[validtimes c := timestamp]> (samples c))
                 (S (validtimes c)) (offsetdetect c) (when c)
    else c in
  let c :=
    if negb (timestamp =? 0)
    then Collect (samples c) (validtimes c) true (when c)
    else c in
  mret (Collect (samples c) (validtimes c) (offsetdetect c)
                (wrap_int (when c + nap cfg))).

(** [do { ... burst++; } while ( burst < (argc - optind) * burstmode );]
    with [todo] passes left. *)
Fixpoint burst_loop (todo : nat) (burst : Z) (host port : string) (c : collect)
  : M collect :=
  match todo with
  | O => mret c
  | S todo' =>
      c ← burst_body burst host port c;
      burst_loop todo' (burst + 1) host port c
  end.

(** The number of passes of the burst loop: one, or [numservers] in burst
    mode. *)
Definition bursts : nat :=
  Z.to_nat (Z.max 1 (numservers cfg * burstmode cfg)).

(** [when = precision ? precision : nap] *)
Definition first_when : Z :=
  if negb (precision cfg =? 0) then precision cfg else nap cfg.

(** [for ( i = optind; i < argc; i++ ) ...], lines 808-871.  The program is
    built without [ENABLE_HTTPS]. *)
Fixpoint server_loop (hosts : list (string * string)) (sleeptime : Z)
    (c : collect) : M collect :=
  match hosts with
  | [] => mret c
  | (host, port) :: hosts' =>
      when_ (String.prefix "443" port)
        (printlog true (HTTPSNotCompiledIn host));;
      let c :=
        if negb (burstmode cfg =? 0)
        then Collect (samples c) (validtimes c) (offsetdetect c) first_when
        else c in
      c ← burst_loop bursts 0 host port c;
      when_ (persistent cfg && negb (offsetdetect c))
        (do_call (Sleep (sleeptime ÷ numservers cfg)) (fun _ => tt));;
      server_loop hosts' sleeptime c
  end.

(** The correction [main] hands to [setclock], lines 900-906. *)
Definition correction (c : consensus) : float :=
  if negb (precision cfg =? 0)
     && (sumtimes c <? goodtimes c) && (sumtimes c >? - goodtimes c)
  then (double_of_long (precision cfg) / double_of_long 1000000
        * double_of_long (sign (sumtimes c)))%float
  else timeavg_of c.

(** [sumtimes || !(daemonize || foreground)]: whether the time is changed
    in a cycle that has inliers. *)
Definition changes_time (c : consensus) : bool :=
  negb (sumtimes c =? 0) || negb (persistent cfg).

(** Lines 915-941: drift bookkeeping after a correction, in daemon or
    foreground mode. *)
Definition after_correction (st : state) (timeavg : float) : M state :=
  st ←
    (if negb (starttime st =? 0) then
       now ← do_call Time (os_time env);
       let drift :=
         (timeavg / double_of_long (wrap_long (now - starttime st)))%float in
       printlog false (DriftPPM drift);;
       if setmode st =? 3 then
         now ← do_call Time (os_time env);
         r ← htpdate_adjtimex env drift;
         when_ (r <? 0) (printlog true FrequencyChangeFailed);;
         swuid env (sw_uid cfg);;
         mret (State (setmode st) (sleeptime st) now drift (timedelta st))
       else
         mret (State (setmode st) (sleeptime st) (starttime st) drift
                     (timedelta st))
     else
       now ← do_call Time (os_time env);
       mret (State (setmode st) (sleeptime st) now (drift st) (timedelta st)));
  do_call (Sleep DEFAULT_MIN_SLEEP) (fun _ => tt);;
  mret (State (setmode st) (minsleep cfg) (starttime st) (drift st)
              (timedelta st)).

(** Lines 908-941: correct the clock by [timeavg]. *)
Definition apply_correction (st : state) (timeavg : float) : M state :=
  r ← setclock env timeavg (setmode st);
  when_ (r <? 0) (printlog true TimeChangeFailed);;
  swuid env (sw_uid cfg);;
  if persistent cfg then after_correction st timeavg else mret st.

(** Lines 943-945: increase the polling interval. *)
Definition back_off (st : state) : state :=
  State (setmode st)
        (if sleeptime st <? maxsleep cfg
         then wrap_int (Z.shiftl (sleeptime st) 1)
         else sleeptime st)
        (starttime st) (drift st) (timedelta st).

(** Lines 890-957: what [main] does with the consensus of a cycle. *)
Definition conclude (st : state) (c : consensus) : M state :=
  if negb (goodtimes c =? 0) then
    when_ (debug cfg)
      (printlog false (DebugAverage (goodtimes c) (mean c) (timeavg_of c)));;
    st ←
      (if changes_time c
       then apply_correction st (correction c)
       else mret (back_off st));
    when_ (debug cfg && persistent cfg)
      (printlog false (DebugPoll (sleeptime st)));;
    mret st
  else
    printlog true NoServerSuitable;;
    if persistent cfg
    then do_call (Sleep (minsleep cfg)) (fun _ => tt);; mret st
    else exit 1.

(** The pass over the servers of one cycle, lines 801-871. *)
Definition collect_samples (st : state) : M collect :=
  server_loop (servers cfg) (sleeptime st)
    (Collect (timedelta st) 0 false first_when).

(** The body of the [do ... while ( daemonize || foreground )] loop. *)
Definition poll_cycle (st : state) : M state :=
  c ← collect_samples st;
  let r := consensus_of (samples c) (validtimes c) in
  st ← conclude (State (setmode st) (sleeptime st) (starttime st) (drift st)
                       (sorted r)) r;
  mret (State (if negb (setmode st =? 3) then 1 else setmode st)
              (sleeptime st) (starttime st) (drift st) (timedelta st)).

(** [cycles] passes of the loop of a daemon or foreground run. *)
Fixpoint poll_cycles (cycles : nat) (st : state) : M state :=
  match cycles with
  | O => mret st
  | S cycles' => st ← poll_cycle st; poll_cycles cycles' st
  end.

(** The loop as a step relation: a cycle that returns takes the state and
    the trace to the next ones; [c] is the consensus the cycle computed. *)
Inductive cycle_step : state * list call -> consensus -> state * list call -> Prop :=
| cycle_step_intro st tr col tr1 st' tr' :
    collect_samples st tr = Ret col tr1 ->
    poll_cycle st tr = Ret st' tr' ->
    cycle_step (st, tr) (consensus_of (samples col) (validtimes col)) (st', tr').

Inductive cycles_from (s0 : state * list call) : state * list call -> Prop :=
| cycles_none : cycles_from s0 s0
| cycles_more s c s' : cycles_from s0 s -> cycle_step s c s' -> cycles_from s0 s'.

(** A run that is neither daemon nor in the foreground: one cycle, then
    [exit(0)]. *)
Definition one_shot (st : state) : M state :=
  poll_cycle st;; exit 0.

End Cycle.

(** [main] from line 744 on, for the options in [cfg] and [setmode]:
    the checks on the servers, the mode of a daemon, the spreading of the
    polls, then the loop.  [timedelta] holds what the array contains at the
    start.  Option parsing, the test that the user is root, [runasdaemon]
    and the first drop of privileges are not part of the model. *)
Definition main {tm : Type} (strptime : string -> option tm)
    (gmtmktime : tm -> Z) (env : environment) (cfg : config) (setmode : Z)
    (timedelta : list Z) (cycles : nat) : M state :=
  if numservers cfg =? 0 then exit 1
  else if numservers cfg >? MAX_HTTP_HOSTS then exit 1
  else
    let setmode :=
      if persistent cfg && (setmode =? 0) then 1 else setmode in
    let '(precision, nap) := spread (numservers cfg) (precision cfg) in
    let cfg := Config (servers cfg) precision nap (burstmode cfg)
                      (timelimit cfg) (minsleep cfg) (maxsleep cfg)
                      (daemonize cfg) (foreground cfg) (sw_uid cfg)
                      (debug cfg) in
    let st := State setmode (minsleep cfg) 0 0 timedelta in
    if persistent cfg
    then poll_cycles strptime gmtmktime env cfg cycles st
    else one_shot strptime gmtmktime env cfg st.

(** ** A model of libc's date functions on RFC 1123 dates

    Used to run the embedding on concrete responses; the properties of
    [getHTTPdate] below hold for every [strptime] and [gmtmktime]. *)

Module Libc.

Record tm := Tm {
  tm_sec : Z; tm_min : Z; tm_hour : Z; tm_mday : Z; tm_mon : Z; tm_year : Z
}.

Definition digit (c : ascii) : option Z :=
  let n := Z.of_nat (nat_of_ascii c) in
  if (48 <=? n) && (n <=? 57) then Some (n - 48) else None.

Fixpoint number (acc : Z) (s : string) : option Z :=
  match s with
  | EmptyString => Some acc
  | String c s' =>
      match digit c with
      | Some d => number (10 * acc + d) s'
      | None => None
      end
  end.

Definition month (s : string) : option Z :=
  let names := ["Jan"; "Feb"; "Mar"; "Apr"; "May"; "Jun";
                "Jul"; "Aug"; "Sep"; "Oct"; "Nov"; "Dec"]%string in
  (fix find (i : Z) (l : list string) : option Z :=
     match l with
     | [] => None
     | n :: l' => if String.eqb n s then Some i else find (i + 1) l'
     end) 0 names.

Definition field (s : string) (pos len : nat) (lo hi : Z) : option Z :=
  match number 0 (String.substring pos len s) with
  | Some n =>
      if (Nat.eqb (String.length (String.substring pos len s)) len)
         && (lo <=? n) && (n <=? hi)
      then Some n else None
  | None => None
  end.

Definition separator (s : string) (pos : nat) (c : string) : bool :=
  String.eqb (String.substring pos 1 s) c.

(** [strptime( s, "%d %b %Y %T", &tm )] on a date written as
    [DD Mon YYYY HH:MM:SS]; what follows the seconds is not read. *)
Definition strptime (s : string) : option tm :=
  match field s 0 2 1 31, month (String.substring 3 3 s), field s 7 4 0 9999,
        field s 12 2 0 23, field s 15 2 0 59, field s 18 2 0 61 with
  | Some d, Some mon, Some y, Some h, Some mi, Some sec =>
      if separator s 2 " " && separator s 6 " " && separator s 11 " "
         && separator s 14 ":" && separator s 17 ":"
      then Some (Tm sec mi h d mon (y - 1900))
      else None
  | _, _, _, _, _, _ => None
  end.

(** Days from 1970-01-01 to the given day of the proleptic Gregorian
    calendar; [m] counts from 1. *)
Definition days_from_civil (y m d : Z) : Z :=
  let y := if m <=? 2 then y - 1 else y in
  let era := y / 400 in
  let yoe := y - era * 400 in
  let doy := (153 * (m + (if m >? 2 then -3 else 9)) + 2) / 5 + d - 1 in
  let doe := yoe * 365 + yoe / 4 - yoe / 100 + doy in
  era * 146097 + doe - 719468.

(** [mktime] under [TZ=""], that is UTC. *)
Definition gmtmktime (t : tm) : Z :=
  days_from_civil (tm_year t + 1900) (tm_mon t + 1) (tm_mday t) * 86400
  + tm_hour t * 3600 + tm_min t * 60 + tm_sec t.

End Libc.

(** ** Sample inputs *)

Module Samples.

#[local] Open Scope string_scope.

Definition crlf : string := String (ascii_of_nat 13) (String (ascii_of_nat 10) "").

(** A response dated 1 January 2024, 00:00:10 GMT (1704067210). *)
Definition response_2024 : string :=
  "HTTP/1.1 200 OK" ++ crlf ++ "Date: Mon, 01 Jan 2024 00:00:10 GMT" ++ crlf
  ++ "Server: nginx" ++ crlf ++ crlf.

(** Responses dated 2^31 - 1 seconds after and 2^31 seconds before
    1 January 2024, 00:00:10 GMT. *)
Definition response_2092 : string :=
  "HTTP/1.1 200 OK" ++ crlf ++ "Date: Sat, 19 Jan 2092 03:14:17 GMT" ++ crlf
  ++ "Server: nginx" ++ crlf ++ crlf.

Definition response_1955 : string :=
  "HTTP/1.1 200 OK" ++ crlf ++ "Date: Tue, 13 Dec 1955 20:46:02 GMT" ++ crlf
  ++ "Server: nginx" ++ crlf ++ crlf.

(** A response without a date field. *)
Definition response_nodate : string :=
  "HTTP/1.1 200 OK" ++ crlf ++ "Server: nginx" ++ crlf ++ crlf.

(** A response whose date field is not a calendar date. *)
Definition response_baddate : string :=
  "HTTP/1.1 200 OK" ++ crlf ++ "Date: Mon, 01 XXX 2024 00:00:10 GMT" ++ crlf
  ++ "Server: nginx" ++ crlf ++ crlf.

(** The name of the server does not resolve. *)
Definition ex_unresolved : exchange :=
  Exchange (-2) (0, 0) [] (Timeval 0 0) 0 0 "" (Timeval 0 0).

(** The name resolves to two addresses and both refuse the connection. *)
Definition ex_refused : exchange :=
  Exchange 0 (3, -1) [(3, -1)] (Timeval 0 0) 0 0 "" (Timeval 0 0).

(** The server answers [response_2024] and the local clock shows the same
    second when the response has arrived. *)
Definition ex_synced : exchange :=
  Exchange 0 (3, 0) [] (Timeval 1704067209 900000) 150 180 response_2024
           (Timeval 1704067210 120000).

(** The same, with a local clock that is five seconds behind. *)
Definition ex_behind : exchange :=
  Exchange 0 (3, 0) [] (Timeval 1704067204 900000) 150 180 response_2024
           (Timeval 1704067205 120000).

Definition ex_nodate : exchange :=
  Exchange 0 (3, 0) [] (Timeval 1704067209 900000) 150 120 response_nodate
           (Timeval 1704067210 120000).

Definition ex_baddate : exchange :=
  Exchange 0 (3, 0) [] (Timeval 1704067209 900000) 150 180 response_baddate
           (Timeval 1704067210 120000).

(** An environment in which every system call succeeds, the clock shows
    [now], the kernel frequency is [freq] and every exchange is [ex]. *)
Definition env_of (ex : exchange) (now : timeval) (freq : Z) : environment :=
  Environment (fun _ => 0) (fun _ => now) (fun _ => tv_sec now) (fun _ => 0)
              (fun _ => 0) (fun _ => freq) (fun _ => 0) (fun _ => ex).

Definition now_2024 : timeval := Timeval 1704067210 250000.

(** [htpdate -F -m 1000 -M 1500 www.example.com], run by root. *)
Definition cfg_m1000_M1500 : config :=
  Config [("www.example.com", "80")] 0 500000 0 DEFAULT_TIME_LIMIT
         1000 1500 false true 0 false.

(** [htpdate -F www.example.com] with the default intervals. *)
Definition cfg_foreground : config :=
  Config [("www.example.com", "80")] 0 500000 0 DEFAULT_TIME_LIMIT
         DEFAULT_MIN_SLEEP DEFAULT_MAX_SLEEP false true 0 false.

(** [htpdate www.example.com]: one query. *)
Definition cfg_query : config :=
  Config [("www.example.com", "80")] 0 500000 0 DEFAULT_TIME_LIMIT
         DEFAULT_MIN_SLEEP DEFAULT_MAX_SLEEP false false 0 false.

(** Two servers, the first one 2^31 - 1 seconds ahead of the local clock
    and the second one 2^31 seconds behind it. *)
Definition env_int_ends : environment :=
  Environment (fun _ => 0) (fun _ => now_2024) (fun _ => tv_sec now_2024)
    (fun _ => 0) (fun _ => 0) (fun _ => 0) (fun _ => 0)
    (fun k =>
       Exchange 0 (3, 0) [] (Timeval 1704067209 900000) 150 180
         (if (k <? 2)%nat then response_2092 else response_1955)
         (Timeval 1704067210 120000)).

(** [htpdate -t a.example.com b.example.com]: a query with the sanity check
    turned off. *)
Definition cfg_unlimited : config :=
  Config [("a.example.com", "80"); ("b.example.com", "80")] 0 333333 0
         NO_TIME_LIMIT DEFAULT_MIN_SLEEP DEFAULT_MAX_SLEEP false false 0 false.

(** [htpdate -p 50 a.example.com b.example.com c.example.com]: a query
    with a precision of 50 ms. *)
Definition cfg_precision : config :=
  Config [("a.example.com", "80"); ("b.example.com", "80");
          ("c.example.com", "80")] 50000 450000 0 DEFAULT_TIME_LIMIT
         DEFAULT_MIN_SLEEP DEFAULT_MAX_SLEEP false false 0 false.

(** The array [timedelta] before the first cycle. *)
Definition timedelta0 : list Z := replicate timedelta_size 0.

End Samples.

(** ** Vocabulary of the properties *)

(** A call that neither needs root nor changes the clock. *)
Definition quiet (c : call) : Prop := privileged c = false.

(** [m] always returns; it only makes quiet calls, and what it returns
    satisfies [P]. *)
Definition returns {A} (m : M A) (P : A -> Prop) : Prop :=
  forall tr, exists a calls,
    m tr = Ret a (tr ++ calls) /\ Forall quiet calls /\ P a.

(** The invariant of the pass over the servers: the array has [len]
    entries, at most [bound] samples have been stored, and each of them is
    an [int] that passed the sanity check. *)
Definition collected (cfg : config) (len bound : nat) (c : collect) : Prop :=
  List.length (samples c) = len
  /\ (validtimes c <= bound)%nat
  /\ Forall (fun x => is_int x /\ admitted cfg x = true)
       (take (validtimes c) (samples c)).

(** The interval is [minsleep] doubled at most [k] times. *)
Definition doubled (cfg : config) (k : Z) (st : state) : Prop :=
  exists j, 0 <= j <= k /\ sleeptime st = minsleep cfg * 2 ^ j.

(** What [main] guarantees about the options when the loop starts: at most
    [MAX_HTTP_HOSTS] servers, [burstmode] 0 or 1, and the sanity limit
    either off or the [int] it was initialised with. *)
Definition valid_options (cfg : config) : Prop :=
  0 < numservers cfg <= MAX_HTTP_HOSTS
  /\ (burstmode cfg = 0 \/ burstmode cfg = 1)
  /\ is_int (timelimit cfg).

From stdpp Require Import gmap.

#[local] Open Scope Z_scope.

(** ** [splithostport]

    The argument [*host] is a C string in writable memory (the copy that
    [strdup] made, or [optarg]).  Memory is the list of its characters with
    the terminating NUL; a pointer into it is an offset, [NULL] is [None].
    Writing [p[0] = '\0'] puts a NUL at the offset, and a string is read
    from an offset up to the first NUL. *)

Module HostPort.

Definition NUL : ascii := Ascii.zero.

(** The C string that starts at the beginning of [mem]. *)
Fixpoint cstring (mem : list ascii) : list ascii :=
  match mem with
  | [] => []
  | c :: mem' => if Ascii.eqb c NUL then [] else c :: cstring mem'
  end.

(** [strchr( s, c )] for a character [c] other than NUL. *)
Fixpoint strchr (s : list ascii) (c : ascii) : option nat :=
  match s with
  | [] => None
  | x :: s' =>
      if Ascii.eqb x NUL then None
      else if Ascii.eqb x c then Some O
      else option_map S (strchr s' c)
  end.

(** [strrchr( s, c )] for a character [c] other than NUL. *)
Fixpoint strrchr (s : list ascii) (c : ascii) : option nat :=
  match s with
  | [] => None
  | x :: s' =>
      if Ascii.eqb x NUL then None
      else match strrchr s' c with
           | Some n => Some (S n)
           | None => if Ascii.eqb x c then Some O else None
           end
  end.

(** [strstr( s, prefix ) == s] *)
Fixpoint starts_with (prefix s : list ascii) : bool :=
  match prefix, s with
  | [], _ => true
  | p :: prefix', x :: s' =>
      negb (Ascii.eqb x NUL) && Ascii.eqb p x && starts_with prefix' s'
  | _ :: _, [] => false
  end.

(** [a < b] on pointers into the string; [NULL] is below every object. *)
Definition ptr_lt (a b : option nat) : bool :=
  match a, b with
  | _, None => false
  | None, Some _ => true
  | Some x, Some y => (x <? y)%nat
  end.

(** [p[0] = '\0'] *)
Definition cut (mem : list ascii) (p : nat) : list ascii := <[p := NUL]> mem.

(** The string read at offset [p]. *)
Definition string_at (mem : list ascii) (p : nat) : string :=
  string_of_list_ascii (cstring (drop p mem)).

(** [static void splithostport( char **host, char **port )]: the strings
    that [*host] and [*port] point to on return.  With a scheme prefix the
    string has a colon, so [rc] is not [NULL] there. *)
Definition splithostport (host port : string) : string * string :=
  let mem := list_ascii_of_string host ++ [NUL] in
  let lb := strchr mem "[" in
  let rb := strrchr mem "]" in
  let lc := strchr mem ":" in
  let rc := strrchr mem ":" in
  if starts_with (list_ascii_of_string "https://") mem then
    match rc with
    | Some rc => (string_at (cut mem rc) 8, "443"%string)
    | None => (host, port)
    end
  else if starts_with (list_ascii_of_string "http://") mem then
    match rc with
    | Some rc => (string_at (cut mem rc) 7, "80"%string)
    | None => (host, port)
    end
  else
    match lb, rb with
    | Some lb, Some rb =>
        if ptr_lt (Some rb) rc then
          match rc with
          | Some rc => (string_at (cut mem rb) (S lb), string_at (cut mem rb) (S rc))
          | None => (host, port)
          end
        else (string_at (cut mem rb) (S lb), port)
    | _, _ =>
        match rc with
        | Some rc =>
            if bool_decide (lc = Some rc)
            then (string_at (cut mem rc) 0, string_at (cut mem rc) (S rc))
            else (host, port)
        | None => (host, port)
        end
    end.

(** A string as C has it: without a NUL inside. *)
Definition c_string (s : string) : Prop := NUL ∉ list_ascii_of_string s.

(** The character [c] does not occur in [s]. *)
Definition lacks (c : ascii) (s : string) : Prop := c ∉ list_ascii_of_string s.

End HostPort.

(** ** [gmtmktime]

    The environment of the process is a finite map from names to values;
    [mktime] reads the time zone from [TZ] when it is called, so the calls
    of [tzset] add nothing to it.  [strdup] can fail, which the source does
    not test. *)

Module Timezone.

Section Gmtmktime.

Context {tm : Type}.

(** [mktime] for the value of [TZ] in the environment. *)
Variable mktime : option string -> tm -> Z.

(** [time_t gmtmktime (struct tm *tm)]: the result and the environment on
    return; [strdup_ok] tells whether [strdup] succeeds. *)
Definition gmtmktime (strdup_ok : bool) (environ : gmap string string)
    (t : tm) : Z * gmap string string :=
  let tz := environ !! "TZ"%string in
  let tz := match tz with
            | Some v => if strdup_ok then Some v else None
            | None => None
            end in
  let environ := <["TZ"%string := ""%string]> environ in
  let result := mktime (environ !! "TZ"%string) t in
  let environ :=
    match tz with
    | Some v => <["TZ"%string := v]> environ
    | None => delete "TZ"%string environ
    end in
  (result, environ).

End Gmtmktime.

End Timezone.

(** ** Monitors

    A monitor reads the calls of a run one by one, from a state of its own;
    it knows the position of each call in the trace, and so the answer of
    the environment.  It stops with [None] at a call it does not accept. *)

Fixpoint run_monitor {S : Type} (step : nat -> S -> call -> option S)
    (pos : nat) (s : S) (calls : list call) : option S :=
  match calls with
  | [] => Some s
  | c :: calls' =>
      match step pos s c with
      | Some s' => run_monitor step (Datatypes.S pos) s' calls'
      | None => None
      end
  end.

(** From a monitor state in [pre], the monitor accepts the calls that [m]
    makes; if [m] returns, the value and the monitor state are in [post],
    and if it ends the process, the status and the monitor state are in
    [fail]. *)
Definition monitored {S A : Type} (step : nat -> S -> call -> option S)
    (fail : Z -> S -> Prop) (pre : S -> Prop) (post : A -> S -> Prop)
    (m : M A) : Prop :=
  forall tr s, pre s ->
    exists calls s',
      trace_of (m tr) = tr ++ calls
      /\ run_monitor step (List.length tr) s calls = Some s'
      /\ (forall a, m tr = Ret a (tr ++ calls) -> post a s')
      /\ (forall status, m tr = Exited status (tr ++ calls) -> fail status s').

(** The calls that [m] adds to the trace [tr]. *)
Definition calls_of {A : Type} (m : M A) (tr : list call) : list call :=
  drop (List.length tr) (trace_of (m tr)).

(** A line of the log. *)
Definition is_log (c : call) : Prop :=
  match c with Printlog _ _ => True | _ => False end.

(** The calls that a mode of [setclock] stands for: [adjtime] belongs to the
    modes 1 and 3, [settimeofday] to mode 2 and writing the frequency with
    [adjtimex] to mode 3. *)
Definition permitted (mode : Z) (c : call) : bool :=
  match c with
  | Adjtime _ => (mode =? 1) || (mode =? 3)
  | Settimeofday _ => mode =? 2
  | AdjtimexFreq _ => mode =? 3
  | _ => true
  end.

(** The same for a cycle that starts with [starttime]: the frequency is
    written only once [starttime] is set. *)
Definition permitted_at (mode starttime : Z) (c : call) : bool :=
  match c with
  | AdjtimexFreq _ => (mode =? 3) && negb (starttime =? 0)
  | _ => permitted mode c
  end.

(** The mode of the cycles that follow a cycle in mode [mode]. *)
Definition later_mode (mode : Z) : Z := if mode =? 3 then 3 else 1.

(** The mode that [main] starts the loop with. *)
Definition first_mode (cfg : config) (setmode : Z) : Z :=
  if persistent cfg && (setmode =? 0) then 1 else setmode.

(** The effective user: a [seteuid] that succeeds changes it. *)
Definition seteuid_effect (env : environment) (pos : nat) (euid : Z)
    (c : call) : Z :=
  match c with
  | Seteuid id => if os_seteuid env pos =? 0 then id else euid
  | _ => euid
  end.

(** The effective user after [calls], made from position [pos] of the trace
    on. *)
Fixpoint euid_after (env : environment) (pos : nat) (euid : Z)
    (calls : list call) : Z :=
  match calls with
  | [] => euid
  | c :: calls' =>
      euid_after env (S pos) (seteuid_effect env pos euid c) calls'
  end.

(** The privilege protocol.  [rooted]: the call before was a [seteuid(0)]
    that succeeded.  [euid]: the effective user.  A call that changes the
    clock must come right after a successful [seteuid(0)] and be one that
    [permit] lets through; a network exchange must find an effective user
    that [unprivileged] accepts. *)
Record protocol_state := Protocol { rooted : bool; euid : Z }.

Definition protocol (env : environment) (permit : call -> bool)
    (unprivileged : Z -> bool) (pos : nat) (s : protocol_state) (c : call)
  : option protocol_state :=
  let s' :=
    Protocol (match c with
              | Seteuid id => (id =? 0) && (os_seteuid env pos =? 0)
              | _ => false
              end)
             (seteuid_effect env pos (euid s) c) in
  match c with
  | Adjtime _ | Settimeofday _ | AdjtimexFreq _ =>
      if rooted s && permit c then Some s' else None
  | HTTPexchange _ _ _ =>
      if unprivileged (euid s) then Some s' else None
  | _ => Some s'
  end.

(** The journal: the monitor that records every call with its position in
    the trace, the last call first. *)
Definition journal (pos : nat) (s : list (nat * call)) (c : call)
  : option (list (nat * call)) :=
  Some ((pos, c) :: s).

(** The process ends with status 1 after a [seteuid] that failed and the
    line that reports it. *)
Definition seteuid_failed (env : environment) (status : Z)
    (s : list (nat * call)) : Prop :=
  status = 1
  /\ exists pos id pos' rest,
       s = (pos', Printlog true (SeteuidFailed id)) :: (pos, Seteuid id) :: rest
       /\ os_seteuid env pos <> 0.

(** The process ends with status 1 after the line that reports that no
    server was suitable. *)
Definition no_server (status : Z) (s : list (nat * call)) : Prop :=
  status = 1
  /\ exists pos rest, s = (pos, Printlog true NoServerSuitable) :: rest.

(** The monitor of the poll phases: the moment [when] that an exchange is
    aimed at is a number of microseconds strictly inside the second. *)
Definition phases (pos : nat) (s : unit) (c : call) : option unit :=
  match c with
  | HTTPexchange _ _ when =>
      if (0 <? when) && (when <? 1000000) then Some tt else None
  | _ => Some tt
  end.

(** A call of [getHTTPdate]. *)
Definition is_exchange (c : call) : bool :=
  match c with HTTPexchange _ _ _ => true | _ => false end.

(** The monitor that counts the exchanges. *)
Definition tally (pos : nat) (n : nat) (c : call) : option nat :=
  Some (if is_exchange c then S n else n).

(** The server that a call of [getHTTPdate] asks. *)
Definition exchange_target (c : call) : option (string * string) :=
  match c with HTTPexchange host port _ => Some (host, port) | _ => None end.

(** The servers that the calls ask, in the order of the calls. *)
Definition targets (calls : list call) : list (string * string) :=
  omap exchange_target calls.

(** The monitor that records the servers asked. *)
Definition asked (pos : nat) (l : list (string * string)) (c : call)
  : option (list (string * string)) :=
  Some (match exchange_target c with Some hp => l ++ [hp] | None => l end).

(** What has been recorded is a record in [P] followed by between [lo]
    and [hi] exchanges with the server [hp]. *)
Definition attempted (P : list (string * string) -> Prop)
    (hp : string * string) (lo hi : nat) (l : list (string * string)) : Prop :=
  exists l1 n, P l1 /\ (lo <= n <= hi)%nat /\ l = l1 ++ replicate n hp.

(** The numbers of exchanges of [k] bursts: each burst asks at least once
    and at most [MAX_ATTEMPT] times. *)
Definition burst_counts (k : nat) (ns : list nat) : Prop :=
  List.length ns = k /\ Forall (fun n => (1 <= n <= MAX_ATTEMPT)%nat) ns.

(** A record in [P] followed by [k] bursts with the server [hp]. *)
Definition bursted (P : list (string * string) -> Prop)
    (hp : string * string) (k : nat) (l : list (string * string)) : Prop :=
  exists l1 ns,
    P l1 /\ burst_counts k ns /\ l = l1 ++ replicate (sum_list ns) hp.

(** The record of a pass over [hosts] with [bursts] bursts each: the
    servers in their order, each repeated as often as its bursts asked it. *)
Definition served (bursts : nat) (hosts : list (string * string))
    (l : list (string * string)) : Prop :=
  exists nss,
    List.length nss = List.length hosts
    /\ Forall (burst_counts bursts) nss
    /\ l = concat (zip_with (fun ns hp => replicate (sum_list ns) hp) nss hosts).

(** ** The command line

    [getopt] hands the switches to [main] one by one, each with its
    argument in [optarg] if it takes one: the list that is parsed is what
    [getopt] returns until it returns -1.  [atoi], [getpwnam] (the user and
    group of a name) and [getgrnam] are libc's.  The record holds the
    variables of [main], and the two of the file, that the switches set. *)

Module CommandLine.

Record options := Build_options {
  httpversion : string;
  ipversion : Z;
  setmode : Z;
  burstmode : Z;
  debug : Z;
  pidfile : string;
  logmode : Z;
  minsleep : Z;
  sleeptime : Z;
  precision : Z;
  timelimit : Z;
  group : option string;
  sw_uid : Z;
  sw_gid : Z;
  daemonize : Z;
  foreground : Z;
  maxsleep : Z;
  proxy : option string;
  proxyport : option string
}.

(** Assignments to one variable. *)
Definition set_httpversion (o : options) (v : string) : options :=
  Build_options v (ipversion o) (setmode o) (burstmode o) (debug o)
    (pidfile o) (logmode o) (minsleep o) (sleeptime o) (precision o)
    (timelimit o) (group o) (sw_uid o) (sw_gid o) (daemonize o) (foreground o)
    (maxsleep o) (proxy o) (proxyport o).

Definition set_ipversion (o : options) (v : Z) : options :=
  Build_options (httpversion o) v (setmode o) (burstmode o) (debug o)
    (pidfile o) (logmode o) (minsleep o) (sleeptime o) (precision o)
    (timelimit o) (group o) (sw_uid o) (sw_gid o) (daemonize o) (foreground o)
    (maxsleep o) (proxy o) (proxyport o).

Definition set_setmode (o : options) (v : Z) : options :=
  Build_options (httpversion o) (ipversion o) v (burstmode o) (debug o)
    (pidfile o) (logmode o) (minsleep o) (sleeptime o) (precision o)
    (timelimit o) (group o) (sw_uid o) (sw_gid o) (daemonize o) (foreground o)
    (maxsleep o) (proxy o) (proxyport o).

Definition set_burstmode (o : options) (v : Z) : options :=
  Build_options (httpversion o) (ipversion o) (setmode o) v (debug o)
    (pidfile o) (logmode o) (minsleep o) (sleeptime o) (precision o)
    (timelimit o) (group o) (sw_uid o) (sw_gid o) (daemonize o) (foreground o)
    (maxsleep o) (proxy o) (proxyport o).

Definition set_debug (o : options) (v : Z) : options :=
  Build_options (httpversion o) (ipversion o) (setmode o) (burstmode o) v
    (pidfile o) (logmode o) (minsleep o) (sleeptime o) (precision o)
    (timelimit o) (group o) (sw_uid o) (sw_gid o) (daemonize o) (foreground o)
    (maxsleep o) (proxy o) (proxyport o).

Definition set_pidfile (o : options) (v : string) : options :=
  Build_options (httpversion o) (ipversion o) (setmode o) (burstmode o)
    (debug o) v (logmode o) (minsleep o) (sleeptime o) (precision o)
    (timelimit o) (group o) (sw_uid o) (sw_gid o) (daemonize o) (foreground o)
    (maxsleep o) (proxy o) (proxyport o).

Definition set_logmode (o : options) (v : Z) : options :=
  Build_options (httpversion o) (ipversion o) (setmode o) (burstmode o)
    (debug o) (pidfile o) v (minsleep o) (sleeptime o) (precision o)
    (timelimit o) (group o) (sw_uid o) (sw_gid o) (daemonize o) (foreground o)
    (maxsleep o) (proxy o) (proxyport o).

Definition set_minsleep (o : options) (v : Z) : options :=
  Build_options (httpversion o) (ipversion o) (setmode o) (burstmode o)
    (debug o) (pidfile o) (logmode o) v (sleeptime o) (precision o)
    (timelimit o) (group o) (sw_uid o) (sw_gid o) (daemonize o) (foreground o)
    (maxsleep o) (proxy o) (proxyport o).

Definition set_sleeptime (o : options) (v : Z) : options :=
  Build_options (httpversion o) (ipversion o) (setmode o) (burstmode o)
    (debug o) (pidfile o) (logmode o) (minsleep o) v (precision o)
    (timelimit o) (group o) (sw_uid o) (sw_gid o) (daemonize o) (foreground o)
    (maxsleep o) (proxy o) (proxyport o).

Definition set_precision (o : options) (v : Z) : options :=
  Build_options (httpversion o) (ipversion o) (setmode o) (burstmode o)
    (debug o) (pidfile o) (logmode o) (minsleep o) (sleeptime o) v
    (timelimit o) (group o) (sw_uid o) (sw_gid o) (daemonize o) (foreground o)
    (maxsleep o) (proxy o) (proxyport o).

Definition set_timelimit (o : options) (v : Z) : options :=
  Build_options (httpversion o) (ipversion o) (setmode o) (burstmode o)
    (debug o) (pidfile o) (logmode o) (minsleep o) (sleeptime o) (precision o)
    v (group o) (sw_uid o) (sw_gid o) (daemonize o) (foreground o)
    (maxsleep o) (proxy o) (proxyport o).

Definition set_group (o : options) (v : option string) : options :=
  Build_options (httpversion o) (ipversion o) (setmode o) (burstmode o)
    (debug o) (pidfile o) (logmode o) (minsleep o) (sleeptime o) (precision o)
    (timelimit o) v (sw_uid o) (sw_gid o) (daemonize o) (foreground o)
    (maxsleep o) (proxy o) (proxyport o).

Definition set_sw_uid (o : options) (v : Z) : options :=
  Build_options (httpversion o) (ipversion o) (setmode o) (burstmode o)
    (debug o) (pidfile o) (logmode o) (minsleep o) (sleeptime o) (precision o)
    (timelimit o) (group o) v (sw_gid o) (daemonize o) (foreground o)
    (maxsleep o) (proxy o) (proxyport o).

Definition set_sw_gid (o : options) (v : Z) : options :=
  Build_options (httpversion o) (ipversion o) (setmode o) (burstmode o)
    (debug o) (pidfile o) (logmode o) (minsleep o) (sleeptime o) (precision o)
    (timelimit o) (group o) (sw_uid o) v (daemonize o) (foreground o)
    (maxsleep o) (proxy o) (proxyport o).

Definition set_daemonize (o : options) (v : Z) : options :=
  Build_options (httpversion o) (ipversion o) (setmode o) (burstmode o)
    (debug o) (pidfile o) (logmode o) (minsleep o) (sleeptime o) (precision o)
    (timelimit o) (group o) (sw_uid o) (sw_gid o) v (foreground o)
    (maxsleep o) (proxy o) (proxyport o).

Definition set_foreground (o : options) (v : Z) : options :=
  Build_options (httpversion o) (ipversion o) (setmode o) (burstmode o)
    (debug o) (pidfile o) (logmode o) (minsleep o) (sleeptime o) (precision o)
    (timelimit o) (group o) (sw_uid o) (sw_gid o) (daemonize o) v (maxsleep o)
    (proxy o) (proxyport o).

Definition set_maxsleep (o : options) (v : Z) : options :=
  Build_options (httpversion o) (ipversion o) (setmode o) (burstmode o)
    (debug o) (pidfile o) (logmode o) (minsleep o) (sleeptime o) (precision o)
    (timelimit o) (group o) (sw_uid o) (sw_gid o) (daemonize o) (foreground o)
    v (proxy o) (proxyport o).

Definition set_proxy (o : options) (v : option string) : options :=
  Build_options (httpversion o) (ipversion o) (setmode o) (burstmode o)
    (debug o) (pidfile o) (logmode o) (minsleep o) (sleeptime o) (precision o)
    (timelimit o) (group o) (sw_uid o) (sw_gid o) (daemonize o) (foreground o)
    (maxsleep o) v (proxyport o).

Definition set_proxyport (o : options) (v : option string) : options :=
  Build_options (httpversion o) (ipversion o) (setmode o) (burstmode o)
    (debug o) (pidfile o) (logmode o) (minsleep o) (sleeptime o) (precision o)
    (timelimit o) (group o) (sw_uid o) (sw_gid o) (daemonize o) (foreground o)
    (maxsleep o) (proxy o) v.

(** [PF_UNSPEC] *)
Definition DEFAULT_IP_VERSION : Z := 0.

(** The variables as [main] initialises them. *)
Definition defaults : options :=
  Build_options "1" DEFAULT_IP_VERSION 0 0 0 "/var/run/htpdate.pid" 0
    DEFAULT_MIN_SLEEP DEFAULT_MIN_SLEEP 0 DEFAULT_TIME_LIMIT None 0 0 0 0
    DEFAULT_MAX_SLEEP None None.

(** A pass of the loop either goes on, or ends the process ([exit], or
    [return] from [main]), or calls [abort]. *)
Inductive result :=
| Continue (o : options)
| Exit (status : Z)
| Abort.

Section Parse.

Variable atoi : string -> Z.
Variable getpwnam : string -> option (Z * Z).
Variable getgrnam : string -> option Z.

(** [case 'u']: [user] is cut at its first colon, and what follows is the
    group; [group] keeps its value when there is no colon. *)
Definition switch_user (o : options) (optarg : string) : result :=
  let mem := list_ascii_of_string optarg ++ [HostPort.NUL] in
  let userstr := HostPort.strchr mem ":"%char in
  let mem := match userstr with Some k => HostPort.cut mem k | None => mem end in
  let group :=
    match userstr with
    | Some k => Some (HostPort.string_at mem (S k))
    | None => group o
    end in
  match getpwnam (HostPort.string_at mem 0) with
  | Some (pw_uid, pw_gid) =>
      let o := set_group (set_sw_gid (set_sw_uid o (wrap_int pw_uid))
                            (wrap_int pw_gid)) group in
      match group with
      | Some g =>
          match getgrnam g with
          | Some gr_gid => Continue (set_sw_gid o (wrap_int gr_gid))
          | None => Exit 1
          end
      | None => Continue o
      end
  | None => Exit 1
  end.

(** The [switch( param )] of lines 642-742. *)
Definition switch (o : options) (param : ascii) (optarg : string) : result :=
  match param with
  | "0"%char => Continue (set_httpversion o "0")
  | "4"%char => Continue (set_ipversion o 4)
  | "6"%char => Continue (set_ipversion o 6)
  | "a"%char => Continue (set_setmode o 1)
  | "b"%char => Continue (set_burstmode o 1)
  | "d"%char => Continue (set_debug o 1)
  | "h"%char => Exit 0
  | "i"%char => Continue (set_pidfile o optarg)
  | "l"%char => Continue (set_logmode o 1)
  | "m"%char =>
      let minsleep := atoi optarg in
      if minsleep <=? 0 then Exit 1
      else Continue (set_sleeptime (set_minsleep o minsleep) minsleep)
  | "p"%char =>
      let precision := atoi optarg in
      if (precision <=? 0) || (precision >=? 500) then Exit 1
      else Continue (set_precision o (wrap_int (precision * 1000)))
  | "q"%char => Continue o
  | "s"%char => Continue (set_setmode o 2)
  | "t"%char => Continue (set_timelimit o NO_TIME_LIMIT)
  | "u"%char => switch_user o optarg
  | "x"%char => Continue (set_setmode o 3)
  | "D"%char => Continue (set_logmode (set_daemonize o 1) 1)
  | "F"%char => Continue (set_foreground o 1)
  | "M"%char =>
      let maxsleep := atoi optarg in
      if maxsleep <=? 0 then Exit 1 else Continue (set_maxsleep o maxsleep)
  | "P"%char =>
      let '(proxy, proxyport) := HostPort.splithostport optarg "8080" in
      Continue (set_proxyport (set_proxy o (Some proxy)) (Some proxyport))
  | "?"%char => Exit 1
  | _ => Abort
  end.

(** [while ( (param = getopt(...)) != -1 ) switch( param ) ...] *)
Fixpoint parse (args : list (ascii * string)) (o : options) : result :=
  match args with
  | [] => Continue o
  | (param, optarg) :: args' =>
      match switch o param optarg with
      | Continue o' => parse args' o'
      | r => r
      end
  end.

End Parse.

(** The variables of the poll loop, for the servers named after the
    switches. *)
Definition config_of (o : options) (servers : list (string * string)) : config :=
  Config servers (precision o) 0 (burstmode o) (timelimit o) (minsleep o)
         (maxsleep o) (negb (daemonize o =? 0)) (negb (foreground o =? 0))
         (sw_uid o) (negb (debug o =? 0)).

(** What holds of the variables whenever the loop over the switches is
    left. *)
Definition well_formed (o : options) : Prop :=
  (precision o = 0
   \/ exists ms, 0 < ms < 500 /\ precision o = ms * 1000)
  /\ 0 < minsleep o /\ 0 < maxsleep o /\ sleeptime o = minsleep o
  /\ 0 <= setmode o <= 3
  /\ (burstmode o = 0 \/ burstmode o = 1)
  /\ (timelimit o = DEFAULT_TIME_LIMIT \/ timelimit o = NO_TIME_LIMIT)
  /\ (ipversion o = DEFAULT_IP_VERSION \/ ipversion o = 4 \/ ipversion o = 6)
  /\ (daemonize o = 0 \/ (daemonize o = 1 /\ logmode o = 1)).

End CommandLine.

(** ** Further runs *)

Module Runs.

#[local] Open Scope string_scope.

(** [htpdate -F -u nobody www.example.com], where [nobody] is the user
    65534. *)
Definition cfg_nobody : config :=
  Config [("www.example.com", "80")] 0 500000 0 DEFAULT_TIME_LIMIT
         DEFAULT_MIN_SLEEP DEFAULT_MAX_SLEEP false true 65534 false.



(** The local clock is five seconds behind in every exchange. *)
Definition env_behind : environment :=
  Samples.env_of Samples.ex_behind Samples.now_2024 0.

(** The same, for a process that is not allowed to change its user. *)
Definition env_no_root : environment :=
  Environment (fun _ => -1) (fun _ => Samples.now_2024)
    (fun _ => tv_sec Samples.now_2024) (fun _ => 0) (fun _ => 0) (fun _ => 0)
    (fun _ => 0) (fun _ => Samples.ex_behind).

End Runs.

(** * Properties *)

(** ** Machine integers *)

Lemma wrap_int_id x : is_int x -> wrap_int x = x.
Proof.
  unfold is_int, INT_MIN, INT_MAX, wrap_int, wrap. intros H.
  change (2 ^ (32 - 1)) with 2147483648. change (2 ^ 32) with 4294967296.
  rewrite Z.mod_small; lia.
Qed.

Lemma wrap_long_id x : is_long x -> wrap_long x = x.
Proof.
  unfold is_long, LONG_MAX, wrap_long, wrap. intros H.
  change (2 ^ (64 - 1)) with 9223372036854775808.
  change (2 ^ 64) with 18446744073709551616.
  rewrite Z.mod_small; lia.
Qed.

Lemma wrap_int_range x : is_int (wrap_int x).
Proof.
  unfold is_int, INT_MIN, INT_MAX, wrap_int, wrap.
  change (2 ^ (32 - 1)) with 2147483648. change (2 ^ 32) with 4294967296.
  pose proof (Z.mod_pos_bound (x + 2147483648) 4294967296). lia.
Qed.

(** ** [insertsort] sorts *)

Section SortFacts.

(** During the inner loop the array is the sorted prefix [p] with a hole at
    position [k]. *)
Lemma insertsort_shift_spec (p : list Z) (h : Z) (s : list Z) (v : Z) (k : nat) :
  (k <= List.length p)%nat ->
  exists (m : nat) (h' : Z),
    insertsort_shift (take k p ++ h :: drop k p ++ s) v k
      = (take m p ++ h' :: drop m p ++ s, m)
    /\ (m <= k)%nat
    /\ Forall (fun x => v < x) (drop m (take k p))
    /\ (forall x, p !! (m - 1)%nat = Some x -> (0 < m)%nat -> x <= v).
Proof.
  induction k as [|j IH] in h |- *; intros Hk.
  - exists 0%nat, h. simpl. split_and!; auto. intros; lia.
  - assert (Hj : is_Some (p !! j)) by (apply lookup_lt_is_Some; lia).
    destruct Hj as [x Hx].
    assert (Hlook : (take (S j) p ++ h :: drop (S j) p ++ s) !!! j = x).
    { apply list_lookup_total_correct.
      rewrite lookup_app_l by (rewrite length_take; lia).
      rewrite lookup_take_lt by lia. done. }
    simpl insertsort_shift. rewrite Hlook.
    destruct (v <? x) eqn:Hvx.
    + assert (Hupd : <[S j := x]> (take (S j) p ++ h :: drop (S j) p ++ s)
                     = take j p ++ x :: drop j p ++ s).
      { rewrite insert_app_r_alt by (rewrite length_take; lia).
        rewrite length_take. replace (S j - S j `min` List.length p)%nat with 0%nat by lia.
        simpl. rewrite (take_S_r _ _ _ Hx), <- app_assoc. simpl.
        rewrite (drop_S _ _ _ Hx). done. }
      rewrite Hupd.
      destruct (IH x ltac:(lia)) as (m & h' & Heq & Hm & Hall & Hle).
      exists m, h'. split_and!; auto.
      rewrite (take_S_r _ _ _ Hx). rewrite drop_app_le by (rewrite length_take; lia).
      apply Forall_app. split; [done|]. constructor; [lia|constructor].
    + exists (S j), h. split_and!; auto.
      * rewrite drop_ge by (rewrite length_take; lia). constructor.
      * intros y Hy _. replace (S j - 1)%nat with j in Hy by lia.
        rewrite Hx in Hy. injection Hy as <-. lia.
Qed.

(** One pass of the outer loop inserts [a[i]] into the sorted prefix. *)
Lemma insertsort_step_spec (p : list Z) (v : Z) (s : list Z) :
  StronglySorted Z.le p ->
  exists p', insertsort_step (p ++ v :: s) (List.length p) = p' ++ s
             /\ StronglySorted Z.le p' /\ p' ≡ₚ p ++ [v].
Proof.
  intros Hp. unfold insertsort_step.
  assert (Hv : (p ++ v :: s) !!! List.length p = v).
  { apply list_lookup_total_correct. apply list_lookup_middle. done. }
  rewrite Hv.
  destruct (insertsort_shift_spec p v s v (List.length p) ltac:(lia))
    as (m & h' & Heq & Hm & Hall & Hle).
  rewrite firstn_all, drop_all in Heq. simpl in Heq. rewrite Heq.
  exists (take m p ++ v :: drop m p). split_and!.
  - rewrite insert_app_r_alt by (rewrite length_take; lia).
    rewrite length_take. replace (m - m `min` List.length p)%nat with 0%nat by lia.
    simpl. by rewrite <- app_assoc.
  - rewrite firstn_all in Hall.
    rewrite <- (take_drop m p) in Hp.
    apply StronglySorted_app in Hp as (Hcross & Hl & Hr).
    apply StronglySorted_app. split_and!; [|done|].
    + intros x1 x2 H1 H2. apply elem_of_cons in H2 as [->|H2]; [|by apply Hcross].
      destruct m as [|m']; [by apply elem_of_nil in H1|].
      assert (Hlast : is_Some (p !! m')) by (apply lookup_lt_is_Some; lia).
      destruct Hlast as [y Hy].
      specialize (Hle y). replace (S m' - 1)%nat with m' in Hle by lia.
      specialize (Hle Hy ltac:(lia)).
      apply list_elem_of_lookup in H1 as [i Hi].
      apply lookup_take_Some in Hi as [Hi Hlt].
      destruct (decide (i = m')) as [->|Hne].
      * rewrite Hy in Hi. injection Hi as <-. done.
      * assert (x1 <= y); [|lia].
        assert (Htk : take (S m') p = take m' p ++ [y]) by (by apply take_S_r).
        rewrite Htk in Hl. apply StronglySorted_app in Hl as (Hc & _ & _).
        apply Hc; [|by apply list_elem_of_singleton].
        apply list_elem_of_lookup. exists i.
        apply lookup_take_Some. split; [done|lia].
    + constructor; [done|]. eapply Forall_impl; [exact Hall|]. simpl. lia.
  - rewrite <- (take_drop m p) at 3. rewrite <- app_assoc.
    apply Permutation_app_head. simpl. apply Permutation_cons_append.
Qed.

(** After [i] passes the first [i + 1] entries are sorted and the rest is
    untouched. *)
Lemma insertsort_prefix (a : list Z) (n : nat) :
  (S n <= List.length a)%nat ->
  exists p, foldl insertsort_step a (seq 1 n) = p ++ drop (S n) a
            /\ StronglySorted Z.le p /\ p ≡ₚ take (S n) a.
Proof.
  induction n as [|n IH]; intros Hn.
  - destruct a as [|x a]; [simpl in Hn; lia|].
    exists [x]. simpl. rewrite drop_0, take_0. split_and!; auto.
    repeat constructor.
  - destruct (IH ltac:(lia)) as (p & Heq & Hs & Hperm).
    rewrite seq_S, foldl_app. simpl. rewrite Heq.
    assert (Hx : is_Some (a !! S n)) by (apply lookup_lt_is_Some; lia).
    destruct Hx as [x Hx].
    rewrite (drop_S _ _ _ Hx).
    assert (Hlen : List.length p = S n).
    { rewrite Hperm, length_take. lia. }
    destruct (insertsort_step_spec p x (drop (S (S n)) a) Hs) as (p' & E & Hs' & Hp').
    rewrite Hlen in E.
    exists p'. split_and!; auto.
    rewrite Hp', Hperm. by rewrite (take_S_r _ _ _ Hx).
Qed.

Lemma insertsort_spec (a : list Z) (n : nat) :
  (n <= List.length a)%nat ->
  exists p, insertsort a n = p ++ drop n a
            /\ StronglySorted Z.le p /\ p ≡ₚ take n a.
Proof.
  intros Hn. unfold insertsort. destruct n as [|n].
  - exists []. simpl. rewrite drop_0, take_0. split_and!; auto. constructor.
  - replace (S n - 1)%nat with n by lia. by apply insertsort_prefix.
Qed.

End SortFacts.

(** ** The consensus filter *)

Section ConsensusFacts.

(** Unless the subtraction wraps at the two ends of [int], an inlier is
    within one second of the median. *)
Lemma inlier_window (x m : Z) :
  is_int x -> is_int m ->
  ~ (x = INT_MIN /\ m = INT_MAX) -> ~ (x = INT_MAX /\ m = INT_MIN) ->
  inlier x m = true -> m - 1 <= x <= m + 1.
Proof.
  unfold is_int, INT_MIN, INT_MAX, inlier, wrap_int, wrap.
  change (2 ^ (32 - 1)) with 2147483648. change (2 ^ 32) with 4294967296.
  intros Hx Hm H1 H2 H.
  apply andb_prop in H as [Ha Hb].
  apply Z.leb_le in Ha. apply Z.geb_le in Hb.
  pose proof (Z.div_mod (x - m + 2147483648) 4294967296 ltac:(lia)) as Hd.
  pose proof (Z.mod_pos_bound (x - m + 2147483648) 4294967296 ltac:(lia)) as Hr.
  lia.
Qed.

Lemma inlier_median (m : Z) : inlier m m = true.
Proof. unfold inlier. rewrite Z.sub_diag. reflexivity. Qed.

(** The filter loop over the indices is a fold over the entries. *)
Lemma filter_loop_entries (a : list Z) (n : nat) (mean : Z) :
  (n <= List.length a)%nat ->
  filter_loop a n mean = foldl (filter_entry mean) (0, 0) (take n a).
Proof.
  unfold filter_loop. induction n as [|n IH]; intros Hn.
  - by rewrite take_0.
  - assert (Hx : is_Some (a !! n)) by (apply lookup_lt_is_Some; lia).
    destruct Hx as [x Hx].
    rewrite seq_S, foldl_app, (take_S_r _ _ _ Hx), foldl_app, <- IH by lia.
    simpl. unfold filter_step, filter_entry.
    rewrite (list_lookup_total_correct _ _ _ Hx).
    by destruct (foldl _ _ _).
Qed.

Lemma filter_entries_bounds (mean : Z) (l : list Z) (acc : Z * Z) :
  Forall (fun x => inlier x mean = true -> mean - 1 <= x <= mean + 1) l ->
  0 <= snd acc ->
  (mean - 1) * snd acc <= fst acc <= (mean + 1) * snd acc ->
  (mean - 1) * snd (foldl (filter_entry mean) acc l)
  <= fst (foldl (filter_entry mean) acc l)
  <= (mean + 1) * snd (foldl (filter_entry mean) acc l).
Proof.
  induction l as [|x l IH] in acc |- *; intros Hall Hg Hs; simpl.
  - lia.
  - apply Forall_cons in Hall as [Hx Hall].
    assert (Hstep : 0 <= snd (filter_entry mean acc x)
                    /\ (mean - 1) * snd (filter_entry mean acc x)
                       <= fst (filter_entry mean acc x)
                       <= (mean + 1) * snd (filter_entry mean acc x)).
    { unfold filter_entry. destruct (inlier x mean) eqn:E; simpl; [|lia].
      specialize (Hx eq_refl). nia. }
    apply IH; [done|apply Hstep..].
Qed.

(** Every counted entry makes [goodtimes] grow. *)
Lemma filter_entries_counts (mean : Z) (l : list Z) (acc : Z * Z) :
  mean ∈ l -> snd acc < snd (foldl (filter_entry mean) acc l).
Proof.
  assert (Hmono : forall l acc, snd acc <= snd (foldl (filter_entry mean) acc l)).
  { clear. induction l as [|x l IH]; intros acc; simpl; [lia|].
    etrans; [|apply IH]. unfold filter_entry. destruct (inlier x mean); simpl; lia. }
  induction l as [|x l IH] in acc |- *; intros Hin.
  - by apply elem_of_nil in Hin.
  - simpl. apply elem_of_cons in Hin as [<-|Hin].
    + unfold filter_entry at 2. rewrite inlier_median.
      eapply Z.lt_le_trans; [|apply Hmono]. simpl. lia.
    + eapply Z.le_lt_trans; [|by apply IH].
      unfold filter_entry. destruct (inlier x mean); simpl; lia.
Qed.

Lemma filter_entries_nonneg (mean : Z) (l : list Z) (acc : Z * Z) :
  snd acc <= snd (foldl (filter_entry mean) acc l).
Proof.
  induction l as [|x l IH] in acc |- *; simpl; [lia|].
  etrans; [|apply IH]. unfold filter_entry. destruct (inlier x mean); simpl; lia.
Qed.

End ConsensusFacts.

Section ConsensusResults.

Lemma sorted_consensus_of (a : list Z) (n : nat) :
  sorted (consensus_of a n) = insertsort a n.
Proof. unfold consensus_of. by destruct (filter_loop _ _ _). Qed.

Lemma mean_consensus_of (a : list Z) (n : nat) :
  mean (consensus_of a n) = insertsort a n !!! (n / 2)%nat.
Proof. unfold consensus_of. by destruct (filter_loop _ _ _). Qed.

Lemma tally_consensus_of (a : list Z) (n : nat) :
  (sumtimes (consensus_of a n), goodtimes (consensus_of a n))
  = filter_loop (insertsort a n) n (insertsort a n !!! (n / 2)%nat).
Proof. unfold consensus_of. by destruct (filter_loop _ _ _). Qed.

Lemma half_lt (n : nat) : (0 < n)%nat -> (n / 2 < n)%nat.
Proof. intros. apply Nat.div_lt; lia. Qed.

(** The median is one of the sorted samples. *)
Lemma median_lookup (a : list Z) (n : nat) :
  (0 < n <= List.length a)%nat ->
  take n (insertsort a n) !! (n / 2)%nat = Some (mean (consensus_of a n)).
Proof.
  intros [Hn Hlen]. rewrite mean_consensus_of.
  destruct (insertsort_spec a n Hlen) as (p & E & _ & Hp).
  assert (Hpl : List.length p = n) by (rewrite Hp, length_take; lia).
  rewrite E, take_app_length' by done.
  pose proof (half_lt n Hn).
  assert (Hx : is_Some (p !! (n / 2)%nat)) by (apply lookup_lt_is_Some; lia).
  destruct Hx as [x Hx]. rewrite Hx. f_equal. symmetry.
  apply list_lookup_total_correct. by rewrite lookup_app_l by lia.
Qed.

(** The number of inliers is never negative, and positive as soon as there
    is a sample: the median is its own inlier. *)
Lemma goodtimes_nonneg (a : list Z) (n : nat) :
  (n <= List.length a)%nat -> 0 <= goodtimes (consensus_of a n).
Proof.
  intros Hlen. pose proof (tally_consensus_of a n) as E.
  rewrite filter_loop_entries in E
    by (destruct (insertsort_spec a n Hlen) as (p & -> & _ & Hp);
        rewrite length_app, length_drop, Hp, length_take; lia).
  apply (f_equal snd) in E. simpl in E. rewrite E.
  apply (filter_entries_nonneg _ _ (0, 0)).
Qed.

Lemma goodtimes_positive (a : list Z) (n : nat) :
  (0 < n <= List.length a)%nat -> 0 < goodtimes (consensus_of a n).
Proof.
  intros [Hn Hlen]. pose proof (tally_consensus_of a n) as E.
  rewrite filter_loop_entries in E
    by (destruct (insertsort_spec a n Hlen) as (p & -> & _ & Hp);
        rewrite length_app, length_drop, Hp, length_take; lia).
  apply (f_equal snd) in E. simpl in E. rewrite E.
  apply (filter_entries_counts _ _ (0, 0)).
  apply list_elem_of_lookup. exists (n / 2)%nat.
  rewrite median_lookup by done. by rewrite mean_consensus_of.
Qed.

Lemma goodtimes_zero (a : list Z) :
  goodtimes (consensus_of a 0) = 0 /\ sumtimes (consensus_of a 0) = 0.
Proof.
  pose proof (tally_consensus_of a 0) as E. unfold filter_loop in E. simpl in E.
  split; [exact (f_equal snd E) | exact (f_equal fst E)].
Qed.

(** Unless the window test wraps, the sum of the inliers is within
    [goodtimes] of [goodtimes] times the median. *)
Lemma inliers_sum_bounds (a : list Z) (n : nat) :
  (n <= List.length a)%nat ->
  Forall is_int (take n a) ->
  ~ (INT_MIN ∈ take n a /\ INT_MAX ∈ take n a) ->
  let c := consensus_of a n in
  goodtimes c <> 0 ->
  0 < goodtimes c
  /\ (mean c - 1) * goodtimes c <= sumtimes c <= (mean c + 1) * goodtimes c.
Proof.
  intros Hlen Hint Hends c Hgood. subst c.
  destruct (decide (n = 0%nat)) as [->|Hn].
  { by destruct (goodtimes_zero a). }
  assert (Hpos : (0 < n <= List.length a)%nat) by lia.
  pose proof (goodtimes_positive _ _ Hpos) as Hg.
  pose proof (median_lookup _ _ Hpos) as Hmed.
  pose proof (tally_consensus_of a n) as E.
  destruct (insertsort_spec a n Hlen) as (p & Ep & _ & Hp).
  assert (Hpl : List.length p = n) by (rewrite Hp, length_take; lia).
  rewrite filter_loop_entries in E by (rewrite Ep, length_app, length_drop; lia).
  rewrite <- mean_consensus_of in E.
  rewrite Ep, take_app_length' in E, Hmed by done.
  set (m := mean (consensus_of a n)) in *.
  assert (Hm : m ∈ p) by (apply list_elem_of_lookup; eauto).
  assert (Hwin : Forall (fun x => inlier x m = true -> m - 1 <= x <= m + 1) p).
  { apply Forall_forall. intros x Hx.
    rewrite Forall_forall in Hint.
    apply inlier_window.
    - apply Hint. by rewrite <- Hp.
    - apply Hint. by rewrite <- Hp.
    - intros [-> Em]. apply Hends. rewrite <- Hp. split; [done|by rewrite <- Em].
    - intros [-> Em]. apply Hends. rewrite <- Hp. split; [by rewrite <- Em|done]. }
  pose proof (filter_entries_bounds m p (0, 0) Hwin ltac:(simpl; lia)
                ltac:(simpl; lia)) as Hb.
  rewrite <- E in Hb. simpl in Hb. done.
Qed.

End ConsensusResults.

(** C5.  For a non-empty collection of [validtimes] admitted samples, the
    cycle sorts them ascending: the first [validtimes] entries of the array
    after [insertsort] are sorted and are a permutation of the samples, the
    rest of the array is untouched; and the median [mean] is the entry at
    index [validtimes / 2] of the sorted samples. *)
Theorem sorted_median (timedelta : list Z) (validtimes : nat) :
  (0 < validtimes <= List.length timedelta)%nat ->
  let c := consensus_of timedelta validtimes in
  sorted c = insertsort timedelta validtimes
  /\ StronglySorted Z.le (take validtimes (sorted c))
  /\ take validtimes (sorted c) ≡ₚ take validtimes timedelta
  /\ drop validtimes (sorted c) = drop validtimes timedelta
  /\ take validtimes (sorted c) !! (validtimes / 2)%nat = Some (mean c).
Proof.
  intros [Hn Hlen] c. subst c. rewrite sorted_consensus_of.
  destruct (insertsort_spec timedelta validtimes Hlen) as (p & E & Hs & Hp).
  assert (Hpl : List.length p = validtimes) by (rewrite Hp, length_take; lia).
  split_and!; [done| | | |by apply median_lookup].
  - by rewrite E, take_app_length'.
  - by rewrite E, take_app_length'.
  - by rewrite E, drop_app_length'.
Qed.

Lemma sorted_median_witness :
  let c := consensus_of [5; 2; 3; 7; 7] 3 in
  sorted c = [2; 3; 5; 7; 7] /\ mean c = 3
  /\ take 3 (sorted c) !! 1%nat = Some (mean c).
Proof.
  destruct (sorted_median [5; 2; 3; 7; 7] 3) as (H1 & _ & _ & _ & H5).
  - simpl. lia.
  - split_and!; [reflexivity | reflexivity | exact H5].
Defined.

(** C6 fails on the code where the [int] subtraction [timedelta[i]-mean]
    overflows.  With the samples [INT_MIN] and [INT_MAX] the median is
    [INT_MAX]; the difference [INT_MIN - INT_MAX] wraps to 1, so the sample
    that is 2^32 - 1 seconds away counts as an inlier, and the mean is
    [-0.5], outside [[INT_MAX - 1, INT_MAX + 1]]. *)
Lemma mean_outside_window :
  let c := consensus_of [INT_MIN; INT_MAX] 2 in
  inlier INT_MIN INT_MAX = true
  /\ goodtimes c = 2 /\ mean c = INT_MAX /\ sumtimes c = -1
  /\ timeavg_of c = (-0.5)%float
  /\ (double_of_long (mean c - 1) <=? timeavg_of c)%float = false.
Proof. split_and!; reflexivity. Qed.

(** These samples are what a query with [-t] collects from two servers whose
    dates are 2^31 - 1 seconds ahead and 2^31 seconds behind: it reports an
    offset of [-0.5]. *)
Lemma mean_outside_window_run :
  let run := one_shot Libc.strptime Libc.gmtmktime Samples.env_int_ends
               Samples.cfg_unlimited
               (State 0 DEFAULT_MIN_SLEEP 0 0 Samples.timedelta0) in
  collect_samples Libc.strptime Libc.gmtmktime Samples.env_int_ends
    Samples.cfg_unlimited (State 0 DEFAULT_MIN_SLEEP 0 0 Samples.timedelta0) []
  = Ret (Collect ([INT_MAX; INT_MIN] ++ replicate 253 0) 2 true 999999)
        [HTTPexchange "a.example.com" "80" 333333;
         HTTPexchange "a.example.com" "80" 333333;
         HTTPexchange "b.example.com" "80" 666666;
         HTTPexchange "b.example.com" "80" 666666]
  /\ run []
     = Exited 0 [HTTPexchange "a.example.com" "80" 333333;
                 HTTPexchange "a.example.com" "80" 333333;
                 HTTPexchange "b.example.com" "80" 666666;
                 HTTPexchange "b.example.com" "80" 666666;
                 Printlog false (Offset (-0.5)); Seteuid 0].
Proof. split; vm_compute; reflexivity. Qed.



(** ** [getHTTPdate] *)

Section SamplingFacts.

Context {tm : Type}.
Variable strptime : string -> option tm.
Variable gmtmktime : tm -> Z.
Variables (debug : bool) (host port : string) (when : Z).

(** Without a usable date field [timevalue.tv_sec] keeps its initial value
    and the problem is logged. *)
Lemma parse_date_none buffer timevalue_sec rtt timeofday_sec :
  remote_date strptime buffer = None ->
  let r := parse_date strptime gmtmktime debug host port buffer timevalue_sec
             rtt timeofday_sec in
  fst r = timevalue_sec
  /\ (Printlog true (NoTimestamp host) ∈ snd r
      \/ Printlog true (UnknownTimeFormat host) ∈ snd r).
Proof.
  unfold remote_date, parse_date. intros H.
  destruct (find_date buffer) as [pdate|];
    [|simpl; split; [done|left; constructor]].
  destruct (35 <=? String.length buffer - pdate)%nat;
    [|simpl; split; [done|left; constructor]].
  rewrite H. simpl. split; [done|right; constructor].
Qed.

Lemma parse_date_some buffer timevalue_sec rtt timeofday_sec t :
  remote_date strptime buffer = Some t ->
  fst (parse_date strptime gmtmktime debug host port buffer timevalue_sec rtt
         timeofday_sec) = gmtmktime t.
Proof.
  unfold remote_date, parse_date. intros H.
  destruct (find_date buffer) as [pdate|]; [|done].
  destruct (35 <=? String.length buffer - pdate)%nat; [|done].
  by rewrite H.
Qed.

(** What [getHTTPdate] returns once a response has been received. *)
Lemma getHTTPdate_received ex :
  connected ex -> received ex ->
  let d := parse_date strptime gmtmktime debug host port (ex_buffer ex) LONG_MAX
             (wrap_long
                (wrap_long
                   ((tv_sec (ex_timeofday2 ex)
                     - (if when >=? tv_usec (ex_timeofday1 ex)
                        then tv_sec (ex_timeofday1 ex)
                        else wrap_long (tv_sec (ex_timeofday1 ex) + 1)))
                    * 1000000)
                 + tv_usec (ex_timeofday2 ex) - when))
             (tv_sec (ex_timeofday2 ex)) in
  getHTTPdate strptime gmtmktime debug host port when ex
  = (wrap_long (fst d - tv_sec (ex_timeofday2 ex)), snd d).
Proof.
  intros [Hres Hconn] [Hsend Hrecv]. unfold getHTTPdate, getHTTP.
  rewrite Hres. simpl negb. cbv iota.
  destruct (connect_loop 0 0 (ex_res0 ex) (ex_next ex)) as [server_s rc].
  simpl in Hconn. subst rc. simpl.
  destruct (ex_send ex <? 0) eqn:Es; [lia|].
  destruct (ex_recv ex =? -1) eqn:Er; [lia|]. simpl.
  by destruct (parse_date _ _ _ _ _ _ _ _ _).
Qed.

End SamplingFacts.

(** C3, as stated, fails: for a response without a date field the result
    is not the zero that an unreachable source yields. *)
Lemma no_date_not_zero :
  let sample ex :=
    getHTTPdate Libc.strptime Libc.gmtmktime false "www.example.com" "80"
      500000 ex in
  connected Samples.ex_nodate /\ received Samples.ex_nodate
  /\ remote_date Libc.strptime (ex_buffer Samples.ex_nodate) = None
  /\ sample Samples.ex_nodate
     = (LONG_MAX - 1704067210, [Printlog true (NoTimestamp "www.example.com")])
  /\ fst (sample Samples.ex_nodate) <> 0
  /\ fst (sample Samples.ex_nodate) <> fst (sample Samples.ex_unresolved).
Proof.
  split_and!.
  - split; reflexivity.
  - split; vm_compute; congruence.
  - reflexivity.
  - reflexivity.
  - vm_compute; congruence.
  - vm_compute; congruence.
Qed.

(** C3 (amended).  For a received response whose date field is missing or
    unparsable, [getHTTPdate] logs the problem and returns [LONG_MAX] minus
    the local time read after the response: the initial value of
    [timevalue] is left in place.  For a local clock in [[0, LONG_MAX)] this
    is not zero. *)
Theorem getHTTPdate_no_date {tm : Type} (strptime : string -> option tm)
    (gmtmktime : tm -> Z) (debug : bool) (host port : string) (when : Z)
    (ex : exchange) :
  connected ex -> received ex ->
  remote_date strptime (ex_buffer ex) = None ->
  let r := getHTTPdate strptime gmtmktime debug host port when ex in
  fst r = wrap_long (LONG_MAX - tv_sec (ex_timeofday2 ex))
  /\ (Printlog true (NoTimestamp host) ∈ snd r
      \/ Printlog true (UnknownTimeFormat host) ∈ snd r)
  /\ (0 <= tv_sec (ex_timeofday2 ex) < LONG_MAX ->
      fst r = LONG_MAX - tv_sec (ex_timeofday2 ex) /\ fst r <> 0).
Proof.
  intros Hc Hr Hd r. subst r.
  rewrite (getHTTPdate_received _ _ _ _ _ _ _ Hc Hr). simpl.
  match goal with |- context [parse_date ?a ?b ?c ?d ?e ?f ?g ?h ?i] =>
    destruct (parse_date_none a b c d e f g h i Hd) as [E Hlog] end.
  rewrite E. split_and!; [done|done|].
  intros Hnow. rewrite wrap_long_id by (unfold is_long, LONG_MAX in *; lia).
  unfold LONG_MAX in *. lia.
Qed.

Lemma getHTTPdate_no_date_witness :
  let r := getHTTPdate Libc.strptime Libc.gmtmktime false "www.example.com"
             "80" 500000 Samples.ex_baddate in
  fst r = LONG_MAX - 1704067210
  /\ Printlog true (UnknownTimeFormat "www.example.com") ∈ snd r.
Proof.
  destruct (getHTTPdate_no_date Libc.strptime Libc.gmtmktime false
              "www.example.com" "80" 500000 Samples.ex_baddate)
    as (H1 & H2 & H3).
  - split; reflexivity.
  - split; vm_compute; congruence.
  - reflexivity.
  - split; [apply H3; vm_compute; split; congruence|].
    vm_compute. constructor.
Defined.

(** C4, as stated, fails: a source whose name does not resolve and a source
    that answers with the very second of the local clock yield the same
    value. *)
Lemma unreachable_same_as_synced :
  let sample ex :=
    getHTTPdate Libc.strptime Libc.gmtmktime false "www.example.com" "80"
      500000 ex in
  ~ connected Samples.ex_unresolved
  /\ connected Samples.ex_synced /\ received Samples.ex_synced
  /\ option_map Libc.gmtmktime
       (remote_date Libc.strptime (ex_buffer Samples.ex_synced))
     = Some (tv_sec (ex_timeofday2 Samples.ex_synced))
  /\ fst (sample Samples.ex_unresolved) = fst (sample Samples.ex_synced).
Proof.
  split_and!.
  - intros [H _]. vm_compute in H. congruence.
  - split; reflexivity.
  - split; vm_compute; congruence.
  - reflexivity.
  - reflexivity.
Qed.

Lemma connect_loop_cons server_s rc res res' next :
  connect_loop server_s rc res (res' :: next)
  = if res.1 <? 0 then connect_loop res.1 rc res' next
    else if res.2 =? 0 then res
    else connect_loop (-1) res.2 res' next.
Proof. by destruct res. Qed.

Lemma connect_loop_nil server_s rc res :
  connect_loop server_s rc res []
  = if res.1 <? 0 then (res.1, rc)
    else if res.2 =? 0 then res
    else (-1, res.2).
Proof. by destruct res. Qed.

(** When no address gives a connection and [connect] was called at least
    once, or [rc] was not zero before, the loop ends with [rc] not zero. *)
Lemma connect_loop_refused server_s rc res next :
  Forall (fun a => a.1 < 0 \/ a.2 <> 0) (res :: next) ->
  rc <> 0 \/ Exists (fun a => 0 <= a.1) (res :: next) ->
  snd (connect_loop server_s rc res next) <> 0.
Proof.
  induction next as [|res' next IH] in server_s, rc, res |- *;
    intros Hall Hsome; apply Forall_cons in Hall as [Hres Hall].
  - rewrite connect_loop_nil. destruct (Z.ltb_spec res.1 0).
    + simpl. destruct Hsome as [?|Hsome]; [done|].
      apply Exists_cons in Hsome as [?|Hsome]; [lia|].
      by apply Exists_nil in Hsome.
    + destruct (Z.eqb_spec res.2 0); [lia|done].
  - rewrite connect_loop_cons. destruct (Z.ltb_spec res.1 0).
    + apply IH; [done|]. destruct Hsome as [?|Hsome]; [by left|].
      apply Exists_cons in Hsome as [?|Hsome]; [lia|by right].
    + destruct (Z.eqb_spec res.2 0); [lia|]. apply IH; [done|by left].
Qed.

(** C4 (amended).  When the name does not resolve, or when [socket]
    succeeds for at least one address and no address accepts the
    connection, [getHTTPdate] logs it and returns 0 ("assume correct
    time"); a source that is reached and whose date equals the second of
    the local clock returns 0 as well. *)
Theorem getHTTPdate_failure_is_zero {tm : Type} (strptime : string -> option tm)
    (gmtmktime : tm -> Z) (debug : bool) (host port : string) (when : Z)
    (ex : exchange) :
  let r := getHTTPdate strptime gmtmktime debug host port when ex in
  (ex_getaddrinfo ex <> 0 ->
   r = (0, [Printlog true (HostUnavailable host)]))
  /\ (ex_getaddrinfo ex = 0 ->
      Forall (fun a => a.1 < 0 \/ a.2 <> 0) (ex_res0 ex :: ex_next ex) ->
      Exists (fun a => 0 <= a.1) (ex_res0 ex :: ex_next ex) ->
      r = (0, [Printlog true (ConnectionFailed host)]))
  /\ (forall t, connected ex -> received ex ->
      remote_date strptime (ex_buffer ex) = Some t ->
      gmtmktime t = tv_sec (ex_timeofday2 ex) ->
      fst r = 0).
Proof.
  intros r. subst r. split_and!.
  - intros H. unfold getHTTPdate.
    destruct (ex_getaddrinfo ex =? 0) eqn:E; [lia|done].
  - intros H0 Hall Hsome. unfold getHTTPdate. rewrite H0. simpl negb. cbv iota.
    pose proof (connect_loop_refused 0 0 _ _ Hall (or_intror Hsome)) as H.
    destruct (connect_loop 0 0 (ex_res0 ex) (ex_next ex)) as [server_s rc].
    simpl in H. destruct (rc =? 0) eqn:E; [lia|done].
  - intros t Hc Hr Hd Ht.
    rewrite (getHTTPdate_received _ _ _ _ _ _ _ Hc Hr). simpl.
    rewrite (parse_date_some _ _ _ _ _ _ _ _ _ _ Hd), Ht, Z.sub_diag.
    reflexivity.
Qed.

Lemma getHTTPdate_failure_is_zero_witness :
  getHTTPdate Libc.strptime Libc.gmtmktime false "www.example.com" "80"
    500000 Samples.ex_refused
  = (0, [Printlog true (ConnectionFailed "www.example.com")])
  /\ fst (getHTTPdate Libc.strptime Libc.gmtmktime false "www.example.com"
            "80" 500000 Samples.ex_synced) = 0.
Proof.
  destruct (getHTTPdate_failure_is_zero Libc.strptime Libc.gmtmktime false
              "www.example.com" "80" 500000 Samples.ex_refused)
    as (_ & H & _).
  destruct (getHTTPdate_failure_is_zero Libc.strptime Libc.gmtmktime false
              "www.example.com" "80" 500000 Samples.ex_synced)
    as (_ & _ & H').
  split.
  - apply H; [reflexivity| |].
    + simpl. repeat (constructor; [simpl; right; lia|]). constructor.
    + apply Exists_cons_hd. simpl. lia.
  - eapply H'.
    + split; reflexivity.
    + split; vm_compute; congruence.
    + reflexivity.
    + reflexivity.
Defined.

(** ** Running the monad *)

Section MonadFacts.

Lemma bind_ret {A B} (m : M A) (k : A -> M B) tr a tr' :
  m tr = Ret a tr' -> (m ≫= k) tr = k a tr'.
Proof. unfold mbind, M_bind. by intros ->. Qed.

Lemma bind_exited {A B} (m : M A) (k : A -> M B) tr status tr' :
  m tr = Exited status tr' -> (m ≫= k) tr = Exited status tr'.
Proof. unfold mbind, M_bind. by intros ->. Qed.

Lemma bind_do_call {A B} (c : call) (answer : nat -> A) (k : A -> M B) tr :
  (do_call c answer ≫= k) tr = k (answer (List.length tr)) (tr ++ [c]).
Proof. reflexivity. Qed.

Lemma bind_printlog {B} is_error m (k : unit -> M B) tr :
  (printlog is_error m ≫= k) tr = k tt (tr ++ [Printlog is_error m]).
Proof. reflexivity. Qed.

Lemma swuid_ok env id tr :
  os_seteuid env (List.length tr) = 0 ->
  swuid env id tr = Ret tt (tr ++ [Seteuid id]).
Proof. unfold swuid. rewrite bind_do_call. by intros ->. Qed.

Lemma swuid_fails env id tr :
  os_seteuid env (List.length tr) <> 0 ->
  swuid env id tr
  = Exited 1 (tr ++ [Seteuid id; Printlog true (SeteuidFailed id)]).
Proof.
  unfold swuid. rewrite bind_do_call. intros H.
  destruct (_ =? 0) eqn:E; [lia|].
  rewrite bind_printlog. unfold exit. by rewrite <- app_assoc.
Qed.

End MonadFacts.

(** ** The clock controller *)

(** C8.  In every mode a correction of exactly zero ([timedelta == 0], which
    holds of 0 and of -0) only logs that no correction is needed and
    returns 0: no privileged call is made and no call changes the clock. *)
Theorem setclock_zero (env : environment) (timedelta : float) (setmode : Z)
    (tr : list call) :
  (timedelta =? 0)%float = true ->
  setclock env timedelta setmode tr
  = Ret 0 (tr ++ [Printlog false NoCorrectionNeeded])
  /\ Forall (fun c => privileged c = false /\ clock_mutation c = false)
       (drop (List.length tr) (trace_of (setclock env timedelta setmode tr))).
Proof.
  intros H.
  assert (E : setclock env timedelta setmode tr
              = Ret 0 (tr ++ [Printlog false NoCorrectionNeeded])).
  { unfold setclock. rewrite H. reflexivity. }
  split; [exact E|].
  rewrite E. simpl. rewrite drop_app_length. by repeat constructor.
Qed.

Lemma setclock_zero_witness :
  setclock (Samples.env_of Samples.ex_synced Samples.now_2024 0) neg_zero 2 []
  = Ret 0 [Printlog false NoCorrectionNeeded].
Proof.
  apply (setclock_zero (Samples.env_of Samples.ex_synced Samples.now_2024 0)
           neg_zero 2 []).
  reflexivity.
Defined.

Section ControllerFacts.

Lemma shiftr_1 (x : Z) : Z.shiftr x 1 = x / 2.
Proof. by rewrite Z.shiftr_div_pow2. Qed.

(** The computed frequency is the current one plus half the candidate,
    clamped. *)
Lemma new_frequency_clamped (tmx_freq : Z) (drift : float) :
  new_frequency tmx_freq drift
  = clamp_drift (wrap_long (tmx_freq + candidate_frequency drift / 2)).
Proof.
  unfold new_frequency, clamp_drift, sign, MAX_DRIFT. rewrite shiftr_1.
  set (f := wrap_long _).
  repeat match goal with
         | |- context [Z.ltb ?a ?b] => destruct (Z.ltb_spec a b)
         | |- context [Z.gtb ?a ?b] => destruct (Z.gtb_spec a b)
         end; simpl; lia.
Qed.

End ControllerFacts.

(** C2, as stated, fails: with a kernel frequency of 1000 and a drift of
    2^-20 (candidate 62500) the value written is 1000 + 31250, not the
    average of 1000 and 62500. *)
Lemma frequency_not_average :
  htpdate_adjtimex (Samples.env_of Samples.ex_synced Samples.now_2024 1000)
    0x1p-20 []
  = Ret 0 [AdjtimexRead; Printlog false (AdjustingFrequency 32250);
           Seteuid 0; AdjtimexFreq 32250]
  /\ candidate_frequency 0x1p-20 = 62500
  /\ average_frequency 1000 0x1p-20 = 31750
  /\ new_frequency 1000 0x1p-20 <> average_frequency 1000 0x1p-20.
Proof. split_and!; [reflexivity..|vm_compute; congruence]. Qed.

(** The candidate is the [double] product, rounded, then truncated: a mean
    of 6/5 s over 2500 s gives 31457279, where the exact product is
    31457280.  When no time has passed since [starttime] the drift is
    infinite, the conversion to [long] is undefined (x86-64: [LONG_MIN]) and
    the frequency ends at the lower clamp. *)
Lemma candidate_frequency_rounds :
  candidate_frequency
    (double_of_long 6 / double_of_long 5 / double_of_long 2500)%float
  = 31457279
  /\ candidate_frequency (1.2 / double_of_long 0)%float = - LONG_MAX - 1
  /\ new_frequency 1000 (1.2 / double_of_long 0)%float = - MAX_DRIFT.
Proof. split_and!; reflexivity. Qed.

(** In [main]: a correction of 1.2 s in mode 3 in the very second of
    [starttime] gives an infinite drift, and the lowest frequency is
    written. *)
Lemma drift_without_elapsed_time :
  calls_of
    (after_correction (Samples.env_of Samples.ex_synced Samples.now_2024 1000)
       Samples.cfg_foreground
       (State 3 3600 (tv_sec Samples.now_2024) 0 Samples.timedelta0) 1.2) []
  = [Time; Printlog false (DriftPPM infinity); Time; AdjtimexRead;
     Printlog false (AdjustingFrequency (- MAX_DRIFT)); Seteuid 0;
     AdjtimexFreq (- MAX_DRIFT); Seteuid 0; Sleep DEFAULT_MIN_SLEEP].
Proof. reflexivity. Qed.

(** C2 (amended).  [htpdate_adjtimex] reads the kernel frequency and writes
    back that value plus half of the candidate, clamped to
    [[-32768000, 32768000]]: the average of the current value and of the
    current value plus the candidate.  The candidate is
    [(long)(65536e6 * drift)]: the [double] product, rounded to the nearest
    [double], then truncated toward zero (and [LONG_MIN] where the product
    does not fit a [long], a conversion that C leaves undefined). *)
Theorem htpdate_adjtimex_writes (env : environment) (drift : float)
    (tr : list call) :
  let current := os_adjtimex_read env (List.length tr) in
  let candidate := long_of_double (65536e6 * drift)%float in
  let freq := clamp_drift (wrap_long (current + candidate / 2)) in
  - MAX_DRIFT <= freq <= MAX_DRIFT
  /\ trace_of (htpdate_adjtimex env drift tr)
     = tr ++ [AdjtimexRead; Printlog false (AdjustingFrequency freq); Seteuid 0]
          ++ (if os_seteuid env (2 + List.length tr) =? 0
              then [AdjtimexFreq freq]
              else [Printlog true (SeteuidFailed 0)])
  /\ htpdate_adjtimex env drift tr
     = if os_seteuid env (2 + List.length tr) =? 0
       then Ret (os_adjtimex_freq env (3 + List.length tr))
                (trace_of (htpdate_adjtimex env drift tr))
       else Exited 1 (trace_of (htpdate_adjtimex env drift tr)).
Proof.
  intros current candidate freq.
  split; [unfold freq, clamp_drift, MAX_DRIFT; lia|].
  unfold htpdate_adjtimex. rewrite bind_do_call. fold current.
  rewrite new_frequency_clamped. unfold candidate_frequency.
  fold candidate. fold freq.
  rewrite bind_printlog.
  assert (Hlen : List.length ((tr ++ [AdjtimexRead])
                              ++ [Printlog false (AdjustingFrequency freq)])
                 = (2 + List.length tr)%nat)
    by (rewrite !length_app; simpl; lia).
  destruct (os_seteuid env (2 + List.length tr) =? 0) eqn:E.
  - erewrite bind_ret by (apply swuid_ok; rewrite Hlen; lia).
    unfold do_call. rewrite !length_app. simpl.
    replace (List.length tr + 1 + 1 + 1)%nat with (3 + List.length tr)%nat by lia.
    rewrite <- !app_assoc. simpl. done.
  - erewrite bind_exited by (apply swuid_fails; rewrite Hlen; lia).
    simpl. rewrite <- !app_assoc. simpl. done.
Qed.

(** C10 fails on the code.  With the clock at 1704067210.25 s and an offset
    of 0.5 s, [setclock] in mode 2 writes 1704067210 s and 0 microseconds,
    where the sum is 1704067210.75 s; in mode 1 the same offset is split
    into 0 s and 500000 microseconds. *)
Lemma setclock_set_drops_microseconds :
  let env := Samples.env_of Samples.ex_synced (Timeval 1704067210 250000) 0 in
  setclock env 0.5 2 []
  = Ret 0 [Printlog false (Setting 0.5); Gettimeofday;
           Printlog false (SetTo 1704067210); Seteuid 0;
           Settimeofday (Timeval 1704067210 0)]
  /\ (0.5 + (double_of_long 1704067210 + double_of_long 250000 * 1e-6))%float
     = 1704067210.75%float
  /\ setclock env 0.5 1 []
     = Ret 0 [Printlog false (Adjusting 0.5); Seteuid 0;
              Adjtime (Timeval 0 500000)].
Proof. split_and!; reflexivity. Qed.

(** The sum of the offset and the clock is a [double] sum: it is rounded.
    With the clock at 1704067210.142857 s and an offset of 6/7 s the sum is
    1704067211 s, and that is what mode 2 writes. *)
Lemma setclock_set_rounds :
  let env := Samples.env_of Samples.ex_synced (Timeval 1704067210 142857) 0 in
  let timedelta := (double_of_long 6 / double_of_long 7)%float in
  (timedelta + (double_of_long 1704067210 + double_of_long 142857 * 1e-6))%float
  = double_of_long 1704067211
  /\ calls_of (setclock env timedelta 2) [] !! 4%nat
     = Some (Settimeofday (Timeval 1704067211 0)).
Proof. split; reflexivity. Qed.

(** ** The poll cycle *)

Section ReturnsFacts.

Lemma returns_ret {A} (a : A) (P : A -> Prop) : P a -> returns (mret a) P.
Proof.
  intros H tr. exists a, []. rewrite app_nil_r. split_and!; [done|constructor|done].
Qed.

Lemma returns_bind {A B} (m : M A) (k : A -> M B) (P : A -> Prop)
    (Q : B -> Prop) :
  returns m P -> (forall a, P a -> returns (k a) Q) -> returns (m ≫= k) Q.
Proof.
  intros Hm Hk tr. destruct (Hm tr) as (a & calls & E & Hq & Ha).
  destruct (Hk a Ha (tr ++ calls)) as (b & calls' & E' & Hq' & Hb).
  exists b, (calls ++ calls'). split_and!; [|by apply Forall_app|done].
  rewrite (bind_ret _ _ _ _ _ E), E'. by rewrite app_assoc.
Qed.

Lemma returns_weaken {A} (m : M A) (P Q : A -> Prop) :
  returns m P -> (forall a, P a -> Q a) -> returns m Q.
Proof.
  intros Hm HPQ tr. destruct (Hm tr) as (a & calls & E & Hq & Ha).
  exists a, calls. auto.
Qed.

Lemma returns_call {A} (c : call) (answer : nat -> A) (P : A -> Prop) :
  quiet c -> (forall n, P (answer n)) -> returns (do_call c answer) P.
Proof.
  intros Hc HP tr. exists (answer (List.length tr)), [c].
  split_and!; [done|by repeat constructor|done].
Qed.

Lemma returns_printlog is_error m : returns (printlog is_error m) (fun _ => True).
Proof. by apply returns_call. Qed.

Lemma returns_when (b : bool) (m : M unit) :
  returns m (fun _ => True) -> returns (when_ b m) (fun _ => True).
Proof. destruct b; [done|]. intros _. by apply returns_ret. Qed.

Lemma returns_emit (calls : list call) :
  Forall quiet calls -> returns (emit calls) (fun _ => True).
Proof. intros H tr. exists tt, calls. done. Qed.

End ReturnsFacts.

Section CollectFacts.

Context {tm : Type}.
Variable strptime : string -> option tm.
Variable gmtmktime : tm -> Z.
Variable env : environment.
Variable cfg : config.

(** [getHTTPdate] only logs. *)
Lemma parse_date_quiet debug host port buffer timevalue_sec rtt timeofday_sec :
  Forall quiet (snd (parse_date strptime gmtmktime debug host port buffer
                       timevalue_sec rtt timeofday_sec)).
Proof.
  unfold parse_date.
  destruct (find_date buffer) as [pdate|]; [|by repeat constructor].
  destruct (35 <=? _)%nat; [|by repeat constructor].
  destruct (strptime _); destruct debug; simpl; by repeat constructor.
Qed.

Lemma getHTTPdate_quiet debug host port when ex :
  Forall quiet (snd (getHTTPdate strptime gmtmktime debug host port when ex)).
Proof.
  unfold getHTTPdate, getHTTP.
  destruct (negb (ex_getaddrinfo ex =? 0)); [by repeat constructor|].
  destruct (connect_loop _ _ _ _) as [server_s rc].
  destruct (negb (rc =? 0)); [by repeat constructor|].
  destruct (ex_send ex <? 0); simpl; [by repeat constructor|].
  destruct (ex_recv ex =? -1); simpl; [by repeat constructor|].
  match goal with |- context [parse_date ?a ?b ?c ?d ?e ?f ?g ?h ?i] =>
    pose proof (parse_date_quiet c d e f g h i) as Hq;
    destruct (parse_date a b c d e f g h i) end.
  done.
Qed.

Lemma poll_returns host port when :
  returns (poll strptime gmtmktime env cfg host port when) is_int.
Proof.
  unfold poll. eapply returns_bind; [by apply (returns_call _ _ (fun _ => True))|].
  intros ex _. eapply returns_bind; [apply returns_emit, getHTTPdate_quiet|].
  intros _ _. apply returns_ret, wrap_int_range.
Qed.

Lemma attempts_returns try burst host port when :
  returns (attempts strptime gmtmktime env cfg try burst host port when) is_int.
Proof.
  induction try as [|try IH]; simpl.
  - apply returns_ret. by vm_compute.
  - eapply returns_bind; [apply returns_when, returns_printlog|].
    intros _ _. eapply returns_bind; [apply poll_returns|].
    intros timestamp Hint. simpl.
    destruct (negb (timestamp =? 0) && negb (Nat.eqb try 0)); [done|].
    by apply returns_ret.
Qed.

Lemma burst_body_returns len bound burst host port c :
  collected cfg len bound c ->
  returns (burst_body strptime gmtmktime env cfg burst host port c)
          (collected cfg len (S bound)).
Proof.
  intros (Hlen & Hb & Hall). unfold burst_body.
  eapply returns_bind; [apply attempts_returns|].
  intros timestamp Hint. apply returns_ret.
  assert (Hinv : collected cfg len (S bound)
            (if admitted cfg timestamp
             then Collect (<[validtimes c := timestamp]> (samples c))
                          (S (validtimes c)) (offsetdetect c) (when c)
             else c)).
  { destruct (admitted cfg timestamp) eqn:Ea.
    - split_and!; simpl.
      + by rewrite length_insert.
      + lia.
      + destruct (decide (validtimes c < List.length (samples c))%nat) as [Hin|Hout].
        * rewrite (take_S_r _ _ timestamp)
            by (by apply list_lookup_insert_eq).
          rewrite take_insert_ge by lia.
          apply Forall_app_2; [done|]. by apply Forall_singleton.
        * rewrite list_insert_ge by lia.
          rewrite take_ge in Hall |- * by lia. done.
    - split_and!; [done|lia|done]. }
  destruct (if admitted cfg timestamp then _ else c) as [sm v od w] eqn:E.
  destruct Hinv as (H1 & H2 & H3). simpl in *.
  by destruct (negb (timestamp =? 0)).
Qed.

Lemma burst_loop_returns len todo bound burst host port c :
  collected cfg len bound c ->
  returns (burst_loop strptime gmtmktime env cfg todo burst host port c)
          (collected cfg len (todo + bound)).
Proof.
  induction todo as [|todo IH] in bound, burst, c |- *; intros Hc; simpl.
  - by apply returns_ret.
  - eapply returns_bind; [by apply burst_body_returns|].
    intros c' Hc'. eapply returns_weaken; [by apply IH|].
    intros c'' (H1 & H2 & H3). split_and!; [done|lia|done].
Qed.

Lemma server_loop_returns len hosts sleeptime bound c :
  collected cfg len bound c ->
  returns (server_loop strptime gmtmktime env cfg hosts sleeptime c)
          (collected cfg len (List.length hosts * bursts cfg + bound)).
Proof.
  induction hosts as [|[host port] hosts IH] in bound, c |- *; intros Hc; simpl.
  - by apply returns_ret.
  - eapply returns_bind; [apply returns_when, returns_printlog|].
    intros _ _.
    eapply returns_bind.
    { apply burst_loop_returns with (bound := bound).
      destruct Hc as (H1 & H2 & H3). by destruct (negb (burstmode cfg =? 0)). }
    intros c' Hc'.
    eapply returns_bind; [apply returns_when; by apply returns_call|].
    intros _ _. eapply returns_weaken; [by apply IH|].
    intros c'' (H1 & H2 & H3). split_and!; [done|lia|done].
Qed.

(** The pass over the servers always returns, makes no privileged call and
    stores at most [numservers * bursts] samples. *)
Lemma collect_samples_returns (st : state) :
  returns (collect_samples strptime gmtmktime env cfg st)
          (collected cfg (List.length (timedelta st))
             (List.length (servers cfg) * bursts cfg)).
Proof.
  unfold collect_samples. eapply returns_weaken.
  - apply server_loop_returns with (bound := 0%nat) (len := List.length (timedelta st)).
    split_and!; simpl; [done|lia|]. rewrite take_0. constructor.
  - intros c (H1 & H2 & H3). split_and!; [done|lia|done].
Qed.

End CollectFacts.

Section CycleFacts.

Context {tm : Type}.
Variable strptime : string -> option tm.
Variable gmtmktime : tm -> Z.
Variable env : environment.
Variable cfg : config.

Lemma bind_inv {A B} (m : M A) (k : A -> M B) tr b tr' :
  (m ≫= k) tr = Ret b tr' ->
  exists a tr1, m tr = Ret a tr1 /\ k a tr1 = Ret b tr'.
Proof.
  unfold mbind, M_bind. destruct (m tr) as [a tr1|]; [|done]. eauto.
Qed.

Lemma mret_inv {A} (a b : A) tr tr' :
  mret (M := M) a tr = Ret b tr' -> a = b /\ tr = tr'.
Proof. unfold mret, M_ret. intros H. injection H as -> ->. done. Qed.

(** A correction in daemon or foreground mode sets the interval back to
    [minsleep]. *)
Lemma after_correction_sleeptime st timeavg tr st' tr' :
  after_correction env cfg st timeavg tr = Ret st' tr' ->
  sleeptime st' = minsleep cfg.
Proof.
  unfold after_correction. intros H.
  apply bind_inv in H as (st1 & tr1 & _ & H).
  rewrite bind_do_call in H. apply mret_inv in H as [<- _]. reflexivity.
Qed.

(** The kernel frequency is only touched in mode 3 and once a correction
    has been timed before ([starttime] nonzero); otherwise the bookkeeping
    reads the time and sleeps. *)
Lemma after_correction_without_frequency st timeavg tr :
  starttime st = 0 \/ setmode st <> 3 ->
  exists calls,
    trace_of (after_correction env cfg st timeavg tr) = tr ++ calls
    /\ Forall (fun c => c = Time \/ c = Sleep DEFAULT_MIN_SLEEP
                        \/ exists d, c = Printlog false (DriftPPM d)) calls.
Proof.
  intros H. unfold after_correction.
  destruct (Z.eqb_spec (starttime st) 0) as [E0|E0]; simpl.
  - exists [Time; Sleep DEFAULT_MIN_SLEEP]. split.
    + unfold mbind, M_bind, do_call, mret, M_ret. simpl.
      by rewrite <- app_assoc.
    + repeat (apply Forall_cons_2; [by eauto|]). apply Forall_nil_2.
  - destruct H as [H|H]; [done|].
    destruct (Z.eqb_spec (setmode st) 3) as [E3|E3]; [done|].
    eexists [Time; Printlog false (DriftPPM _); Sleep DEFAULT_MIN_SLEEP]. split.
    + unfold mbind, M_bind, do_call, printlog, do_call, mret, M_ret. simpl.
      by rewrite <- !app_assoc.
    + repeat (apply Forall_cons_2; [by eauto|]). apply Forall_nil_2.
Qed.

Lemma apply_correction_sleeptime st timeavg tr st' tr' :
  apply_correction env cfg st timeavg tr = Ret st' tr' ->
  sleeptime st' = if persistent cfg then minsleep cfg else sleeptime st.
Proof.
  unfold apply_correction. intros H.
  apply bind_inv in H as (r & tr1 & _ & H).
  apply bind_inv in H as (? & tr2 & _ & H).
  apply bind_inv in H as (? & tr3 & _ & H).
  destruct (persistent cfg).
  - by apply after_correction_sleeptime in H.
  - by apply mret_inv in H as [<- _].
Qed.

(** How a cycle that returns changes the interval. *)
Lemma conclude_sleeptime st c tr st' tr' :
  conclude env cfg st c tr = Ret st' tr' ->
  (goodtimes c = 0 /\ sleeptime st' = sleeptime st)
  \/ (goodtimes c <> 0 /\ changes_time cfg c = true
      /\ sleeptime st' = if persistent cfg then minsleep cfg else sleeptime st)
  \/ (goodtimes c <> 0 /\ changes_time cfg c = false
      /\ sleeptime st' = sleeptime (back_off cfg st)).
Proof.
  unfold conclude. intros H.
  destruct (Z.eqb_spec (goodtimes c) 0) as [Hg|Hg]; simpl in H.
  - left. split; [done|].
    rewrite bind_printlog in H. destruct (persistent cfg); [|done].
    rewrite bind_do_call in H. by apply mret_inv in H as [<- _].
  - right.
    apply bind_inv in H as (? & tr1 & _ & H).
    apply bind_inv in H as (st1 & tr2 & H1 & H).
    apply bind_inv in H as (? & tr3 & _ & H).
    apply mret_inv in H as [<- _].
    destruct (changes_time cfg c).
    + left. split_and!; [done..|]. by apply apply_correction_sleeptime in H1.
    + right. split_and!; [done..|]. by apply mret_inv in H1 as [<- _].
Qed.

(** Without inliers the cycle only reports it: a daemon sleeps [minsleep]
    and goes on, a single run exits with status 1. *)
Lemma conclude_no_inlier st c tr :
  goodtimes c = 0 ->
  conclude env cfg st c tr
  = if persistent cfg
    then Ret st (tr ++ [Printlog true NoServerSuitable; Sleep (minsleep cfg)])
    else Exited 1 (tr ++ [Printlog true NoServerSuitable]).
Proof.
  intros Hg. unfold conclude. rewrite Hg. simpl.
  rewrite bind_printlog. destruct (persistent cfg); [|done].
  rewrite bind_do_call. unfold mret, M_ret. by rewrite <- app_assoc.
Qed.

Lemma poll_cycle_inv st tr st' tr' :
  poll_cycle strptime gmtmktime env cfg st tr = Ret st' tr' ->
  exists col tr1 st1,
    collect_samples strptime gmtmktime env cfg st tr = Ret col tr1
    /\ conclude env cfg
         (State (setmode st) (sleeptime st) (starttime st) (drift st)
                (sorted (consensus_of (samples col) (validtimes col))))
         (consensus_of (samples col) (validtimes col)) tr1 = Ret st1 tr'
    /\ sleeptime st' = sleeptime st1.
Proof.
  unfold poll_cycle. intros H.
  apply bind_inv in H as (col & tr1 & Hcol & H).
  apply bind_inv in H as (st1 & tr2 & Hst1 & H).
  apply mret_inv in H as [<- <-]. eauto 10.
Qed.

End CycleFacts.

(** C7.  The pass over the servers makes no privileged call.  When the
    cycle then has no inlier ([goodtimes = 0]) nothing else is called but
    the log: a daemon or foreground run sleeps [minsleep] and goes on with
    [sleeptime] unchanged, any other run exits with status 1.  No call of
    the cycle changes the clock, whatever the mode. *)
Theorem no_inlier_no_correction {tm : Type} (strptime : string -> option tm)
    (gmtmktime : tm -> Z) (env : environment) (cfg : config) (st : state)
    (tr : list call) :
  exists col calls,
    collect_samples strptime gmtmktime env cfg st tr = Ret col (tr ++ calls)
    /\ Forall (fun c => privileged c = false /\ clock_mutation c = false) calls
    /\ (goodtimes (consensus_of (samples col) (validtimes col)) = 0 ->
        if persistent cfg
        then exists st',
               poll_cycle strptime gmtmktime env cfg st tr
               = Ret st' (tr ++ calls ++ [Printlog true NoServerSuitable;
                                          Sleep (minsleep cfg)])
               /\ sleeptime st' = sleeptime st
        else poll_cycle strptime gmtmktime env cfg st tr
             = Exited 1 (tr ++ calls ++ [Printlog true NoServerSuitable])).
Proof.
  destruct (collect_samples_returns strptime gmtmktime env cfg st tr)
    as (col & calls & E & Hq & _).
  exists col, calls. split_and!; [done| |].
  - eapply Forall_impl; [exact Hq|]. intros c Hc. split; [exact Hc|].
    destruct c; simpl in *; done.
  - intros Hg. unfold poll_cycle. rewrite (bind_ret _ _ _ _ _ E).
    destruct (persistent cfg) eqn:Ep.
    + eexists. split.
      * erewrite bind_ret.
        2:{ rewrite conclude_no_inlier by done. rewrite Ep. reflexivity. }
        unfold mret, M_ret. by rewrite <- app_assoc.
      * reflexivity.
    + erewrite bind_exited.
      2:{ rewrite conclude_no_inlier by done. rewrite Ep. reflexivity. }
      by rewrite <- app_assoc.
Qed.

Lemma no_inlier_no_correction_witness :
  main Libc.strptime Libc.gmtmktime
    (Samples.env_of Samples.ex_nodate Samples.now_2024 0) Samples.cfg_query 2
    Samples.timedelta0 1 []
  = Exited 1 [HTTPexchange "www.example.com" "80" 500000;
              Printlog true (NoTimestamp "www.example.com");
              HTTPexchange "www.example.com" "80" 500000;
              Printlog true (NoTimestamp "www.example.com");
              Printlog true NoServerSuitable].
Proof.
  destruct (no_inlier_no_correction Libc.strptime Libc.gmtmktime
              (Samples.env_of Samples.ex_nodate Samples.now_2024 0)
              Samples.cfg_query
              (State 2 DEFAULT_MIN_SLEEP 0 0 Samples.timedelta0) [])
    as (col & calls & E & _ & H).
  vm_compute in E. injection E as <- <-.
  specialize (H eq_refl). simpl in H.
  unfold main, one_shot. simpl.
  by rewrite (bind_exited _ _ _ _ _ H).
Defined.

(** The precision in the loop is the one given with [-p] when there are
    at least two servers; for a single server [main] clears it. *)
Lemma spread_precision (numservers precision : Z) :
  fst (spread numservers precision) = if numservers >? 1 then precision else 0.
Proof.
  unfold spread. destruct (numservers >? 1); [|done].
  by destruct (negb (precision =? 0) && (numservers >? 2)).
Qed.




Section SchedulerFacts.

Context {tm : Type}.
Variable strptime : string -> option tm.
Variable gmtmktime : tm -> Z.
Variable env : environment.
Variable cfg : config.

#[local] Abbreviation step := (cycle_step strptime gmtmktime env cfg).
#[local] Abbreviation reached := (cycles_from strptime gmtmktime env cfg).

(** What one cycle of a daemon or foreground run does to the interval. *)
Lemma cycle_step_sleeptime s c s' :
  persistent cfg = true ->
  step s c s' ->
  (goodtimes c = 0 /\ sleeptime (fst s') = sleeptime (fst s))
  \/ (goodtimes c <> 0 /\ sumtimes c <> 0
      /\ sleeptime (fst s') = minsleep cfg)
  \/ (goodtimes c <> 0 /\ sumtimes c = 0
      /\ sleeptime (fst s') = sleeptime (back_off cfg (fst s))).
Proof.
  intros Hp Hstep. destruct Hstep as [st tr col tr1 st' tr' Hcol Hcycle].
  apply poll_cycle_inv in Hcycle as (col' & tr1' & st1 & Hcol' & Hconcl & Hsl).
  rewrite Hcol in Hcol'. injection Hcol' as <- <-.
  apply conclude_sleeptime in Hconcl. simpl. rewrite Hsl.
  unfold changes_time in Hconcl. rewrite Hp in Hconcl. simpl in Hconcl.
  rewrite orb_false_r in Hconcl.
  destruct Hconcl as [[Hg E]|[(Hg & Hs & E)|(Hg & Hs & E)]].
  - left. done.
  - right; left. split_and!; [done| |done].
    destruct (Z.eqb_spec (sumtimes (consensus_of (samples col) (validtimes col))) 0);
      done.
  - right; right. split_and!; [done| |done].
    destruct (Z.eqb_spec (sumtimes (consensus_of (samples col) (validtimes col))) 0);
      done.
Qed.

Lemma back_off_sleeptime st :
  sleeptime (back_off cfg st)
  = if sleeptime st <? maxsleep cfg
    then wrap_int (2 * sleeptime st) else sleeptime st.
Proof.
  unfold back_off. simpl. rewrite Z.shiftl_mul_pow2 by lia.
  by rewrite Z.mul_comm.
Qed.

Section PowerOfTwo.

Variable k : Z.
Hypothesis Hpersistent : persistent cfg = true.
Hypothesis Hmin : 0 < minsleep cfg.
Hypothesis Hk : 0 <= k.
Hypothesis Hmax : maxsleep cfg = minsleep cfg * 2 ^ k.
Hypothesis Hint : maxsleep cfg <= INT_MAX.

#[local] Abbreviation doubled := (doubled cfg k).

Lemma doubled_bounds st :
  doubled st -> minsleep cfg <= sleeptime st <= maxsleep cfg.
Proof using All.
  intros (j & Hj & ->). rewrite Hmax.
  pose proof (Z.pow_le_mono_r 2 j k ltac:(lia) ltac:(lia)).
  pose proof (Z.pow_pos_nonneg 2 j ltac:(lia) ltac:(lia)).
  nia.
Qed.

Lemma doubled_back_off st :
  doubled st ->
  doubled (back_off cfg st)
  /\ (sleeptime st < maxsleep cfg ->
      sleeptime (back_off cfg st) = 2 * sleeptime st
      /\ 2 * sleeptime st <= maxsleep cfg)
  /\ (maxsleep cfg <= sleeptime st ->
      sleeptime (back_off cfg st) = sleeptime st).
Proof using All.
  intros (j & Hj & E).
  pose proof (back_off_sleeptime st) as Eb.
  destruct (Z.ltb_spec (sleeptime st) (maxsleep cfg)) as [Hlt|Hge].
  - assert (Hjk : j < k).
    { destruct (Z.lt_ge_cases j k) as [|Hge]; [done|].
      pose proof (Z.pow_le_mono_r 2 k j ltac:(lia) ltac:(lia)). nia. }
    pose proof (Z.pow_le_mono_r 2 (j + 1) k ltac:(lia) ltac:(lia)) as Hle.
    rewrite Z.pow_add_r, Z.pow_1_r in Hle by lia.
    pose proof (Z.pow_pos_nonneg 2 j ltac:(lia) ltac:(lia)).
    assert (Hw : wrap_int (2 * sleeptime st) = 2 * sleeptime st).
    { apply wrap_int_id. unfold is_int, INT_MIN, INT_MAX in *. nia. }
    rewrite Hw in Eb. split_and!.
    + exists (j + 1). split; [lia|].
      rewrite Eb, E, Z.pow_add_r, Z.pow_1_r by lia. lia.
    + intros _. split; [done|]. nia.
    + lia.
  - split_and!; [exists j; by rewrite Eb|lia|done].
Qed.

Lemma doubled_step s c s' : doubled (fst s) -> step s c s' -> doubled (fst s').
Proof using All.
  intros Hd Hstep.
  destruct (cycle_step_sleeptime _ _ _ Hpersistent Hstep)
    as [[_ E]|[(_ & _ & E)|(_ & _ & E)]].
  - destruct Hd as (j & Hj & Ej). exists j. by rewrite E.
  - exists 0. split; [lia|]. rewrite E. lia.
  - destruct (doubled_back_off _ Hd) as ((j & Hj & Ej) & _).
    exists j. by rewrite E.
Qed.

Lemma doubled_reached s0 s :
  sleeptime (fst s0) = minsleep cfg -> reached s0 s -> doubled (fst s).
Proof using All.
  intros H0 Hr. induction Hr as [|s c s' _ IH Hstep].
  - exists 0. split; [lia|]. rewrite H0. lia.
  - by eapply doubled_step.
Qed.

End PowerOfTwo.

(** The cycles of [poll_cycles] are steps of the relation. *)
Lemma step_reached s0 c s1 s : step s0 c s1 -> reached s1 s -> reached s0 s.
Proof.
  intros Hstep Hr. induction Hr as [|s c' s' _ IH Hstep'].
  - eapply cycles_more; [apply cycles_none|done].
  - by eapply cycles_more.
Qed.

Lemma poll_cycles_reached cycles st tr st' tr' :
  poll_cycles strptime gmtmktime env cfg cycles st tr = Ret st' tr' ->
  reached (st, tr) (st', tr').
Proof.
  induction cycles as [|cycles IH] in st, tr |- *; simpl; intros H.
  - apply mret_inv in H as [<- <-]. apply cycles_none.
  - apply bind_inv in H as (st1 & tr1 & Hcycle & H).
    destruct (collect_samples_returns strptime gmtmktime env cfg st tr)
      as (col & calls & Hcol & _).
    eapply step_reached; [|by apply IH].
    by eapply cycle_step_intro.
Qed.

End SchedulerFacts.

(** C1.  The interval leaves [[minsleep, maxsleep]]: with
    [-F -m 1000 -M 1500] a run whose first cycle finds the clock in step
    doubles the interval to 2000 seconds, beyond [maxsleep]; the test
    [sleeptime < maxsleep] before the doubling does not clamp the result. *)
Lemma sleeptime_exceeds_maxsleep :
  exists st tr,
    main Libc.strptime Libc.gmtmktime
      (Samples.env_of Samples.ex_synced Samples.now_2024 0)
      Samples.cfg_m1000_M1500 0 Samples.timedelta0 1 [] = Ret st tr
    /\ tr = [HTTPexchange "www.example.com" "80" 500000; Sleep 1000]
    /\ sleeptime st = 2000
    /\ ~ (minsleep Samples.cfg_m1000_M1500 <= sleeptime st
          <= maxsleep Samples.cfg_m1000_M1500).
Proof.
  eexists _, _. split_and!.
  - vm_compute. reflexivity.
  - reflexivity.
  - reflexivity.
  - vm_compute. intros [_ H]. by apply H.
Qed.

(** X24.  In a daemon or foreground run with [minsleep > 0] and
    [maxsleep = minsleep * 2^k] (as for the defaults 1800 and 115200), the
    interval stays within [[minsleep, maxsleep]] over every sequence of poll
    cycles.  A cycle leaves it unchanged, or doubles it, which happens only
    after a cycle with inliers whose sum is zero and never leads beyond
    [maxsleep], or sets it to [minsleep], which happens only after a cycle
    with inliers whose sum is not zero. *)
Theorem sleeptime_within_bounds {tm : Type} (strptime : string -> option tm)
    (gmtmktime : tm -> Z) (env : environment) (cfg : config) (k : Z)
    (s0 s : state * list call) :
  persistent cfg = true ->
  0 < minsleep cfg -> 0 <= k -> maxsleep cfg = minsleep cfg * 2 ^ k ->
  maxsleep cfg <= INT_MAX ->
  sleeptime (fst s0) = minsleep cfg ->
  cycles_from strptime gmtmktime env cfg s0 s ->
  minsleep cfg <= sleeptime (fst s) <= maxsleep cfg
  /\ forall c s',
       cycle_step strptime gmtmktime env cfg s c s' ->
       minsleep cfg <= sleeptime (fst s') <= maxsleep cfg
       /\ (sleeptime (fst s') = sleeptime (fst s)
           \/ (sleeptime (fst s') = 2 * sleeptime (fst s)
               /\ goodtimes c <> 0 /\ sumtimes c = 0)
           \/ (sleeptime (fst s') = minsleep cfg
               /\ goodtimes c <> 0 /\ sumtimes c <> 0)).
Proof.
  intros Hp Hmin Hk Hmax Hint H0 Hr.
  pose proof (doubled_reached strptime gmtmktime env cfg k Hp Hmin Hk Hmax
                Hint s0 s H0 Hr) as Hd.
  pose proof (doubled_bounds strptime gmtmktime env cfg k Hp Hmin Hk Hmax Hint)
    as Hbounds.
  split; [by apply Hbounds|].
  intros c s' Hstep. split.
  - apply Hbounds.
    exact (doubled_step strptime gmtmktime env cfg k Hp Hmin Hk Hmax Hint
             s c s' Hd Hstep).
  - destruct (cycle_step_sleeptime _ _ _ _ _ _ _ Hp Hstep)
      as [[_ E]|[(Hg & Hs & E)|(Hg & Hs & E)]].
    + by left.
    + right; right. by split_and!.
    + destruct (doubled_back_off strptime gmtmktime env cfg k Hp Hmin Hk Hmax
                  Hint _ Hd) as (_ & Hlt & Hge).
      destruct (Z.lt_ge_cases (sleeptime (fst s)) (maxsleep cfg)) as [Hc|Hc].
      * right; left. rewrite E. destruct (Hlt Hc) as [-> _].
        by split_and!.
      * left. rewrite E. by apply Hge.
Qed.

Lemma sleeptime_within_bounds_witness :
  exists s,
    cycles_from Libc.strptime Libc.gmtmktime
      (Samples.env_of Samples.ex_synced Samples.now_2024 0)
      Samples.cfg_foreground
      (State 1 DEFAULT_MIN_SLEEP 0 0 Samples.timedelta0, []) s
    /\ sleeptime (fst s) = 3600
    /\ DEFAULT_MIN_SLEEP <= sleeptime (fst s) <= DEFAULT_MAX_SLEEP.
Proof.
  assert (Hs : exists s,
             cycles_from Libc.strptime Libc.gmtmktime
               (Samples.env_of Samples.ex_synced Samples.now_2024 0)
               Samples.cfg_foreground
               (State 1 DEFAULT_MIN_SLEEP 0 0 Samples.timedelta0, []) s
             /\ sleeptime (fst s) = 3600).
  { eexists. split.
    - eapply cycles_more; [apply cycles_none|].
      eapply cycle_step_intro; vm_compute; reflexivity.
    - reflexivity. }
  destruct Hs as (s & Hr & Hs). exists s. split_and!; [done..| |].
  all: destruct (sleeptime_within_bounds Libc.strptime Libc.gmtmktime
                   (Samples.env_of Samples.ex_synced Samples.now_2024 0)
                   Samples.cfg_foreground 6
                   (State 1 DEFAULT_MIN_SLEEP 0 0 Samples.timedelta0, []) s)
         as [[Hlo Hhi] _];
    [reflexivity | reflexivity | vm_compute; congruence | reflexivity
     | vm_compute; congruence | reflexivity | exact Hr | done].
Defined.

(** The same bound for [main]: whatever a daemon or foreground run has
    done after any number of cycles, its interval is within the bounds. *)
Corollary main_sleeptime_bounds {tm : Type} (strptime : string -> option tm)
    (gmtmktime : tm -> Z) (env : environment) (cfg : config) (k : Z)
    (setmode : Z) (timedelta : list Z) (cycles : nat) (tr tr' : list call)
    (st : state) :
  persistent cfg = true ->
  0 < minsleep cfg -> 0 <= k -> maxsleep cfg = minsleep cfg * 2 ^ k ->
  maxsleep cfg <= INT_MAX ->
  main strptime gmtmktime env cfg setmode timedelta cycles tr = Ret st tr' ->
  minsleep cfg <= sleeptime st <= maxsleep cfg.
Proof.
  intros Hp Hmin Hk Hmax Hint. unfold main.
  destruct (numservers cfg =? 0); [done|].
  destruct (numservers cfg >? MAX_HTTP_HOSTS); [done|].
  destruct (spread (numservers cfg) (precision cfg)) as [precision' nap'].
  unfold persistent in *. simpl. rewrite Hp. intros H.
  apply poll_cycles_reached in H.
  eapply doubled_reached in H; [|done..].
  by eapply doubled_bounds in H.
Qed.

(** ** The cycle as a whole *)

Section WholeCycle.

Context {tm : Type}.
Variable strptime : string -> option tm.
Variable gmtmktime : tm -> Z.
Variable env : environment.
Variable cfg : config.
Hypothesis Hoptions : valid_options cfg.

(** The samples of a cycle fit into [timedelta]. *)
Lemma collected_fits c :
  collected cfg timedelta_size (List.length (servers cfg) * bursts cfg) c ->
  (validtimes c <= List.length (samples c))%nat.
Proof using Hoptions.
  intros (Hlen & Hb & _). rewrite Hlen.
  destruct Hoptions as ((Hn0 & Hn) & Hburst & _).
  unfold bursts, numservers, MAX_HTTP_HOSTS in *.
  change timedelta_size with 255%nat.
  assert (Z.to_nat (1 `max` (Z.of_nat (List.length (servers cfg))
                             * burstmode cfg)) <= 15)%nat
    by (destruct Hburst as [-> | ->]; lia).
  nia.
Qed.

(** With the sanity limit on, no admitted sample is [INT_MAX]. *)
Lemma admitted_below_int_max x :
  timelimit cfg <> NO_TIME_LIMIT -> admitted cfg x = true -> x <> INT_MAX.
Proof using Hoptions.
  destruct Hoptions as (_ & _ & Hint).
  unfold admitted, is_int in *. intros Hlimit Ha.
  destruct (Z.eqb_spec (timelimit cfg) NO_TIME_LIMIT); [done|]. simpl in Ha.
  apply andb_prop in Ha as [Ha _]. apply Z.ltb_lt in Ha. lia.
Qed.

(** The consensus properties for the samples that a cycle collects: the
    median is the middle entry of the sorted samples, and with the sanity
    limit on the sum of the inliers is within [goodtimes] of [goodtimes]
    times the median. *)
Corollary cycle_consensus (st : state) (tr : list call) :
  List.length (timedelta st) = timedelta_size ->
  exists col calls,
    collect_samples strptime gmtmktime env cfg st tr = Ret col (tr ++ calls)
    /\ let c := consensus_of (samples col) (validtimes col) in
       (goodtimes c <> 0 <-> validtimes col <> 0%nat)
       /\ (goodtimes c <> 0 ->
           StronglySorted Z.le (take (validtimes col) (sorted c))
           /\ take (validtimes col) (sorted c)
              ≡ₚ take (validtimes col) (samples col)
           /\ take (validtimes col) (sorted c) !! (validtimes col / 2)%nat
              = Some (mean c))
       /\ (goodtimes c <> 0 -> timelimit cfg <> NO_TIME_LIMIT ->
           (mean c - 1) * goodtimes c <= sumtimes c
           <= (mean c + 1) * goodtimes c).
Proof using Hoptions.
  intros Hlen.
  destruct (collect_samples_returns strptime gmtmktime env cfg st tr)
    as (col & calls & E & _ & Hcol).
  rewrite Hlen in Hcol.
  exists col, calls. split; [done|].
  pose proof (collected_fits col Hcol) as Hfit.
  destruct Hcol as (_ & _ & Hall).
  assert (Hiff : goodtimes (consensus_of (samples col) (validtimes col)) <> 0
                 <-> validtimes col <> 0%nat).
  { split.
    - intros Hg Hv. rewrite Hv in Hg.
      by destruct (goodtimes_zero (samples col)).
    - intros Hv. pose proof (goodtimes_positive (samples col) (validtimes col)
                              ltac:(lia)). lia. }
  split_and!; [done| |].
  - intros Hg. apply Hiff in Hg.
    rewrite sorted_consensus_of.
    destruct (insertsort_spec (samples col) (validtimes col) Hfit)
      as (p & Ep & Hs & Hp).
    assert (Hpl : List.length p = validtimes col)
      by (rewrite Hp, length_take; lia).
    split_and!; [| |apply median_lookup; lia].
    + by rewrite Ep, take_app_length'.
    + by rewrite Ep, take_app_length'.
  - intros Hg Hlimit.
    destruct (inliers_sum_bounds (samples col) (validtimes col)) as [Hpos Hb];
      [done| | |done|done].
    + eapply Forall_impl; [exact Hall|]. by intros x [? _].
    + intros [_ Hmax]. rewrite Forall_forall in Hall.
      destruct (Hall _ Hmax) as [_ Ha].
      by apply (admitted_below_int_max INT_MAX).
Qed.

End WholeCycle.

(** * Further properties *)

(** ** [splithostport] *)

Module HostPortFacts.
Import HostPort.

Lemma list_ascii_app (s1 s2 : string) :
  list_ascii_of_string (s1 ++ s2)%string
  = list_ascii_of_string s1 ++ list_ascii_of_string s2.
Proof. induction s1 as [|c s1 IH]; simpl; [done|by rewrite IH]. Qed.

Lemma eqb_NUL_false (x : ascii) (l : list ascii) :
  NUL ∉ x :: l -> Ascii.eqb x NUL = false /\ NUL ∉ l.
Proof.
  intros H. split.
  - apply Ascii.eqb_neq. intros ->. apply H. constructor.
  - intros Hl. apply H. by constructor.
Qed.

Lemma eqb_other_false (c x : ascii) (l : list ascii) :
  c ∉ x :: l -> Ascii.eqb x c = false /\ c ∉ l.
Proof.
  intros H. split.
  - apply Ascii.eqb_neq. intros ->. apply H. constructor.
  - intros Hl. apply H. by constructor.
Qed.

Lemma cstring_app (l rest : list ascii) :
  NUL ∉ l -> cstring (l ++ NUL :: rest) = l.
Proof.
  induction l as [|x l IH]; intros H; simpl; [done|].
  destruct (eqb_NUL_false _ _ H) as [-> H']. by rewrite IH.
Qed.

Lemma strchr_absent (l rest : list ascii) (c : ascii) :
  NUL ∉ l -> c ∉ l -> strchr (l ++ NUL :: rest) c = None.
Proof.
  induction l as [|x l IH]; intros Hn Hc; simpl; [done|].
  destruct (eqb_NUL_false _ _ Hn) as [-> Hn'].
  destruct (eqb_other_false _ _ _ Hc) as [-> Hc']. by rewrite IH.
Qed.

Lemma strchr_first (l1 l2 : list ascii) (c : ascii) :
  c <> NUL -> NUL ∉ l1 -> c ∉ l1 ->
  strchr (l1 ++ c :: l2) c = Some (List.length l1).
Proof.
  intros Hc. induction l1 as [|x l1 IH]; intros Hn Hl; simpl.
  - rewrite (proj2 (Ascii.eqb_neq c NUL) Hc), Ascii.eqb_refl. done.
  - destruct (eqb_NUL_false _ _ Hn) as [-> Hn'].
    destruct (eqb_other_false _ _ _ Hl) as [-> Hl']. by rewrite IH.
Qed.

Lemma strrchr_absent (l rest : list ascii) (c : ascii) :
  NUL ∉ l -> c ∉ l -> strrchr (l ++ NUL :: rest) c = None.
Proof.
  induction l as [|x l IH]; intros Hn Hc; simpl; [done|].
  destruct (eqb_NUL_false _ _ Hn) as [-> Hn'].
  destruct (eqb_other_false _ _ _ Hc) as [-> Hc']. by rewrite IH.
Qed.

Lemma strrchr_last (l1 l2 rest : list ascii) (c : ascii) :
  c <> NUL -> NUL ∉ l1 -> NUL ∉ l2 -> c ∉ l2 ->
  strrchr (l1 ++ c :: l2 ++ NUL :: rest) c = Some (List.length l1).
Proof.
  intros Hc. induction l1 as [|x l1 IH]; intros Hn1 Hn2 Hl2; simpl.
  - rewrite (proj2 (Ascii.eqb_neq c NUL) Hc), Ascii.eqb_refl.
    by rewrite strrchr_absent.
  - destruct (eqb_NUL_false _ _ Hn1) as [-> Hn1']. by rewrite IH.
Qed.

(** What [strrchr] finds is a place of the string that holds [c]. *)
Lemma strrchr_found (s : list ascii) (c : ascii) (n : nat) :
  strrchr s c = Some n -> cstring s !! n = Some c.
Proof.
  induction s as [|x s IH] in n |- *; simpl; [done|].
  destruct (Ascii.eqb x NUL); [done|].
  destruct (strrchr s c) as [m|] eqn:E.
  - intros [= <-]. simpl. by apply IH.
  - destruct (Ascii.eqb_spec x c) as [->|]; [|done]. by intros [= <-].
Qed.

Lemma starts_with_inv (p s : list ascii) :
  starts_with p s = true -> exists rest, s = p ++ rest.
Proof.
  induction p as [|c p IH] in s |- *; simpl.
  - intros _. by exists s.
  - destruct s as [|x s]; [done|]. intros H.
    apply andb_prop in H as [H Hs]. apply andb_prop in H as [_ Hx].
    apply Ascii.eqb_eq in Hx as ->.
    destruct (IH _ Hs) as [rest ->]. by exists rest.
Qed.

Lemma cut_middle (l1 l2 : list ascii) (x : ascii) :
  cut (l1 ++ x :: l2) (List.length l1) = l1 ++ NUL :: l2.
Proof.
  unfold cut. rewrite insert_app_r_alt by lia.
  by rewrite Nat.sub_diag.
Qed.

Lemma string_at_app (l1 l2 rest : list ascii) :
  NUL ∉ l2 ->
  string_at (l1 ++ l2 ++ NUL :: rest) (List.length l1) = string_of_list_ascii l2.
Proof.
  intros H. unfold string_at. by rewrite drop_app_length, cstring_app.
Qed.

Lemma strchr_none (l : list ascii) (c : ascii) :
  c ∉ l -> strchr (l ++ [NUL]) c = None.
Proof.
  induction l as [|x l IH]; intros Hc; simpl; [done|].
  destruct (Ascii.eqb x NUL); [done|].
  destruct (eqb_other_false _ _ _ Hc) as [-> Hc']. by rewrite IH.
Qed.

Lemma strrchr_none (l : list ascii) (c : ascii) :
  c ∉ l -> strrchr (l ++ [NUL]) c = None.
Proof.
  induction l as [|x l IH]; intros Hc; simpl; [done|].
  destruct (Ascii.eqb x NUL); [done|].
  destruct (eqb_other_false _ _ _ Hc) as [-> Hc']. by rewrite IH.
Qed.

Lemma starts_with_app (p l : list ascii) :
  NUL ∉ p -> starts_with p (p ++ l) = true.
Proof.
  induction p as [|c p IH]; intros H; simpl; [done|].
  destruct (eqb_NUL_false _ _ H) as [-> H']. rewrite Ascii.eqb_refl. by apply IH.
Qed.

(** A string that holds the characters of a scheme prefix holds its colon. *)
Lemma starts_with_elem (p s : list ascii) (c : ascii) :
  starts_with p s = true -> c ∈ p -> c ∈ s.
Proof.
  intros H Hc. destruct (starts_with_inv _ _ H) as [rest ->].
  apply elem_of_app. by left.
Qed.

(** A string [h:p] whose [p] has no slash does not start with a scheme,
    whose colon is followed by a slash. *)
Lemma not_scheme (p lh lp : list ascii) (k : nat) :
  ":"%char ∉ lh -> "/"%char ∉ lp -> ":"%char ∉ take k p ->
  p !! k = Some ":"%char -> p !! S k = Some "/"%char ->
  starts_with p (lh ++ ":"%char :: lp ++ [NUL]) = false.
Proof.
  intros Hh Hp Hk Ek Ek'. destruct (starts_with _ _) eqn:E; [|done]. exfalso.
  destruct (starts_with_inv _ _ E) as [rest Hs].
  pose proof (lookup_lt_Some _ _ _ Ek').
  destruct (Nat.lt_trichotomy (List.length lh) k) as [Hlt|[Heq|Hgt]].
  - apply Hk. apply list_elem_of_lookup. exists (List.length lh).
    rewrite lookup_take_lt by done.
    pose proof (list_lookup_middle lh (lp ++ [NUL]) ":"%char _ eq_refl) as Hm.
    rewrite Hs, lookup_app_l in Hm by lia. done.
  - subst k.
    assert (Hm : (lh ++ ":"%char :: lp ++ [NUL]) !! S (List.length lh)
                 = Some "/"%char)
      by (rewrite Hs, lookup_app_l by lia; done).
    rewrite lookup_app_r in Hm by lia.
    replace (S (List.length lh) - List.length lh)%nat with 1%nat in Hm by lia.
    simpl in Hm. destruct lp as [|x lp]; simpl in Hm.
    + discriminate Hm.
    + injection Hm as ->. apply Hp. constructor.
  - apply Hh. apply list_elem_of_lookup. exists k.
    assert (Hm : (lh ++ ":"%char :: lp ++ [NUL]) !! k = Some ":"%char)
      by (rewrite Hs, lookup_app_l by lia; done).
    by rewrite lookup_app_l in Hm by lia.
Qed.

(** X1.  A name without a colon, and without a pair of brackets, is left as
    it is, and so is the port. *)
Theorem splithostport_plain (host port : string) :
  lacks ":" host -> lacks "[" host \/ lacks "]" host ->
  splithostport host port = (host, port).
Proof.
  unfold lacks, splithostport. intros Hc Hb.
  set (l := list_ascii_of_string host) in *.
  destruct (starts_with (list_ascii_of_string "https://") (l ++ [NUL])) eqn:E1.
  { exfalso. apply (starts_with_elem _ _ ":"%char) in E1.
    - apply elem_of_app in E1 as [?|E1]; [done|].
      apply list_elem_of_singleton in E1. discriminate E1.
    - simpl. repeat (first [by constructor | apply list_elem_of_further]). }
  destruct (starts_with (list_ascii_of_string "http://") (l ++ [NUL])) eqn:E2.
  { exfalso. apply (starts_with_elem _ _ ":"%char) in E2.
    - apply elem_of_app in E2 as [?|E2]; [done|].
      apply list_elem_of_singleton in E2. discriminate E2.
    - simpl. repeat (first [by constructor | apply list_elem_of_further]). }
  rewrite (strrchr_none l ":") by done.
  destruct Hb as [Hb|Hb].
  - by rewrite (strchr_none l "[") by done.
  - rewrite (strrchr_none l "]") by done. by destruct (strchr _ _).
Qed.

Lemma string_list_id (s : string) :
  string_of_list_ascii (list_ascii_of_string s) = s.
Proof. apply string_of_list_ascii_of_string. Qed.

Lemma not_in_cons (c x : ascii) (l : list ascii) :
  c <> x -> c ∉ l -> c ∉ x :: l.
Proof. intros Hx Hl H. apply elem_of_cons in H as [?|?]; done. Qed.

Lemma splithostport_plain_witness :
  splithostport "www.example.com" "80" = ("www.example.com", "80")%string.
Proof.
  apply (splithostport_plain "www.example.com" "80"); [|left];
    unfold lacks; simpl;
    repeat (apply not_in_cons; [done|]); by apply not_elem_of_nil.
Defined.

Lemma not_in_app (c : ascii) (l1 l2 : list ascii) :
  c ∉ l1 -> c ∉ l2 -> c ∉ l1 ++ l2.
Proof. intros H1 H2 H. apply elem_of_app in H as [?|?]; done. Qed.

(** X2.  [host:port], a name and a port around the only colon, is split at
    the colon. *)
Theorem splithostport_port (h p port : string) :
  c_string h -> c_string p ->
  lacks ":" h -> lacks ":" p -> lacks "[" h -> lacks "[" p -> lacks "/" p ->
  splithostport (h ++ ":" ++ p)%string port = (h, p).
Proof.
  unfold c_string, lacks, splithostport. intros Hnh Hnp Hch Hcp Hbh Hbp Hsp.
  rewrite !list_ascii_app. simpl list_ascii_of_string at 2 5.
  set (lh := list_ascii_of_string h) in *.
  set (lp := list_ascii_of_string p) in *.
  rewrite <- !app_assoc. simpl app.
  rewrite (not_scheme _ lh lp 5) by (done || (simpl; repeat (apply not_in_cons; [done|]); by apply not_elem_of_nil)).
  rewrite (not_scheme _ lh lp 4) by (done || (simpl; repeat (apply not_in_cons; [done|]); by apply not_elem_of_nil)).
  assert (Hlb : strchr (lh ++ ":"%char :: lp ++ [NUL]) "[" = None).
  { change (lh ++ ":"%char :: lp ++ [NUL]) with (lh ++ (":"%char :: lp) ++ [NUL]).
    rewrite app_assoc. apply strchr_none.
    apply not_in_app; [done|]. by apply not_in_cons. }
  rewrite Hlb.
  rewrite (strchr_first lh _ ":") by done.
  rewrite (strrchr_last lh lp [] ":") by done.
  rewrite bool_decide_eq_true_2 by done.
  rewrite cut_middle. f_equal.
  - unfold string_at. rewrite drop_0, cstring_app by done. apply string_list_id.
  - change (lh ++ NUL :: lp ++ [NUL]) with (lh ++ [NUL] ++ lp ++ [NUL]).
    rewrite app_assoc.
    replace (S (List.length lh)) with (List.length (lh ++ [NUL]))
      by (rewrite length_app; simpl; lia).
    rewrite (string_at_app _ lp []) by done. apply string_list_id.
Qed.

Lemma splithostport_port_witness :
  splithostport "www.example.com:8080" "80" = ("www.example.com", "8080")%string.
Proof.
  apply (splithostport_port "www.example.com" "8080" "80");
    unfold c_string, lacks; simpl;
    repeat (apply not_in_cons; [done|]); by apply not_elem_of_nil.
Defined.

Ltac no_char :=
  unfold c_string, lacks; simpl;
  repeat (apply not_in_cons; [done|]); by apply not_elem_of_nil.

(** After a scheme prefix [ls] the string is cut at its last colon and the
    host starts behind the prefix. *)
Lemma url_host (ls lh lt : list ascii) (n : nat) :
  n = List.length ls ->
  NUL ∉ ls -> NUL ∉ lh -> NUL ∉ lt -> ":"%char ∉ lt ->
  let mem := ls ++ lh ++ ":"%char :: lt ++ [NUL] in
  exists rc, strrchr mem ":" = Some rc
             /\ string_at (cut mem rc) n = string_of_list_ascii lh.
Proof.
  intros -> Hs Hh Ht Hc mem. exists (List.length (ls ++ lh)). subst mem.
  rewrite app_assoc. split.
  - apply (strrchr_last (ls ++ lh) lt []); [done|by apply not_in_app|done..].
  - rewrite cut_middle, <- app_assoc. by apply string_at_app.
Qed.

(** The same when the only colon is the one of the prefix [l1 ++ ":" ++ l2]. *)
Lemma url_host_only (l1 l2 lh : list ascii) (n : nat) :
  n = List.length (l1 ++ ":"%char :: l2) ->
  NUL ∉ l1 -> NUL ∉ l2 -> NUL ∉ lh -> ":"%char ∉ l2 -> ":"%char ∉ lh ->
  let mem := (l1 ++ ":"%char :: l2) ++ lh ++ [NUL] in
  exists rc, strrchr mem ":" = Some rc
             /\ string_at (cut mem rc) n = string_of_list_ascii lh.
Proof.
  intros -> H1 H2 Hh Hc2 Hch mem. exists (List.length l1). subst mem.
  rewrite <- !app_assoc. simpl app. split.
  - change (l1 ++ ":"%char :: l2 ++ lh ++ [NUL])
      with (l1 ++ ":"%char :: l2 ++ (lh ++ [NUL])).
    rewrite (app_assoc l2 lh [NUL]).
    apply (strrchr_last l1 (l2 ++ lh) []); [done|done| |]; by apply not_in_app.
  - rewrite cut_middle.
    change (l1 ++ NUL :: l2 ++ lh ++ [NUL])
      with (l1 ++ [NUL] ++ l2 ++ lh ++ [NUL]).
    rewrite !app_assoc, <- (app_assoc _ lh [NUL]).
    replace (List.length (l1 ++ ":"%char :: l2))
      with (List.length (((l1 ++ [NUL]) ++ l2)))
      by (rewrite !length_app; simpl; lia).
    change (lh ++ [NUL]) with (lh ++ NUL :: []).
    by apply string_at_app.
Qed.

(** X3.  Behind [https://] or [http://] the host is what stands before the
    last colon, or all of it when there is no further colon, and the port is
    443 or 80: a port written in the URL is not used. *)
Theorem splithostport_scheme (h t port : string) :
  c_string h -> c_string t -> lacks ":" t ->
  splithostport ("https://" ++ h ++ ":" ++ t)%string port = (h, "443"%string)
  /\ splithostport ("http://" ++ h ++ ":" ++ t)%string port = (h, "80"%string)
  /\ (lacks ":" h ->
      splithostport ("https://" ++ h)%string port = (h, "443"%string)
      /\ splithostport ("http://" ++ h)%string port = (h, "80"%string)).
Proof.
  unfold c_string, lacks. intros Hh Ht Hc.
  set (lh := list_ascii_of_string h) in *.
  set (lt := list_ascii_of_string t) in *.
  split_and!.
  - unfold splithostport. rewrite !list_ascii_app.
    fold lh lt. change (list_ascii_of_string ":") with [":"%char].
    set (ls := list_ascii_of_string "https://").
    rewrite <- !app_assoc. simpl ([":"%char] ++ _).
    rewrite starts_with_app by (subst ls; no_char).
    destruct (url_host ls lh lt 8) as (rc & -> & ->);
      [done|subst ls; no_char|done..|].
    subst lh. by rewrite string_list_id.
  - unfold splithostport. rewrite !list_ascii_app.
    fold lh lt. change (list_ascii_of_string ":") with [":"%char].
    match goal with
    | |- context [starts_with (list_ascii_of_string "https://") ?m] =>
        assert (E : starts_with (list_ascii_of_string "https://") m = false)
          by done;
        rewrite E; clear E
    end.
    set (ls := list_ascii_of_string "http://").
    rewrite <- !app_assoc. simpl ([":"%char] ++ _).
    rewrite starts_with_app by (subst ls; no_char).
    destruct (url_host ls lh lt 7) as (rc & -> & ->);
      [done|subst ls; no_char|done..|].
    subst lh. by rewrite string_list_id.
  - intros Hch. split.
    + unfold splithostport. rewrite !list_ascii_app. fold lh.
      set (ls := list_ascii_of_string "https://").
      rewrite <- !app_assoc.
      rewrite starts_with_app by (subst ls; no_char).
      destruct (url_host_only (list_ascii_of_string "https")
                  (list_ascii_of_string "//") lh 8) as (rc & E1 & E2);
        [done|no_char|no_char|done|no_char|done|].
      simpl in E1, E2. subst ls. simpl. rewrite E1, E2.
      subst lh. by rewrite string_list_id.
    + unfold splithostport. rewrite !list_ascii_app. fold lh.
      rewrite <- !app_assoc.
      match goal with
      | |- context [starts_with (list_ascii_of_string "https://") ?m] =>
          assert (E : starts_with (list_ascii_of_string "https://") m = false)
            by done;
          rewrite E; clear E
      end.
      set (ls := list_ascii_of_string "http://").
      rewrite starts_with_app by (subst ls; no_char).
      destruct (url_host_only (list_ascii_of_string "http")
                  (list_ascii_of_string "//") lh 7) as (rc & E1 & E2);
        [done|no_char|no_char|done|no_char|done|].
      simpl in E1, E2. subst ls. simpl. rewrite E1, E2.
      subst lh. by rewrite string_list_id.
Qed.

Lemma splithostport_scheme_witness :
  splithostport "https://www.example.com:8443" "80"
  = ("www.example.com", "443")%string
  /\ splithostport "http://www.example.com" "8080"
     = ("www.example.com", "80")%string.
Proof.
  destruct (splithostport_scheme "www.example.com" "8443" "80")
    as (H1 & _ & _); [no_char..|].
  destruct (splithostport_scheme "www.example.com" "" "8080")
    as (_ & _ & H2); [no_char..|].
  split; [exact H1|]. apply H2. no_char.
Defined.

(** X4.  An address in brackets is taken out of them; a port behind the
    closing bracket is the port, without one the port stays. *)
Theorem splithostport_brackets (a p port : string) :
  c_string a ->
  splithostport ("[" ++ a ++ "]")%string port = (a, port)
  /\ (c_string p -> lacks "]" p -> lacks ":" p ->
      splithostport ("[" ++ a ++ "]:" ++ p)%string port = (a, p)).
Proof.
  unfold c_string, lacks. intros Ha.
  set (la := list_ascii_of_string a) in *.
  assert (Hna : NUL ∉ "["%char :: la) by (by apply not_in_cons).
  split.
  - assert (Hmem : list_ascii_of_string ("[" ++ a ++ "]")%string ++ [NUL]
                   = ("["%char :: la) ++ "]"%char :: [] ++ [NUL]).
    { rewrite !list_ascii_app. fold la. simpl. by rewrite <- app_assoc. }
    unfold splithostport. cbv zeta. rewrite Hmem.
    set (mem := ("["%char :: la) ++ "]"%char :: [] ++ [NUL]).
    assert (Hrb : strrchr mem "]" = Some (S (List.length la)))
      by (apply (strrchr_last ("["%char :: la) [] []); try done;
          apply not_elem_of_nil).
    assert (Hrc : ptr_lt (Some (S (List.length la))) (strrchr mem ":") = false).
    { destruct (strrchr mem ":") as [r|] eqn:E; [|done]. simpl.
      apply strrchr_found in E.
      replace mem with ((("["%char :: la) ++ ["]"%char]) ++ NUL :: []) in E
        by (subst mem; by rewrite <- app_assoc).
      rewrite cstring_app in E by (apply not_in_app; [done|no_char]).
      apply Nat.ltb_ge.
      destruct (decide (r = S (List.length la))) as [->|Hr].
      - rewrite (list_lookup_middle ("["%char :: la) [] "]"%char) in E by done.
        discriminate E.
      - pose proof (lookup_lt_Some _ _ _ E) as Hlt.
        rewrite length_app in Hlt. simpl in Hlt. lia. }
    assert (Hsw : forall l, starts_with ("h"%char :: l) mem = false) by done.
    assert (Hlb : strchr mem "[" = Some 0%nat) by done.
    simpl list_ascii_of_string. rewrite !Hsw, Hlb, Hrb, Hrc.
    subst mem. rewrite cut_middle. f_equal.
    change ("["%char :: la) with (["["%char] ++ la). rewrite <- app_assoc.
    rewrite (string_at_app ["["%char] la _ Ha). apply string_list_id.
  - intros Hp Hbp Hcp.
    set (lp := list_ascii_of_string p) in *.
    assert (Hmem : list_ascii_of_string ("[" ++ a ++ "]:" ++ p)%string ++ [NUL]
                   = ("["%char :: la) ++ "]"%char :: (":"%char :: lp) ++ [NUL]).
    { rewrite !list_ascii_app. fold la lp. simpl. by rewrite <- !app_assoc. }
    unfold splithostport. cbv zeta. rewrite Hmem.
    set (mem := ("["%char :: la) ++ "]"%char :: (":"%char :: lp) ++ [NUL]).
    assert (Hrb : strrchr mem "]" = Some (S (List.length la)))
      by (apply (strrchr_last ("["%char :: la) (":"%char :: lp) []);
          try done; by apply not_in_cons).
    assert (Hrc : strrchr mem ":" = Some (S (S (List.length la)))).
    { subst mem.
      replace (("["%char :: la) ++ "]"%char :: (":"%char :: lp) ++ [NUL])
        with ((("["%char :: la) ++ ["]"%char]) ++ ":"%char :: lp ++ [NUL])
        by (by rewrite <- app_assoc).
      rewrite (strrchr_last _ lp []); try done.
      - rewrite length_app. simpl. do 2 f_equal. lia.
      - apply not_in_app; [done|no_char]. }
    assert (Hsw : forall l, starts_with ("h"%char :: l) mem = false) by done.
    assert (Hlb : strchr mem "[" = Some 0%nat) by done.
    simpl list_ascii_of_string. rewrite !Hsw, Hlb, Hrb, Hrc.
    simpl ptr_lt. rewrite (proj2 (Nat.ltb_lt _ _)) by lia.
    subst mem. rewrite cut_middle. f_equal.
    + change ("["%char :: la) with (["["%char] ++ la). rewrite <- app_assoc.
      rewrite (string_at_app ["["%char] la _ Ha). apply string_list_id.
    + replace (("["%char :: la) ++ NUL :: (":"%char :: lp) ++ [NUL])
        with ((("["%char :: la) ++ [NUL; ":"%char]) ++ lp ++ [NUL])
        by (by rewrite <- app_assoc).
      replace (S (S (S (List.length la))))
        with (List.length (("["%char :: la) ++ [NUL; ":"%char]))
        by (rewrite length_app; simpl; lia).
      rewrite (string_at_app _ lp [] Hp). apply string_list_id.
Qed.

Lemma splithostport_brackets_witness :
  splithostport "[2001:db8::1]" "80" = ("2001:db8::1", "80")%string
  /\ splithostport "[2001:db8::1]:8080" "80" = ("2001:db8::1", "8080")%string.
Proof.
  destruct (splithostport_brackets "2001:db8::1" "8080" "80") as [H1 H2];
    [no_char|].
  split; [exact H1|]. apply H2; no_char.
Defined.

(** X5.  A name with two or more colons, without an opening bracket and
    without a slash after its first colon (so it is no [http://] or
    [https://] URL), such as an IPv6 address written without brackets, is
    left whole, with the port as it was. *)
Theorem splithostport_colons (a b c port : string) :
  c_string a -> c_string b -> c_string c ->
  lacks ":" a -> lacks ":" c ->
  lacks "[" a -> lacks "[" b -> lacks "[" c ->
  lacks "/" b -> lacks "/" c ->
  splithostport (a ++ ":" ++ b ++ ":" ++ c)%string port
  = ((a ++ ":" ++ b ++ ":" ++ c)%string, port).
Proof.
  unfold c_string, lacks. intros Hna Hnb Hnc Hca Hcc Hba Hbb Hbc Hsb Hsc.
  unfold splithostport. cbv zeta.
  assert (Hmem : list_ascii_of_string (a ++ ":" ++ b ++ ":" ++ c)%string ++ [NUL]
                 = list_ascii_of_string a
                   ++ ":"%char :: (list_ascii_of_string b
                                   ++ ":"%char :: list_ascii_of_string c)
                   ++ [NUL]).
  { rewrite !list_ascii_app. simpl. symmetry.
    apply (app_assoc (list_ascii_of_string a) (":"%char :: _) [NUL]). }
  rewrite Hmem.
  set (la := list_ascii_of_string a) in *.
  set (lb := list_ascii_of_string b) in *.
  set (lc := list_ascii_of_string c) in *.
  assert (Hs : "/"%char ∉ lb ++ ":"%char :: lc)
    by (apply not_in_app; [done|by apply not_in_cons]).
  rewrite (not_scheme _ la _ 5) by (done || (simpl; no_char)).
  rewrite (not_scheme _ la _ 4) by (done || (simpl; no_char)).
  assert (Hlb : strchr (la ++ ":"%char :: (lb ++ ":"%char :: lc) ++ [NUL]) "["
                = None).
  { change (la ++ ":"%char :: (lb ++ ":"%char :: lc) ++ [NUL])
      with (la ++ (":"%char :: lb ++ ":"%char :: lc) ++ [NUL]).
    rewrite app_assoc. apply strchr_none.
    apply not_in_app; [done|]. apply not_in_cons; [done|].
    apply not_in_app; [done|by apply not_in_cons]. }
  rewrite Hlb.
  rewrite (strchr_first la _ ":") by done.
  assert (Hrc : strrchr (la ++ ":"%char :: (lb ++ ":"%char :: lc) ++ [NUL]) ":"
                = Some (S (List.length la + List.length lb))).
  { replace (la ++ ":"%char :: (lb ++ ":"%char :: lc) ++ [NUL])
      with ((la ++ ":"%char :: lb) ++ ":"%char :: lc ++ [NUL])
      by (by rewrite <- !app_assoc).
    rewrite (strrchr_last _ lc []); try done.
    - rewrite length_app. simpl. f_equal. lia.
    - apply not_in_app; [done|by apply not_in_cons]. }
  rewrite Hrc.
  rewrite bool_decide_eq_false_2; [done|].
  intros [= E]. lia.
Qed.

Lemma splithostport_colons_witness :
  splithostport "2001:db8::1" "80" = ("2001:db8::1", "80")%string.
Proof.
  apply (splithostport_colons "2001" "db8:" "1" "80"); no_char.
Defined.

End HostPortFacts.

(** ** [gmtmktime] *)

(** X6.  [gmtmktime] converts with [mktime] under an empty [TZ], whatever
    the caller's time zone, and hands the environment back as it was.  Only
    when [TZ] was set and [strdup] fails is [TZ] lost: it ends up unset. *)
Theorem gmtmktime_restores {tm : Type} (mktime : option string -> tm -> Z)
    (strdup_ok : bool) (environ : gmap string string) (t : tm) :
  fst (Timezone.gmtmktime mktime strdup_ok environ t)
  = mktime (Some ""%string) t
  /\ (strdup_ok = true \/ environ !! "TZ"%string = None ->
      snd (Timezone.gmtmktime mktime strdup_ok environ t) = environ)
  /\ (strdup_ok = false ->
      snd (Timezone.gmtmktime mktime strdup_ok environ t)
      = delete "TZ"%string environ).
Proof.
  unfold Timezone.gmtmktime. simpl. rewrite lookup_insert_eq.
  split_and!; [done| |].
  - intros H. destruct (environ !! "TZ"%string) as [v|] eqn:E.
    + destruct H as [->|H]; [|done].
      rewrite insert_insert_eq. by apply insert_id.
    + rewrite delete_insert_eq. by apply delete_id.
  - intros ->. destruct (environ !! "TZ"%string); by rewrite delete_insert_eq.
Qed.

(** * Monitors of the trace *)

Section MonitorFacts.

Context {St : Type}.
Variable step : nat -> St -> call -> option St.

Lemma run_monitor_app pos s calls1 calls2 :
  run_monitor step pos s (calls1 ++ calls2)
  = match run_monitor step pos s calls1 with
    | Some s' => run_monitor step (pos + List.length calls1) s' calls2
    | None => None
    end.
Proof.
  induction calls1 as [|c calls1 IH] in pos, s |- *; simpl.
  - by rewrite Nat.add_0_r.
  - destruct (step pos s c) as [s'|]; [|done].
    rewrite IH. by rewrite Nat.add_succ_r.
Qed.

(** An accepted run accepts each call from the state its prefix leads to. *)
Lemma run_monitor_lookup pos s calls s' i c :
  run_monitor step pos s calls = Some s' ->
  calls !! i = Some c ->
  exists si, run_monitor step pos s (take i calls) = Some si
             /\ is_Some (step (pos + i) si c).
Proof.
  induction calls as [|c0 calls IH] in pos, s, i |- *; intros Hrun Hi; [done|].
  simpl in Hrun. destruct (step pos s c0) as [s1|] eqn:E; [|done].
  destruct i as [|i]; simpl in Hi.
  - simplify_eq. exists s. rewrite Nat.add_0_r, E. eauto.
  - destruct (IH _ _ _ Hrun Hi) as (si & H1 & H2).
    exists si. simpl. rewrite E, Nat.add_succ_r. done.
Qed.

Lemma monitored_ret {A} (fail : Z -> St -> Prop) (pre : St -> Prop)
    (post : A -> St -> Prop) (a : A) :
  (forall s, pre s -> post a s) -> monitored step fail pre post (mret a).
Proof.
  intros H tr s Hs. exists [], s. rewrite app_nil_r.
  split_and!; [done|done| |done]. intros a' E. injection E as <-. auto.
Qed.

Lemma monitored_exit {A} (fail : Z -> St -> Prop) (pre : St -> Prop)
    (post : A -> St -> Prop) status :
  (forall s, pre s -> fail status s) ->
  monitored step fail pre post (exit status).
Proof.
  intros H tr s Hs. exists [], s. rewrite app_nil_r.
  split_and!; [done|done|done|]. intros status' E. injection E as <-. auto.
Qed.

Lemma monitored_bind {A B} (fail : Z -> St -> Prop) (pre : St -> Prop)
    (mid : A -> St -> Prop) (post : B -> St -> Prop) (m : M A) (k : A -> M B) :
  monitored step fail pre mid m ->
  (forall a, monitored step fail (mid a) post (k a)) ->
  monitored step fail pre post (m ≫= k).
Proof.
  intros Hm Hk tr s Hs.
  destruct (Hm tr s Hs) as (calls1 & s1 & Htr & Hrun & Hpost & Hfail).
  unfold mbind, M_bind. destruct (m tr) as [a tr1|status tr1]; simpl in Htr; subst tr1.
  - destruct (Hk a (tr ++ calls1) s1 (Hpost a eq_refl))
      as (calls2 & s2 & Htr2 & Hrun2 & Hpost2 & Hfail2).
    exists (calls1 ++ calls2), s2. rewrite app_assoc.
    split_and!; [done| |done|done].
    rewrite run_monitor_app, Hrun. by rewrite length_app in Hrun2.
  - exists calls1, s1. split_and!; [done|done|done|].
    intros status' E. apply Hfail. by simplify_eq.
Qed.

Lemma monitored_weaken {A} (fail fail' : Z -> St -> Prop) (pre pre' : St -> Prop)
    (post post' : A -> St -> Prop) (m : M A) :
  monitored step fail pre post m ->
  (forall s, pre' s -> pre s) ->
  (forall a s, post a s -> post' a s) ->
  (forall status s, fail status s -> fail' status s) ->
  monitored step fail' pre' post' m.
Proof.
  intros Hm Hpre Hpost Hfail tr s Hs.
  destruct (Hm tr s (Hpre s Hs)) as (calls & s' & H1 & H2 & H3 & H4).
  exists calls, s'. split_and!; [done|done|eauto|eauto].
Qed.

Lemma monitored_call {A} (fail : Z -> St -> Prop) (pre : St -> Prop)
    (post : A -> St -> Prop) (c : call) (answer : nat -> A) :
  (forall pos s, pre s -> exists s', step pos s c = Some s' /\ post (answer pos) s') ->
  monitored step fail pre post (do_call c answer).
Proof.
  intros H tr s Hs. destruct (H (List.length tr) s Hs) as (s' & E & Hpost).
  exists [c], s'. simpl. rewrite E. split_and!; [done|done| |done].
  intros a Ea. unfold do_call in Ea. by simplify_eq.
Qed.

Lemma monitored_when (fail : Z -> St -> Prop) (pre : St -> Prop) (b : bool)
    (m : M unit) :
  monitored step fail pre (fun _ => pre) m ->
  monitored step fail pre (fun _ => pre) (when_ b m).
Proof. destruct b; [done|]. intros _. by apply monitored_ret. Qed.

(** A computation that returns and makes quiet calls only, under a monitor
    that keeps [inv] over quiet calls. *)
Lemma monitored_returns {A} (fail : Z -> St -> Prop) (inv : St -> Prop)
    (m : M A) (P : A -> Prop) :
  (forall pos s c, quiet c -> inv s -> exists s', step pos s c = Some s' /\ inv s') ->
  returns m P ->
  monitored step fail inv (fun a s => P a /\ inv s) m.
Proof.
  intros Hq Hm tr s Hs. destruct (Hm tr) as (a & calls & E & Hcalls & Ha).
  assert (exists s', run_monitor step (List.length tr) s calls = Some s' /\ inv s')
    as (s' & Hrun & Hs').
  { clear E. generalize (List.length tr) as pos.
    induction Hcalls as [|c calls Hc _ IH] in s, Hs |- *; intros pos; simpl; [eauto|].
    destruct (Hq pos s c Hc Hs) as (s1 & -> & Hs1). by apply IH. }
  exists calls, s'. rewrite E. split_and!; [done|done| |done].
  intros a' Ea. by simplify_eq.
Qed.

End MonitorFacts.

(** * The privilege protocol *)

(** [setclock] by the value of [setmode]. *)
Lemma setclock_cases env timedelta setmode :
  setclock env timedelta setmode
  = if (timedelta =? 0)%float then printlog false NoCorrectionNeeded;; mret 0
    else if setmode =? 0 then printlog false (Offset timedelta);; mret 0
    else if (setmode =? 1) || (setmode =? 3) then setclock_adjust env timedelta
    else if setmode =? 2 then setclock_set env timedelta
    else mret (-1).
Proof.
  unfold setclock. destruct ((timedelta =? 0)%float); [done|].
  destruct setmode as [|p|p]; [done| |done].
  destruct p as [[p|p|]|[p|p|]|]; done.
Qed.

Section ProtocolFacts.

Context {tm : Type}.
Variable strptime : string -> option tm.
Variable gmtmktime : tm -> Z.
Variable env : environment.
Variable cfg : config.
Variable permit : call -> bool.
Variable unprivileged : Z -> bool.
Hypothesis unprivileged_sw_uid : unprivileged (sw_uid cfg) = true.

#[local] Abbreviation proto := (protocol env permit unprivileged).
#[local] Abbreviation anyway := (fun (_ : Z) (_ : protocol_state) => True).
#[local] Abbreviation safe := (fun s : protocol_state => unprivileged (euid s) = true).

Lemma protocol_other (pre post : protocol_state -> Prop) {A} (c : call)
    (answer : nat -> A) :
  privileged c = false ->
  (forall h p w, c <> HTTPexchange h p w) ->
  (forall s, pre s -> post (Protocol false (euid s))) ->
  monitored proto anyway pre (fun _ => post) (do_call c answer).
Proof.
  intros Hc Hn H. apply monitored_call. intros pos s Hs.
  exists (Protocol false (euid s)). split; [|auto].
  destruct c as [| | | | | | | |?|h p w]; try done. by destruct (Hn h p w).
Qed.

Lemma protocol_printlog (pre post : protocol_state -> Prop) is_error m :
  (forall s, pre s -> post (Protocol false (euid s))) ->
  monitored proto anyway pre (fun _ => post) (printlog is_error m).
Proof. by apply protocol_other. Qed.

(** [swuid] returns only as the user it asked for. *)
Lemma protocol_swuid id :
  monitored proto anyway (fun _ => True)
    (fun _ s => rooted s = (id =? 0) /\ euid s = id) (swuid env id).
Proof.
  unfold swuid.
  apply monitored_bind
    with (mid := fun r s => r = 0 -> rooted s = (id =? 0) /\ euid s = id).
  - apply monitored_call. intros pos s _. eexists. split; [done|].
    simpl. intros E. rewrite E. simpl. by rewrite andb_true_r.
  - intros r. destruct (Z.eqb_spec r 0) as [->|Hr].
    + apply monitored_ret. auto.
    + eapply monitored_bind; [by apply (protocol_printlog _ (fun _ => True))|].
      intros []. by apply monitored_exit.
Qed.

Lemma protocol_setclock_adjust timedelta :
  (forall tv, permit (Adjtime tv) = true) ->
  monitored proto anyway (fun _ => True) (fun _ _ => True) (setclock_adjust env timedelta).
Proof.
  intros Hp. unfold setclock_adjust.
  eapply monitored_bind; [by apply (protocol_printlog _ (fun _ => True))|].
  intros []. eapply monitored_bind; [apply protocol_swuid|].
  intros []. apply monitored_call. intros pos s [Hr _]. simpl.
  rewrite Hr, Hp. simpl. eauto.
Qed.

Lemma protocol_setclock_set timedelta :
  (forall tv, permit (Settimeofday tv) = true) ->
  monitored proto anyway (fun _ => True) (fun _ _ => True) (setclock_set env timedelta).
Proof.
  intros Hp. unfold setclock_set.
  eapply monitored_bind; [by apply (protocol_printlog _ (fun _ => True))|].
  intros []. eapply monitored_bind;
    [by apply (protocol_other (fun _ => True) (fun _ => True))|].
  intros timeofday.
  eapply monitored_bind; [by apply (protocol_printlog _ (fun _ => True))|].
  intros []. eapply monitored_bind; [apply protocol_swuid|].
  intros []. apply monitored_call. intros pos s [Hr _]. simpl.
  rewrite Hr, Hp. simpl. eauto.
Qed.

Lemma permitted_at_mode mode starttime c :
  permitted_at mode starttime c = true -> permitted mode c = true.
Proof. destruct c; simpl; try done. by intros [? _]%andb_true_iff. Qed.

Lemma protocol_setclock timedelta mode starttime :
  (forall c, permitted_at mode starttime c = true -> permit c = true) ->
  monitored proto anyway (fun _ => True) (fun _ _ => True) (setclock env timedelta mode).
Proof.
  intros Hp. rewrite setclock_cases.
  destruct ((timedelta =? 0)%float).
  { eapply monitored_bind; [by apply (protocol_printlog _ (fun _ => True))|].
    intros []. by apply monitored_ret. }
  destruct (mode =? 0).
  { eapply monitored_bind; [by apply (protocol_printlog _ (fun _ => True))|].
    intros []. by apply monitored_ret. }
  destruct ((mode =? 1) || (mode =? 3)) eqn:E13.
  { apply protocol_setclock_adjust. intros tv. by apply Hp. }
  destruct (mode =? 2) eqn:E2.
  { apply protocol_setclock_set. intros tv. by apply Hp. }
  by apply monitored_ret.
Qed.

Lemma protocol_htpdate_adjtimex drift :
  (forall freq, permit (AdjtimexFreq freq) = true) ->
  monitored proto anyway (fun _ => True) (fun _ _ => True) (htpdate_adjtimex env drift).
Proof.
  intros Hp. unfold htpdate_adjtimex.
  eapply monitored_bind;
    [by apply (protocol_other (fun _ => True) (fun _ => True))|].
  intros tmx_freq.
  eapply monitored_bind; [by apply (protocol_printlog _ (fun _ => True))|].
  intros []. eapply monitored_bind; [apply protocol_swuid|].
  intros []. apply monitored_call. intros pos s [Hr _]. simpl.
  rewrite Hr, Hp. simpl. eauto.
Qed.

Lemma protocol_quiet pos s c :
  quiet c -> safe s -> exists s', proto pos s c = Some s' /\ safe s'.
Proof.
  intros Hc Hs. destruct c; try done; simpl; [eauto..|].
  rewrite Hs. eauto.
Qed.

Lemma protocol_after_correction st timeavg :
  (forall c, permitted_at (setmode st) (starttime st) c = true ->
             permit c = true) ->
  monitored proto anyway safe (fun st' s => safe s /\ setmode st' = setmode st)
    (after_correction env cfg st timeavg).
Proof.
  intros Hp. unfold after_correction.
  apply monitored_bind
    with (mid := fun st' s => safe s /\ setmode st' = setmode st).
  - destruct (negb (starttime st =? 0)) eqn:E0.
    + eapply monitored_bind; [by apply (protocol_other safe safe)|].
      intros now. eapply monitored_bind; [by apply (protocol_printlog safe safe)|].
      intros []. destruct (setmode st =? 3) eqn:E3.
      * eapply monitored_bind; [by apply (protocol_other safe (fun _ => True))|].
        intros now'. eapply monitored_bind.
        { apply protocol_htpdate_adjtimex. intros freq. apply Hp. simpl.
          by rewrite E3, E0. }
        intros r. eapply monitored_bind.
        { apply (monitored_when _ _ (fun _ => True)).
          by apply (protocol_printlog _ (fun _ => True)). }
        intros []. eapply monitored_bind; [apply protocol_swuid|].
        intros []. apply monitored_ret. intros s [_ Hs]. simpl.
        by rewrite Hs.
      * by apply monitored_ret.
    + eapply monitored_bind; [by apply (protocol_other safe safe)|].
      intros now. by apply monitored_ret.
  - intros st'. eapply monitored_bind.
    { apply (protocol_other (fun s => safe s /\ setmode st' = setmode st)
                            (fun s => safe s /\ setmode st' = setmode st)); done. }
    intros []. apply monitored_ret. intros s [Hs Hm]. done.
Qed.

Lemma protocol_apply_correction st timeavg :
  (forall c, permitted_at (setmode st) (starttime st) c = true ->
             permit c = true) ->
  monitored proto anyway (fun _ => True) (fun st' s => safe s /\ setmode st' = setmode st)
    (apply_correction env cfg st timeavg).
Proof.
  intros Hp. unfold apply_correction.
  eapply monitored_bind; [by apply (protocol_setclock _ _ (starttime st))|].
  intros r. eapply monitored_bind.
  { apply (monitored_when _ _ (fun _ => True)).
    by apply (protocol_printlog _ (fun _ => True)). }
  intros []. eapply monitored_bind; [apply protocol_swuid|].
  intros []. destruct (persistent cfg).
  - eapply monitored_weaken; [by apply protocol_after_correction| |done|done].
    intros s [_ Hs]. simpl. by rewrite Hs.
  - apply monitored_ret. intros s [_ Hs]. simpl. by rewrite Hs.
Qed.

Lemma protocol_conclude st c :
  (forall c, permitted_at (setmode st) (starttime st) c = true ->
             permit c = true) ->
  monitored proto anyway safe (fun st' s => safe s /\ setmode st' = setmode st)
    (conclude env cfg st c).
Proof.
  intros Hp. unfold conclude. destruct (negb (goodtimes c =? 0)).
  - eapply monitored_bind.
    { apply (monitored_when _ _ safe). by apply (protocol_printlog safe safe). }
    intros []. apply monitored_bind
      with (mid := fun st' s => safe s /\ setmode st' = setmode st).
    { destruct (changes_time cfg c).
      - eapply monitored_weaken; [by apply protocol_apply_correction|done|done|done].
      - by apply monitored_ret. }
    intros st'. eapply monitored_bind.
    { apply (monitored_when _ _ (fun s => safe s /\ setmode st' = setmode st)).
      by apply (protocol_printlog _ (fun s => safe s /\ setmode st' = setmode st)). }
    intros []. by apply monitored_ret.
  - eapply monitored_bind; [by apply (protocol_printlog safe safe)|].
    intros []. destruct (persistent cfg).
    + eapply monitored_bind; [by apply (protocol_other safe safe)|].
      intros []. by apply monitored_ret.
    + by apply monitored_exit.
Qed.

Lemma later_mode_eq mode :
  (if negb (mode =? 3) then 1 else mode) = later_mode mode.
Proof. unfold later_mode. by destruct (Z.eqb_spec mode 3) as [->|]. Qed.

Lemma later_mode_idemp mode : later_mode (later_mode mode) = later_mode mode.
Proof. unfold later_mode. by destruct (mode =? 3). Qed.

Lemma protocol_poll_cycle st :
  (forall c, permitted_at (setmode st) (starttime st) c = true ->
             permit c = true) ->
  monitored proto anyway safe
    (fun st' s => safe s /\ setmode st' = later_mode (setmode st))
    (poll_cycle strptime gmtmktime env cfg st).
Proof.
  intros Hp. unfold poll_cycle.
  eapply monitored_bind.
  { apply monitored_returns; [apply protocol_quiet|].
    apply collect_samples_returns. }
  intros col. eapply monitored_bind.
  { eapply monitored_weaken; [by apply protocol_conclude|by intros s [_ Hs]|done|done]. }
  intros st'. apply monitored_ret. intros s [Hs Hm]. simpl in *.
  by rewrite later_mode_eq, Hm.
Qed.

Lemma protocol_poll_cycles cycles st :
  (forall c, permitted_at (setmode st) (starttime st) c = true ->
             permit c = true) ->
  (forall c, permitted (later_mode (setmode st)) c = true -> permit c = true) ->
  monitored proto anyway safe (fun _ s => safe s)
    (poll_cycles strptime gmtmktime env cfg cycles st).
Proof.
  induction cycles as [|cycles IH] in st |- *; intros Hp Hp'; simpl.
  - by apply monitored_ret.
  - eapply monitored_bind; [by apply protocol_poll_cycle|].
    intros st'. simpl.
    intros tr s [Hs Hm].
    destruct (IH st') with (tr := tr) (s := s) as (calls & s' & H1 & H2 & H3 & H4);
      [|by rewrite Hm, later_mode_idemp|done|].
    { intros c Hc. apply Hp'. rewrite <- Hm. by eapply permitted_at_mode. }
    exists calls, s'. split_and!; [done|done|eauto|done].
Qed.

Lemma protocol_one_shot st :
  (forall c, permitted_at (setmode st) (starttime st) c = true ->
             permit c = true) ->
  monitored proto anyway safe (fun _ s => safe s)
    (one_shot strptime gmtmktime env cfg st).
Proof.
  intros Hp. unfold one_shot.
  eapply monitored_bind; [by apply protocol_poll_cycle|].
  intros st'. by apply monitored_exit.
Qed.

End ProtocolFacts.

Lemma protocol_main {tm : Type} (strptime : string -> option tm)
    (gmtmktime : tm -> Z) env cfg permit unprivileged setmode timedelta cycles :
  unprivileged (sw_uid cfg) = true ->
  (forall c, permitted_at (first_mode cfg setmode) 0 c = true ->
             permit c = true) ->
  (persistent cfg = true ->
   forall c, permitted (later_mode (first_mode cfg setmode)) c = true ->
             permit c = true) ->
  monitored (protocol env permit unprivileged) (fun _ _ => True)
    (fun s => unprivileged (euid s) = true)
    (fun _ s => unprivileged (euid s) = true)
    (main strptime gmtmktime env cfg setmode timedelta cycles).
Proof.
  intros Hu Hp Hp'. unfold main.
  destruct (numservers cfg =? 0); [by apply monitored_exit|].
  destruct (numservers cfg >? MAX_HTTP_HOSTS); [by apply monitored_exit|].
  destruct (spread _ _) as [precision nap].
  unfold first_mode, persistent in *. simpl.
  destruct (daemonize cfg || foreground cfg).
  - apply protocol_poll_cycles; simpl; auto.
  - apply protocol_one_shot; simpl; auto.
Qed.

(** The calls of a monitored computation are accepted. *)
Lemma monitored_calls {St A : Type} (step : nat -> St -> call -> option St)
    (fail : Z -> St -> Prop) (pre : St -> Prop) (post : A -> St -> Prop)
    (m : M A) tr s :
  monitored step fail pre post m -> pre s ->
  exists s', run_monitor step (List.length tr) s (calls_of m tr) = Some s'
             /\ (forall a tr', m tr = Ret a tr' -> post a s')
             /\ (forall status tr', m tr = Exited status tr' -> fail status s').
Proof.
  intros Hm Hs. destruct (Hm tr s Hs) as (calls & s' & E & Hrun & Hpost & Hfail).
  unfold calls_of. rewrite E, drop_app_length. exists s'. split_and!; [done| |].
  - intros a tr' Ea. apply Hpost. rewrite Ea in E. simpl in E. by subst.
  - intros a tr' Ea. apply Hfail. rewrite Ea in E. simpl in E. by subst.
Qed.

(** What the protocol asks of a call that changes the clock. *)
Lemma protocol_mutation env permit unprivileged pos s calls s' i c :
  run_monitor (protocol env permit unprivileged) pos s calls = Some s' ->
  calls !! i = Some c ->
  clock_mutation c = true ->
  permit c = true
  /\ match i with
     | O => rooted s = true
     | S j => calls !! j = Some (Seteuid 0) /\ os_seteuid env (pos + j) = 0
     end.
Proof.
  induction calls as [|c0 calls IH] in pos, s, i |- *; intros Hrun Hi Hc; [done|].
  simpl in Hrun.
  destruct (protocol env permit unprivileged pos s c0) as [s1|] eqn:E; [|done].
  destruct i as [|i]; simpl in Hi.
  - simplify_eq. unfold protocol in E.
    destruct c; try done; destruct (rooted s); destruct (permit _); done.
  - destruct (IH _ _ _ Hrun Hi Hc) as [Hp Hi']. split; [done|].
    destruct i as [|i].
    + rewrite Nat.add_0_r. simpl.
      assert (rooted s1 = true -> c0 = Seteuid 0 /\ os_seteuid env pos = 0) as Hr.
      { unfold protocol in E.
        destruct c0; simpl in E;
          repeat match type of E with
                 | (if ?b then _ else _) = _ => destruct b eqn:?
                 end; simplify_eq; simpl; try done.
        intros [H1 H2]%andb_true_iff. split; [f_equal|]; lia. }
      destruct (Hr Hi') as [-> ?]. done.
    + simpl. by rewrite Nat.add_succ_r.
Qed.

(** The effective user that the protocol tracks. *)
Lemma protocol_euid env permit unprivileged pos s calls s' :
  run_monitor (protocol env permit unprivileged) pos s calls = Some s' ->
  euid s' = euid_after env pos (euid s) calls.
Proof.
  induction calls as [|c calls IH] in pos, s |- *; simpl; intros Hrun.
  - by simplify_eq.
  - destruct (protocol env permit unprivileged pos s c) as [s1|] eqn:E; [|done].
    rewrite (IH _ _ Hrun). f_equal. unfold protocol in E.
    destruct c; simpl in E;
      repeat match type of E with
             | (if ?b then _ else _) = _ => destruct b eqn:?
             end; by simplify_eq.
Qed.

(** X7.  Whatever the environment answers and whatever the options are,
    [main] changes the clock ([adjtime], [settimeofday] or writing the
    frequency with [adjtimex]) only in the call that follows a
    [seteuid(0)] which succeeded: when [seteuid(0)] fails, or was not just
    called, the clock is left alone. *)
Theorem clock_change_as_root {tm : Type} (strptime : string -> option tm)
    (gmtmktime : tm -> Z) (env : environment) (cfg : config) (setmode : Z)
    (timedelta : list Z) (cycles : nat) (tr : list call) (i : nat) (c : call) :
  calls_of (main strptime gmtmktime env cfg setmode timedelta cycles) tr !! i
  = Some c ->
  clock_mutation c = true ->
  exists j,
    i = S j
    /\ calls_of (main strptime gmtmktime env cfg setmode timedelta cycles) tr !! j
       = Some (Seteuid 0)
    /\ os_seteuid env (List.length tr + j) = 0.
Proof.
  intros Hi Hc.
  destruct (monitored_calls _ _ _ _ _ tr (Protocol false 0)
              (protocol_main strptime gmtmktime env cfg (fun _ => true)
                 (fun _ => true) setmode timedelta cycles eq_refl
                 (fun _ _ => eq_refl) (fun _ _ _ => eq_refl)) eq_refl)
    as (s' & Hrun & _ & _).
  destruct (protocol_mutation _ _ _ _ _ _ _ _ _ Hrun Hi Hc) as [_ H].
  destruct i as [|j]; [done|]. by exists j.
Qed.

Lemma clock_change_as_root_witness :
  exists j,
    6%nat = S j
    /\ calls_of (main Libc.strptime Libc.gmtmktime Runs.env_behind
                   Runs.cfg_nobody 2 Samples.timedelta0 2) [] !! j
       = Some (Seteuid 0)
    /\ os_seteuid Runs.env_behind (List.length (@nil call) + j) = 0.
Proof.
  apply (clock_change_as_root Libc.strptime Libc.gmtmktime Runs.env_behind
           Runs.cfg_nobody 2 Samples.timedelta0 2 [] 6
           (Settimeofday (Timeval 1704067215 0))).
  - vm_compute. reflexivity.
  - reflexivity.
Defined.

(** X8.  A run of [main] that starts as the user [sw_uid] makes every
    network exchange as that user: root, taken for a change of the clock,
    has been given up again before the next server is asked. *)
Theorem exchange_unprivileged {tm : Type} (strptime : string -> option tm)
    (gmtmktime : tm -> Z) (env : environment) (cfg : config) (setmode : Z)
    (timedelta : list Z) (cycles : nat) (tr : list call) (i : nat)
    (host port : string) (when : Z) :
  calls_of (main strptime gmtmktime env cfg setmode timedelta cycles) tr !! i
  = Some (HTTPexchange host port when) ->
  euid_after env (List.length tr) (sw_uid cfg)
    (take i (calls_of (main strptime gmtmktime env cfg setmode timedelta cycles) tr))
  = sw_uid cfg.
Proof.
  intros Hi.
  destruct (monitored_calls _ _ _ _ _ tr (Protocol false (sw_uid cfg))
              (protocol_main strptime gmtmktime env cfg (fun _ => true)
                 (fun e => e =? sw_uid cfg) setmode timedelta cycles
                 (Z.eqb_refl _) (fun _ _ => eq_refl) (fun _ _ _ => eq_refl))
              (Z.eqb_refl _))
    as (s' & Hrun & _ & _).
  destruct (run_monitor_lookup _ _ _ _ _ _ _ Hrun Hi) as (si & Hsi & [s1 Hs1]).
  pose proof (protocol_euid _ _ _ _ _ _ _ Hsi) as He. simpl in He, Hs1.
  rewrite <- He. destruct (euid si =? sw_uid cfg) eqn:E; [lia|done].
Qed.

Lemma exchange_unprivileged_witness :
  euid_after Runs.env_behind (List.length (@nil call)) (sw_uid Runs.cfg_nobody)
    (take 10 (calls_of (main Libc.strptime Libc.gmtmktime Runs.env_behind
                          Runs.cfg_nobody 2 Samples.timedelta0 2) []))
  = sw_uid Runs.cfg_nobody.
Proof.
  apply (exchange_unprivileged Libc.strptime Libc.gmtmktime Runs.env_behind
           Runs.cfg_nobody 2 Samples.timedelta0 2 [] 10 "www.example.com"
           "80" 500000).
  vm_compute. reflexivity.
Defined.

(** The first cycle of [main], and the single cycle of a run that is
    neither daemon nor in the foreground, under the protocol. *)
Lemma protocol_first_cycle {tm : Type} (strptime : string -> option tm)
    (gmtmktime : tm -> Z) env cfg permit unprivileged setmode timedelta cycles :
  persistent cfg = false \/ cycles = 1%nat ->
  unprivileged (sw_uid cfg) = true ->
  (forall c, permitted_at (first_mode cfg setmode) 0 c = true ->
             permit c = true) ->
  monitored (protocol env permit unprivileged) (fun _ _ => True)
    (fun s => unprivileged (euid s) = true)
    (fun _ s => unprivileged (euid s) = true)
    (main strptime gmtmktime env cfg setmode timedelta cycles).
Proof.
  intros Hone Hu Hp. unfold main.
  destruct (numservers cfg =? 0); [by apply monitored_exit|].
  destruct (numservers cfg >? MAX_HTTP_HOSTS); [by apply monitored_exit|].
  destruct (spread _ _) as [precision nap].
  unfold first_mode, persistent in *. simpl.
  destruct (daemonize cfg || foreground cfg).
  - destruct Hone as [?| ->]; [done|]. simpl.
    eapply monitored_bind; [apply protocol_poll_cycle; simpl; auto|].
    intros st'. apply monitored_ret. by intros s [Hs _].
  - apply protocol_one_shot; simpl; auto.
Qed.

(** X9.  The mode at the start of a poll cycle decides which calls on the
    clock the cycle makes: wherever a call stands in the cycle,
    [settimeofday] takes mode 2, [adjtime] takes mode 1 or 3, and writing
    the frequency takes mode 3 and a start time that is set; in mode 0
    the cycle makes none of them.  For the first cycle of [main], a run of
    one cycle, the mode is the one of the command line (1 for a daemon or
    foreground run without [-a], [-s] or [-x]) and no start time is set,
    so that this cycle never writes the frequency. *)
Theorem clock_change_by_mode {tm : Type} (strptime : string -> option tm)
    (gmtmktime : tm -> Z) (env : environment) (cfg : config) (st : state)
    (setmode0 : Z) (timedelta0 : list Z) (cycles : nat) (tr : list call)
    (i : nat) (c : call) :
  (calls_of (poll_cycle strptime gmtmktime env cfg st) tr !! i = Some c ->
   permitted_at (setmode st) (starttime st) c = true)
  /\ (persistent cfg = false \/ cycles = 1%nat ->
      calls_of (main strptime gmtmktime env cfg setmode0 timedelta0 cycles) tr
      !! i = Some c ->
      permitted_at (first_mode cfg setmode0) 0 c = true).
Proof.
  split.
  - intros Hi.
    destruct (clock_mutation c) eqn:Hc; [|by destruct c].
    destruct (monitored_calls _ _ _ _ _ tr (Protocol false 0)
                (protocol_poll_cycle strptime gmtmktime env cfg
                   (permitted_at (setmode st) (starttime st)) (fun _ => true)
                   eq_refl st (fun _ H => H)) eq_refl)
      as (s' & Hrun & _ & _).
    by destruct (protocol_mutation _ _ _ _ _ _ _ _ _ Hrun Hi Hc).
  - intros Hone Hi.
    destruct (clock_mutation c) eqn:Hc; [|by destruct c].
    destruct (monitored_calls _ _ _ _ _ tr (Protocol false 0)
                (protocol_first_cycle strptime gmtmktime env cfg
                   (permitted_at (first_mode cfg setmode0) 0) (fun _ => true)
                   setmode0 timedelta0 cycles Hone eq_refl (fun _ H => H))
                eq_refl)
      as (s' & Hrun & _ & _).
    by destruct (protocol_mutation _ _ _ _ _ _ _ _ _ Hrun Hi Hc).
Qed.

Lemma clock_change_by_mode_witness :
  calls_of (main Libc.strptime Libc.gmtmktime Runs.env_behind Runs.cfg_nobody
              2 Samples.timedelta0 1) [] !! 6%nat
  = Some (Settimeofday (Timeval 1704067215 0))
  /\ permitted_at (first_mode Runs.cfg_nobody 2) 0
       (Settimeofday (Timeval 1704067215 0)) = true
  /\ first_mode Runs.cfg_nobody 2 = 2.
Proof.
  assert (Hi : calls_of (main Libc.strptime Libc.gmtmktime Runs.env_behind
                           Runs.cfg_nobody 2 Samples.timedelta0 1) [] !! 6%nat
               = Some (Settimeofday (Timeval 1704067215 0)))
    by (vm_compute; reflexivity).
  split_and!; [exact Hi| |reflexivity].
  destruct (clock_change_by_mode Libc.strptime Libc.gmtmktime Runs.env_behind
              Runs.cfg_nobody (State 2 DEFAULT_MIN_SLEEP 0 0 Samples.timedelta0)
              2 Samples.timedelta0 1 [] 6
              (Settimeofday (Timeval 1704067215 0))) as [_ H].
  apply H; [by right|exact Hi].
Defined.

(** X10.  After the first cycle a daemon or foreground run does not step
    through time: once a cycle has returned, no later cycle calls
    [settimeofday], and the frequency is written only if the mode was 3
    from the start. *)
Theorem step_in_first_cycle_only {tm : Type} (strptime : string -> option tm)
    (gmtmktime : tm -> Z) (env : environment) (cfg : config) (st st' : state)
    (tr tr' : list call) (cycles : nat) (i : nat) (c : call) :
  poll_cycle strptime gmtmktime env cfg st tr = Ret st' tr' ->
  calls_of (poll_cycles strptime gmtmktime env cfg cycles st') tr' !! i
  = Some c ->
  (forall tv, c <> Settimeofday tv)
  /\ (forall freq, c = AdjtimexFreq freq -> setmode st = 3).
Proof.
  intros Hcycle Hi.
  destruct (monitored_calls _ _ _ _ _ tr (Protocol false 0)
              (protocol_poll_cycle strptime gmtmktime env cfg (fun _ => true)
                 (fun _ => true) eq_refl st (fun _ _ => eq_refl)) eq_refl)
    as (s1 & _ & Hpost & _).
  destruct (Hpost _ _ Hcycle) as [_ Hmode].
  destruct (monitored_calls _ _ _ _ _ tr' (Protocol false 0)
              (protocol_poll_cycles strptime gmtmktime env cfg
                 (permitted (later_mode (setmode st))) (fun _ => true) eq_refl
                 cycles st'
                 ltac:(intros c0 H0; rewrite <- Hmode;
                       by eapply permitted_at_mode)
                 ltac:(by rewrite Hmode, later_mode_idemp)) eq_refl)
    as (s2 & Hrun & _ & _).
  assert (clock_mutation c = true -> permitted (later_mode (setmode st)) c = true)
    as Hp.
  { intros Hc. by destruct (protocol_mutation _ _ _ _ _ _ _ _ _ Hrun Hi Hc). }
  unfold later_mode in Hp. split.
  - intros tv ->. specialize (Hp eq_refl). simpl in Hp.
    by destruct (setmode st =? 3).
  - intros freq ->. specialize (Hp eq_refl). simpl in Hp.
    destruct (Z.eqb_spec (setmode st) 3); [done|]. done.
Qed.

Lemma step_in_first_cycle_only_witness :
  (forall tv, Adjtime (Timeval 5 0) <> Settimeofday tv)
  /\ (forall freq, Adjtime (Timeval 5 0) = AdjtimexFreq freq ->
      setmode (State 2 DEFAULT_MIN_SLEEP 0 0 Samples.timedelta0) = 3).
Proof.
  eapply (step_in_first_cycle_only Libc.strptime Libc.gmtmktime Runs.env_behind
            Runs.cfg_nobody (State 2 DEFAULT_MIN_SLEEP 0 0 Samples.timedelta0)
            _ [] _ 1 4 (Adjtime (Timeval 5 0))).
  - vm_compute. reflexivity.
  - vm_compute. reflexivity.
Defined.

(** * How a run ends *)

Section ExitFacts.

Context {tm : Type}.
Variable strptime : string -> option tm.
Variable gmtmktime : tm -> Z.
Variable env : environment.
Variable cfg : config.

#[local] Abbreviation any := (fun _ : list (nat * call) => True).

Lemma journal_call {A} (fail : Z -> list (nat * call) -> Prop) (c : call)
    (answer : nat -> A) :
  monitored journal fail any (fun _ => any) (do_call c answer).
Proof. apply monitored_call. intros pos s _. by eexists. Qed.

Lemma journal_when (fail : Z -> list (nat * call) -> Prop) (b : bool)
    is_error m :
  monitored journal fail any (fun _ => any) (when_ b (printlog is_error m)).
Proof. apply monitored_when, journal_call. Qed.

Lemma journal_returns {A} (fail : Z -> list (nat * call) -> Prop) (m : M A)
    (P : A -> Prop) :
  returns m P -> monitored journal fail any (fun _ => any) m.
Proof.
  intros Hm. eapply monitored_weaken;
    [apply (monitored_returns journal fail any m P); [|done]|done..].
  intros pos s c _ _. by eexists.
Qed.

Lemma journal_swuid id :
  monitored journal (seteuid_failed env) any (fun _ => any) (swuid env id).
Proof.
  unfold swuid.
  apply monitored_bind
    with (mid := fun r s => r <> 0 ->
                   exists pos rest, s = (pos, Seteuid id) :: rest
                                    /\ os_seteuid env pos <> 0).
  - apply monitored_call. intros pos s _. eexists. split; [done|].
    intros Hr. by exists pos, s.
  - intros r. destruct (Z.eqb_spec r 0) as [->|Hr]; [by apply monitored_ret|].
    apply monitored_bind
      with (mid := fun _ s => exists pos id' pos' rest,
                     s = (pos', Printlog true (SeteuidFailed id'))
                           :: (pos, Seteuid id') :: rest
                     /\ os_seteuid env pos <> 0).
    + apply monitored_call. intros pos' s Hs.
      destruct (Hs Hr) as (pos & rest & -> & Hpos).
      eexists. split; [done|]. by exists pos, id, pos', rest.
    + intros []. by apply monitored_exit.
Qed.

Ltac journal :=
  repeat first
    [ by apply monitored_ret
    | apply journal_swuid
    | apply journal_call
    | apply journal_when
    | eapply monitored_bind;
        [first [apply journal_swuid | apply journal_call | apply journal_when]|];
        intros ? ].

Lemma journal_setclock timedelta mode :
  monitored journal (seteuid_failed env) any (fun _ => any)
    (setclock env timedelta mode).
Proof.
  rewrite setclock_cases. unfold setclock_adjust, setclock_set.
  destruct ((timedelta =? 0)%float); [journal|].
  destruct (mode =? 0); [journal|].
  destruct ((mode =? 1) || (mode =? 3)); [journal|].
  destruct (mode =? 2); journal.
Qed.

Lemma journal_htpdate_adjtimex drift :
  monitored journal (seteuid_failed env) any (fun _ => any)
    (htpdate_adjtimex env drift).
Proof. unfold htpdate_adjtimex. journal. Qed.

Lemma journal_after_correction st timeavg :
  monitored journal (seteuid_failed env) any (fun _ => any)
    (after_correction env cfg st timeavg).
Proof.
  unfold after_correction. eapply monitored_bind; [|intros ?; journal].
  destruct (negb (starttime st =? 0)); [|journal].
  journal. destruct (setmode st =? 3); [|journal].
  journal. eapply monitored_bind; [apply journal_htpdate_adjtimex|].
  intros ?. journal.
Qed.

Lemma journal_apply_correction st timeavg :
  monitored journal (seteuid_failed env) any (fun _ => any)
    (apply_correction env cfg st timeavg).
Proof.
  unfold apply_correction.
  eapply monitored_bind; [apply journal_setclock|]. intros ?. journal.
  destruct (persistent cfg); [apply journal_after_correction|journal].
Qed.

(** A cycle of a daemon or foreground run ends the process only when
    [seteuid] fails; a single run also when no server is suitable. *)
Lemma journal_conclude st c :
  monitored journal
    (fun status s =>
       seteuid_failed env status s
       \/ (persistent cfg = false /\ no_server status s))
    any (fun _ => any) (conclude env cfg st c).
Proof.
  unfold conclude. destruct (negb (goodtimes c =? 0)).
  - journal. eapply monitored_bind; [|intros ?; journal].
    destruct (changes_time cfg c); [|journal].
    eapply monitored_weaken; [apply journal_apply_correction|done|done|].
    intros status s H. by left.
  - apply monitored_bind
      with (mid := fun _ s => exists pos rest,
                     s = (pos, Printlog true NoServerSuitable) :: rest).
    + apply monitored_call. intros pos s _. eexists. split; [done|].
      by exists pos, s.
    + intros []. destruct (persistent cfg) eqn:Ep.
      * eapply monitored_weaken with (pre := any) (post := fun _ => any);
          [journal|done|done|intros ? ? H; exact H].
      * apply monitored_exit. intros s Hs. right. by split.
Qed.

Lemma journal_poll_cycle st :
  monitored journal
    (fun status s =>
       seteuid_failed env status s
       \/ (persistent cfg = false /\ no_server status s))
    any (fun _ => any) (poll_cycle strptime gmtmktime env cfg st).
Proof.
  unfold poll_cycle.
  eapply monitored_bind; [eapply journal_returns, collect_samples_returns|].
  intros col. eapply monitored_bind; [apply journal_conclude|].
  intros st'. journal.
Qed.

Lemma journal_poll_cycles cycles st :
  monitored journal
    (fun status s =>
       seteuid_failed env status s
       \/ (persistent cfg = false /\ no_server status s))
    any (fun _ => any) (poll_cycles strptime gmtmktime env cfg cycles st).
Proof.
  induction cycles as [|cycles IH] in st |- *; simpl; [journal|].
  eapply monitored_bind; [apply journal_poll_cycle|]. intros st'. apply IH.
Qed.

End ExitFacts.

Lemma journal_main {tm : Type} (strptime : string -> option tm)
    (gmtmktime : tm -> Z) env cfg setmode timedelta cycles :
  numservers cfg <> 0 -> numservers cfg <= MAX_HTTP_HOSTS ->
  monitored journal
    (fun status s =>
       seteuid_failed env status s
       \/ (persistent cfg = false /\ (no_server status s \/ status = 0)))
    (fun _ => True) (fun _ _ => True)
    (main strptime gmtmktime env cfg setmode timedelta cycles).
Proof.
  intros Hn Hmax. unfold main.
  destruct (Z.eqb_spec (numservers cfg) 0); [done|].
  destruct (numservers cfg >? MAX_HTTP_HOSTS) eqn:E; [lia|].
  destruct (spread _ _) as [precision nap].
  unfold persistent. simpl. destruct (daemonize cfg || foreground cfg) eqn:Ep.
  - eapply monitored_weaken; [apply journal_poll_cycles|done|done|].
    intros status s [H|[H _]]; [by left|].
    unfold persistent in H. simpl in H. congruence.
  - unfold one_shot. eapply monitored_bind.
    + eapply monitored_weaken; [apply journal_poll_cycle|done|done|].
      intros status s [H|[_ H]]; [by left|right; auto].
    + intros st'. apply monitored_exit. intros s _. right. auto.
Qed.

(** What the journal holds after a run. *)
Lemma journal_last pos s calls s' p c rest :
  run_monitor journal pos s calls = Some s' ->
  s' = (p, c) :: rest ->
  (calls = [] /\ s = s')
  \/ exists calls', calls = calls' ++ [c] /\ p = (pos + List.length calls')%nat
                    /\ run_monitor journal pos s calls' = Some rest.
Proof.
  destruct calls as [|c0 calls _] using rev_ind; simpl; intros Hrun ->.
  - left. by simplify_eq.
  - right. rewrite run_monitor_app in Hrun.
    destruct (run_monitor journal pos s calls) as [s1|] eqn:E; [|done].
    simpl in Hrun. simplify_eq. by exists calls.
Qed.

(** X11.  A daemon or foreground run, started with 1 to 15 servers, ends
    only when [seteuid] fails: the last two calls are the [seteuid] that
    failed and the line that reports it, and the status is 1.  Servers that
    cannot be reached, cycles without a suitable server and failing clock
    calls do not end it. *)
Theorem daemon_stops_on_seteuid {tm : Type} (strptime : string -> option tm)
    (gmtmktime : tm -> Z) (env : environment) (cfg : config) (setmode : Z)
    (timedelta : list Z) (cycles : nat) (tr tr' : list call) (status : Z) :
  persistent cfg = true ->
  0 < numservers cfg <= MAX_HTTP_HOSTS ->
  main strptime gmtmktime env cfg setmode timedelta cycles tr
  = Exited status tr' ->
  status = 1
  /\ exists calls id,
       tr' = tr ++ calls ++ [Seteuid id; Printlog true (SeteuidFailed id)]
       /\ os_seteuid env (List.length tr + List.length calls) <> 0.
Proof.
  intros Hp [Hn Hmax] Hexit.
  destruct (journal_main strptime gmtmktime env cfg setmode timedelta cycles
              ltac:(lia) Hmax tr [] I)
    as (calls & s & Htr & Hrun & _ & Hfail).
  rewrite Hexit in Htr. simpl in Htr. subst tr'.
  destruct (Hfail _ Hexit) as [[-> (pos & id & pos' & rest & Hs & Hpos)]|[Hq _]];
    [|congruence].
  split; [done|].
  destruct (journal_last _ _ _ _ _ _ _ Hrun Hs)
    as [[_ ?]|(calls1 & -> & _ & Hrun1)]; [congruence|].
  destruct (journal_last _ _ _ _ _ _ _ Hrun1 eq_refl)
    as [[_ ?]|(calls2 & -> & -> & _)]; [done|].
  exists calls2, id. by rewrite <- app_assoc.
Qed.

Lemma daemon_stops_on_seteuid_witness :
  1 = 1
  /\ exists calls id,
       [HTTPexchange "www.example.com" "80" 500000;
        HTTPexchange "www.example.com" "80" 500000;
        Printlog false (Adjusting 5); Seteuid 0;
        Printlog true (SeteuidFailed 0)]
       = [] ++ calls ++ [Seteuid id; Printlog true (SeteuidFailed id)]
       /\ os_seteuid Runs.env_no_root
            (List.length (@nil call) + List.length calls) <> 0.
Proof.
  apply (daemon_stops_on_seteuid Libc.strptime Libc.gmtmktime Runs.env_no_root
           Samples.cfg_foreground 1 Samples.timedelta0 1 []).
  - reflexivity.
  - unfold numservers, MAX_HTTP_HOSTS. simpl. lia.
  - vm_compute. reflexivity.
Defined.

(** X12.  A single run, started with 1 to 15 servers, always ends the
    process, with status 0 or 1; status 1 follows a line that reports that
    no server was suitable, or that [seteuid] failed. *)
Theorem single_run_status {tm : Type} (strptime : string -> option tm)
    (gmtmktime : tm -> Z) (env : environment) (cfg : config) (setmode : Z)
    (timedelta : list Z) (cycles : nat) (tr : list call) :
  persistent cfg = false ->
  0 < numservers cfg <= MAX_HTTP_HOSTS ->
  exists status tr',
    main strptime gmtmktime env cfg setmode timedelta cycles tr
    = Exited status tr'
    /\ (status = 0
        \/ (status = 1
            /\ exists calls msg,
                 tr' = tr ++ calls ++ [Printlog true msg]
                 /\ (msg = NoServerSuitable \/ exists id, msg = SeteuidFailed id))).
Proof.
  intros Hp [Hn Hmax].
  destruct (journal_main strptime gmtmktime env cfg setmode timedelta cycles
              ltac:(lia) Hmax tr [] I)
    as (calls & s & Htr & Hrun & Hret & Hfail).
  destruct (main strptime gmtmktime env cfg setmode timedelta cycles tr)
    as [st tr'|status tr'] eqn:E.
  { exfalso. revert E. unfold main.
    destruct (numservers cfg =? 0); [done|].
    destruct (numservers cfg >? MAX_HTTP_HOSTS); [done|].
    destruct (spread _ _) as [precision nap].
    unfold persistent in *. simpl. rewrite Hp.
    unfold one_shot, mbind, M_bind, exit. by destruct (poll_cycle _ _ _ _ _ _). }
  exists status, tr'. split; [done|]. simpl in Htr. subst tr'.
  destruct (Hfail _ eq_refl)
    as [[-> (pos & id & pos' & rest & Hs & Hpos)]
       |[_ [[-> (pos & rest & Hs)]| ->]]]; [| |by left].
  - right. split; [done|].
    destruct (journal_last _ _ _ _ _ _ _ Hrun Hs)
      as [[_ ?]|(calls1 & -> & _ & _)]; [congruence|].
    exists calls1, (SeteuidFailed id). split; [done|]. right. by exists id.
  - right. split; [done|].
    destruct (journal_last _ _ _ _ _ _ _ Hrun Hs)
      as [[_ ?]|(calls1 & -> & _ & _)]; [congruence|].
    exists calls1, NoServerSuitable. split; [done|]. by left.
Qed.

Lemma single_run_status_witness :
  exists status tr',
    main Libc.strptime Libc.gmtmktime Runs.env_no_root Samples.cfg_query 0
      Samples.timedelta0 1 []
    = Exited status tr'
    /\ (status = 0
        \/ (status = 1
            /\ exists calls msg,
                 tr' = [] ++ calls ++ [Printlog true msg]
                 /\ (msg = NoServerSuitable \/ exists id, msg = SeteuidFailed id))).
Proof.
  apply (single_run_status Libc.strptime Libc.gmtmktime Runs.env_no_root
           Samples.cfg_query 0 Samples.timedelta0 1 []).
  - reflexivity.
  - unfold numservers, MAX_HTTP_HOSTS. simpl. lia.
Defined.

(** * Further properties of the sampling *)

Section SamplingResults.

Context {tm : Type}.
Variable strptime : string -> option tm.
Variable gmtmktime : tm -> Z.

Lemma parse_date_log debug host port buffer timevalue_sec rtt timeofday_sec t :
  remote_date strptime buffer = Some t ->
  let log := snd (parse_date strptime gmtmktime debug host port buffer
                    timevalue_sec rtt timeofday_sec) in
  Forall (fun c => exists m, c = Printlog false m) log
  /\ (debug = false -> log = []).
Proof.
  unfold remote_date, parse_date. intros H.
  destruct (find_date buffer) as [pdate|]; [|done].
  destruct (35 <=? String.length buffer - pdate)%nat; [|done].
  rewrite H. destruct debug; simpl; split; try done.
  repeat constructor. eauto.
Qed.

(** X13.  For a response with a date that [strptime] accepts,
    [getHTTPdate] returns the date of the server minus the second of the
    local clock read after the response, as a [long]; it reports no error,
    and logs nothing at all unless [debug] is on. *)
Theorem getHTTPdate_offset (debug : bool) (host port : string) (when : Z)
    (ex : exchange) (t : tm) :
  connected ex -> received ex ->
  remote_date strptime (ex_buffer ex) = Some t ->
  let r := getHTTPdate strptime gmtmktime debug host port when ex in
  fst r = wrap_long (gmtmktime t - tv_sec (ex_timeofday2 ex))
  /\ (is_long (gmtmktime t - tv_sec (ex_timeofday2 ex)) ->
      fst r = gmtmktime t - tv_sec (ex_timeofday2 ex))
  /\ Forall (fun c => exists m, c = Printlog false m) (snd r)
  /\ (debug = false -> snd r = []).
Proof.
  intros Hc Hr Hd r. subst r.
  rewrite (getHTTPdate_received _ _ _ _ _ _ _ Hc Hr). simpl.
  rewrite (parse_date_some _ _ _ _ _ _ _ _ _ _ Hd).
  match goal with |- context [parse_date ?a ?b ?c ?d ?e ?f ?g ?h ?i] =>
    destruct (parse_date_log c d e f g h i t Hd) as [Hlog Hquiet] end.
  split_and!; [done| |done|done].
  intros Hl. by rewrite wrap_long_id.
Qed.

End SamplingResults.

Lemma getHTTPdate_offset_witness :
  let r := getHTTPdate Libc.strptime Libc.gmtmktime false "www.example.com"
             "80" 500000 Samples.ex_behind in
  fst r = 5 /\ snd r = [].
Proof.
  edestruct (getHTTPdate_offset Libc.strptime Libc.gmtmktime false
               "www.example.com" "80" 500000 Samples.ex_behind)
    as (_ & H2 & _ & H4).
  - split; reflexivity.
  - split; vm_compute; congruence.
  - vm_compute. reflexivity.
  - split; [apply H2; vm_compute; split; congruence|by apply H4].
Defined.


(** X14.  The loop over the addresses of a name stops at the first address
    for which [socket] and [connect] both succeed, and returns its socket:
    the addresses after it are not tried, and what happened to the ones
    before does not matter. *)
Theorem connect_loop_first (server_s rc : Z) (res : Z * Z) (next : list (Z * Z))
    (failed : list (Z * Z)) (sock : Z) (rest : list (Z * Z)) :
  res :: next = failed ++ (sock, 0) :: rest ->
  Forall (fun a => a.1 < 0 \/ a.2 <> 0) failed ->
  0 <= sock ->
  connect_loop server_s rc res next = (sock, 0).
Proof.
  intros E Hfailed Hsock.
  induction failed as [|a failed IH] in server_s, rc, res, next, E, Hfailed |- *.
  - simpl in E. simplify_eq.
    destruct rest; [rewrite connect_loop_nil|rewrite connect_loop_cons]; simpl;
      destruct (Z.ltb_spec sock 0); done || lia.
  - simpl in E. injection E as -> E.
    apply Forall_cons in Hfailed as [Ha Hfailed].
    destruct next as [|res' next]; [by destruct failed|].
    rewrite connect_loop_cons.
    destruct (Z.ltb_spec a.1 0); [by apply IH|].
    destruct (Z.eqb_spec a.2 0); [lia|]. by apply IH.
Qed.

Lemma connect_loop_first_witness :
  connect_loop 0 0 (-1, 0) [(3, -1); (4, 0); (5, 0)] = (4, 0).
Proof.
  apply (connect_loop_first 0 0 (-1, 0) [(3, -1); (4, 0); (5, 0)]
           [(-1, 0); (3, -1)] 4 [(5, 0)]).
  - reflexivity.
  - repeat constructor; simpl; lia.
  - lia.
Defined.

(** X15.  When no address gives a connection, the loop ends with [rc]
    zero, and [getHTTPdate] goes on as if it were connected, exactly when
    [rc] was zero before and [socket] failed for every address: a refused
    [connect] leaves its error in [rc], a failed [socket] leaves nothing. *)
Theorem connect_loop_none (server_s rc : Z) (res : Z * Z) (next : list (Z * Z)) :
  Forall (fun a => a.1 < 0 \/ a.2 <> 0) (res :: next) ->
  snd (connect_loop server_s rc res next) = 0
  <-> rc = 0 /\ Forall (fun a => a.1 < 0) (res :: next).
Proof.
  induction next as [|res' next IH] in server_s, rc, res |- *; intros Hall.
  - apply Forall_cons in Hall as [Hres _]. rewrite connect_loop_nil.
    destruct (Z.ltb_spec res.1 0).
    + simpl. split; [intros ->; by repeat constructor|by intros []].
    + destruct (Z.eqb_spec res.2 0); [lia|]. simpl. split; [done|].
      intros [_ H']. apply Forall_cons in H' as [? _]. lia.
  - apply Forall_cons in Hall as [Hres Hall]. rewrite connect_loop_cons.
    destruct (Z.ltb_spec res.1 0).
    + rewrite (IH _ _ _ Hall). split.
      * intros [-> H']. split; [done|]. by constructor.
      * intros [-> H']. by apply Forall_cons in H' as [_ H'].
    + destruct (Z.eqb_spec res.2 0); [lia|]. rewrite (IH _ _ _ Hall). split.
      * intros [? _]. done.
      * intros [_ H']. apply Forall_cons in H' as [? _]. lia.
Qed.

Lemma connect_loop_none_witness :
  snd (connect_loop 0 0 (-1, 0) [(-1, 0)]) = 0
  <-> 0 = 0 /\ Forall (fun a : Z * Z => a.1 < 0) [(-1, 0); (-1, 0)].
Proof.
  apply (connect_loop_none 0 0 (-1, 0) [(-1, 0)]).
  repeat constructor; simpl; lia.
Defined.

(** * Further properties of the consensus *)

(** X16.  The consensus does not depend on the order in which the samples
    were stored: two arrays whose first [validtimes] entries are a
    permutation of each other give the same sorted samples, the same
    median, the same sum and the same number of inliers. *)
Theorem consensus_order (a b : list Z) (validtimes : nat) :
  (0 < validtimes <= List.length a)%nat ->
  (validtimes <= List.length b)%nat ->
  take validtimes a ≡ₚ take validtimes b ->
  let ca := consensus_of a validtimes in
  let cb := consensus_of b validtimes in
  take validtimes (sorted ca) = take validtimes (sorted cb)
  /\ mean ca = mean cb
  /\ sumtimes ca = sumtimes cb
  /\ goodtimes ca = goodtimes cb.
Proof.
  intros [Hn Ha] Hb Hperm ca cb. subst ca cb.
  destruct (insertsort_spec a validtimes Ha) as (pa & Ea & Sa & Pa).
  destruct (insertsort_spec b validtimes Hb) as (pb & Eb & Sb & Pb).
  assert (pa = pb) as <-.
  { apply (StronglySorted_unique Z.le); [done|done|]. by rewrite Pa, Hperm, Pb. }
  assert (Hlen : List.length pa = validtimes) by (rewrite Pa, length_take; lia).
  assert (Hmean : mean (consensus_of a validtimes) = mean (consensus_of b validtimes)).
  { rewrite !mean_consensus_of, Ea, Eb.
    pose proof (Nat.div_lt validtimes 2 Hn ltac:(lia)).
    by rewrite !lookup_total_app_l by lia. }
  pose proof (tally_consensus_of a validtimes) as Ta.
  pose proof (tally_consensus_of b validtimes) as Tb.
  rewrite <- mean_consensus_of in Ta, Tb.
  rewrite filter_loop_entries in Ta, Tb
    by (rewrite ?Ea, ?Eb, length_app; lia).
  rewrite !sorted_consensus_of.
  rewrite Ea, take_app_length' in Ta |- * by done.
  rewrite Eb, take_app_length' in Tb |- * by done.
  rewrite <- Hmean, <- Ta in Tb. by simplify_eq.
Qed.

Lemma consensus_order_witness :
  let ca := consensus_of [5; 2; 3; 7; 7] 3 in
  let cb := consensus_of [3; 5; 2; 0; 1] 3 in
  take 3 (sorted ca) = take 3 (sorted cb)
  /\ mean ca = mean cb
  /\ sumtimes ca = sumtimes cb
  /\ goodtimes ca = goodtimes cb.
Proof.
  apply (consensus_order [5; 2; 3; 7; 7] [3; 5; 2; 0; 1] 3).
  - simpl. lia.
  - simpl. lia.
  - symmetry. apply (Permutation_cons_append [5; 2] 3).
Defined.

Lemma filter_entries_at_most (mean : Z) (l : list Z) (acc : Z * Z) :
  snd (foldl (filter_entry mean) acc l) <= snd acc + Z.of_nat (List.length l).
Proof.
  induction l as [|x l IH] in acc |- *; simpl; [lia|].
  etrans; [apply IH|]. unfold filter_entry.
  destruct (inlier x mean); simpl; lia.
Qed.

(** X17.  The median is its own inlier, so the filter finds no inlier only
    when no sample was stored; and it never counts more inliers than there
    are samples. *)
Theorem consensus_needs_a_sample (timedelta : list Z) (validtimes : nat) :
  (validtimes <= List.length timedelta)%nat ->
  let c := consensus_of timedelta validtimes in
  (goodtimes c = 0 <-> validtimes = 0%nat)
  /\ 0 <= goodtimes c <= Z.of_nat validtimes.
Proof.
  intros Hlen c. subst c. split_and!.
  - split.
    + intros Hg. destruct validtimes as [|n]; [done|].
      pose proof (goodtimes_positive timedelta (S n) ltac:(lia)). lia.
    + intros ->. apply goodtimes_zero.
  - by apply goodtimes_nonneg.
  - pose proof (tally_consensus_of timedelta validtimes) as E.
    destruct (insertsort_spec timedelta validtimes Hlen) as (p & Ep & _ & Hp).
    assert (Hpl : List.length p = validtimes) by (rewrite Hp, length_take; lia).
    rewrite filter_loop_entries in E by (rewrite Ep, length_app; lia).
    apply (f_equal snd) in E. simpl in E. rewrite E.
    etrans; [apply filter_entries_at_most|].
    simpl. rewrite length_take. lia.
Qed.

Lemma consensus_needs_a_sample_witness :
  let c := consensus_of [5; 2; 3; 7; 7] 3 in
  (goodtimes c = 0 <-> 3%nat = 0%nat) /\ 0 <= goodtimes c <= Z.of_nat 3.
Proof. apply (consensus_needs_a_sample [5; 2; 3; 7; 7] 3). simpl. lia. Defined.

(** X18.  The array [timedelta] is never written beyond its end: with 1 to
    15 servers, with or without burst mode, the pass over the servers
    returns with the array at its size of 255 and with at most 15 * 15
    samples counted, so that every index it stored at is below the size. *)
Theorem timedelta_in_bounds {tm : Type} (strptime : string -> option tm)
    (gmtmktime : tm -> Z) (env : environment) (cfg : config) (st : state)
    (tr : list call) :
  valid_options cfg ->
  List.length (timedelta st) = timedelta_size ->
  exists col calls,
    collect_samples strptime gmtmktime env cfg st tr = Ret col (tr ++ calls)
    /\ List.length (samples col) = timedelta_size
    /\ (validtimes col <= Z.to_nat (MAX_HTTP_HOSTS * MAX_HTTP_HOSTS))%nat
    /\ (Z.to_nat (MAX_HTTP_HOSTS * MAX_HTTP_HOSTS) < timedelta_size)%nat.
Proof.
  intros ((Hn0 & Hn) & Hburst & _) Hlen.
  destruct (collect_samples_returns strptime gmtmktime env cfg st tr)
    as (col & calls & E & _ & Hl & Hv & _).
  exists col, calls. split_and!; [done|congruence| |change (225 < 255)%nat; lia].
  unfold bursts, numservers, MAX_HTTP_HOSTS in *.
  assert (Z.to_nat (1 `max` (Z.of_nat (List.length (servers cfg))
                             * burstmode cfg)) <= 15)%nat
    by (destruct Hburst as [-> | ->]; lia).
  change (Z.to_nat (15 * 15)) with 225%nat. nia.
Qed.

Lemma timedelta_in_bounds_witness :
  exists col calls,
    collect_samples Libc.strptime Libc.gmtmktime Runs.env_behind
      Samples.cfg_precision (State 0 DEFAULT_MIN_SLEEP 0 0 Samples.timedelta0) []
    = Ret col ([] ++ calls)
    /\ List.length (samples col) = timedelta_size
    /\ (validtimes col <= Z.to_nat (MAX_HTTP_HOSTS * MAX_HTTP_HOSTS))%nat
    /\ (Z.to_nat (MAX_HTTP_HOSTS * MAX_HTTP_HOSTS) < timedelta_size)%nat.
Proof.
  apply (timedelta_in_bounds Libc.strptime Libc.gmtmktime Runs.env_behind
           Samples.cfg_precision
           (State 0 DEFAULT_MIN_SLEEP 0 0 Samples.timedelta0) []).
  - unfold valid_options, numservers, MAX_HTTP_HOSTS, is_int. simpl.
    split_and!; [lia|lia|by left|by vm_compute|by vm_compute].
  - reflexivity.
Defined.

(** * Further properties of the controller *)

(** X19.  [case 1] of [setclock] logs the offset, switches to root and,
    when [seteuid(0)] succeeds, calls [adjtime] once and returns its
    result; the seconds handed over are the offset truncated toward zero
    and the microseconds are the truncation of the [double] product
    [(timedelta - sec) * 1000000].  When [seteuid(0)] fails the process
    exits with status 1 and [adjtime] is not called.  The product is
    rounded before it is truncated: the [double] nearest to 6/5 gives
    1 s and 199999 us, the one nearest to 3/10 gives 0 s and 300000 us. *)
Theorem setclock_adjust_calls (env : environment) (timedelta : float)
    (tr : list call) :
  (os_seteuid env (S (List.length tr)) = 0 ->
   setclock_adjust env timedelta tr
   = Ret (os_adjtime env (2 + List.length tr))
         (tr ++ [Printlog false (Adjusting timedelta); Seteuid 0;
                 Adjtime
                   (Timeval (long_of_double timedelta)
                      (long_of_double
                         ((timedelta
                           - double_of_long (long_of_double timedelta))
                          * double_of_long 1000000)%float))]))
  /\ (os_seteuid env (S (List.length tr)) <> 0 ->
      setclock_adjust env timedelta tr
      = Exited 1 (tr ++ [Printlog false (Adjusting timedelta); Seteuid 0;
                         Printlog true (SeteuidFailed 0)]))
  /\ (os_seteuid env 1 = 0 ->
      setclock_adjust env 1.2 []
      = Ret (os_adjtime env 2)
            [Printlog false (Adjusting 1.2); Seteuid 0;
             Adjtime (Timeval 1 199999)]
      /\ setclock_adjust env 0.3 []
         = Ret (os_adjtime env 2)
               [Printlog false (Adjusting 0.3); Seteuid 0;
                Adjtime (Timeval 0 300000)]
      /\ setclock_adjust env (-2.5) []
         = Ret (os_adjtime env 2)
               [Printlog false (Adjusting (-2.5)); Seteuid 0;
                Adjtime (Timeval (-2) (-500000))]).
Proof.
  assert (Hlen : forall c : call, List.length (tr ++ [c]) = S (List.length tr))
    by (intros c; rewrite length_app; simpl; lia).
  split_and!.
  - intros Hok. unfold setclock_adjust.
    rewrite bind_printlog. erewrite bind_ret.
    2:{ apply swuid_ok. by rewrite Hlen. }
    unfold do_call. rewrite !length_app. simpl.
    rewrite <- !app_assoc. simpl. do 2 f_equal. lia.
  - intros Hfail. unfold setclock_adjust.
    rewrite bind_printlog. erewrite bind_exited.
    2:{ apply swuid_fails. by rewrite Hlen. }
    by rewrite <- app_assoc.
  - intros Hok. unfold setclock_adjust.
    split_and!.
    all: rewrite bind_printlog; simpl app; cbv beta;
      erewrite bind_ret by (apply swuid_ok; exact Hok); reflexivity.
Qed.

Lemma setclock_adjust_calls_witness :
  os_seteuid Runs.env_behind (S (List.length (@nil call))) = 0
  /\ setclock_adjust Runs.env_behind 1.2 []
     = Ret 0 [Printlog false (Adjusting 1.2); Seteuid 0;
              Adjtime (Timeval 1 199999)].
Proof.
  split; [reflexivity|].
  destruct (setclock_adjust_calls Runs.env_behind 1.2 []) as [H _].
  rewrite H by reflexivity. reflexivity.
Defined.

(** * The phases of the polls *)

Section PhaseFacts.

Context {tm : Type}.
Variable strptime : string -> option tm.
Variable gmtmktime : tm -> Z.
Variable env : environment.
Variable cfg : config.

Hypothesis servers_pos : 0 < numservers cfg.
Hypothesis burst_flag : burstmode cfg = 0 \/ burstmode cfg = 1.
Hypothesis phase_range : forall k,
  0 <= k < numservers cfg ->
  0 < first_when cfg + k * nap cfg < 1000000.
Hypothesis phase_int : forall k,
  0 <= k <= numservers cfg -> is_int (first_when cfg + k * nap cfg).

#[local] Abbreviation always := (fun (_ : Z) (_ : unit) => True).
#[local] Abbreviation ready := (fun _ : unit => True).

Lemma parse_date_logs debug host port buffer timevalue_sec rtt timeofday_sec :
  Forall is_log (snd (parse_date strptime gmtmktime debug host port buffer
                        timevalue_sec rtt timeofday_sec)).
Proof.
  unfold parse_date.
  destruct (find_date buffer) as [pdate|]; [|by repeat constructor].
  destruct (35 <=? _)%nat; [|by repeat constructor].
  destruct (strptime _); destruct debug; simpl; by repeat constructor.
Qed.

Lemma getHTTPdate_logs debug host port when ex :
  Forall is_log (snd (getHTTPdate strptime gmtmktime debug host port when ex)).
Proof.
  unfold getHTTPdate, getHTTP.
  destruct (negb (ex_getaddrinfo ex =? 0)); [by repeat constructor|].
  destruct (connect_loop _ _ _ _) as [server_s rc].
  destruct (negb (rc =? 0)); [by repeat constructor|].
  destruct (ex_send ex <? 0); simpl; [by repeat constructor|].
  destruct (ex_recv ex =? -1); simpl; [by repeat constructor|].
  match goal with |- context [parse_date ?a ?b ?c ?d ?e ?f ?g ?h ?i] =>
    pose proof (parse_date_logs c d e f g h i) as Hq;
    destruct (parse_date a b c d e f g h i) end.
  done.
Qed.

Lemma phases_emit (calls : list call) :
  Forall is_log calls -> monitored phases always ready (fun _ => ready) (emit calls).
Proof.
  intros Hlog tr [] _. exists calls, tt. split_and!; try done.
  generalize (List.length tr) as pos.
  induction Hlog as [|c calls Hc _ IH]; intros pos; simpl; [done|].
  destruct c; try done. apply IH.
Qed.

Lemma phases_log (b : bool) is_error m :
  monitored phases always ready (fun _ => ready) (when_ b (printlog is_error m)).
Proof.
  apply monitored_when, monitored_call. intros pos [] _. by exists tt.
Qed.

Lemma phases_poll host port when :
  0 < when < 1000000 ->
  monitored phases always ready (fun _ => ready)
    (poll strptime gmtmktime env cfg host port when).
Proof.
  intros Hw. unfold poll. eapply monitored_bind.
  - apply monitored_call with (post := fun _ => ready). intros pos [] _.
    exists tt. simpl.
    destruct (Z.ltb_spec 0 when); [|lia].
    destruct (Z.ltb_spec when 1000000); [done|lia].
  - intros ex. eapply monitored_bind; [apply phases_emit, getHTTPdate_logs|].
    intros []. by apply monitored_ret.
Qed.

Lemma phases_attempts try burst host port when :
  0 < when < 1000000 ->
  monitored phases always ready (fun _ => ready)
    (attempts strptime gmtmktime env cfg try burst host port when).
Proof.
  intros Hw. induction try as [|try IH]; simpl; [by apply monitored_ret|].
  eapply monitored_bind; [apply phases_log|]. intros [].
  eapply monitored_bind; [by apply phases_poll|]. intros timestamp.
  destruct (negb (timestamp =? 0) && negb (Nat.eqb try 0)); [done|].
  by apply monitored_ret.
Qed.

Lemma phases_burst_body burst host port c :
  0 < when c < 1000000 ->
  monitored phases always ready
    (fun c' _ => when c' = wrap_int (when c + nap cfg))
    (burst_body strptime gmtmktime env cfg burst host port c).
Proof.
  intros Hw. unfold burst_body.
  eapply monitored_bind; [by apply phases_attempts|]. intros timestamp.
  apply monitored_ret. intros _ _.
  destruct (admitted cfg timestamp); destruct (negb (timestamp =? 0)); done.
Qed.

Lemma phases_burst_loop todo burst host port c k :
  0 <= k -> k + Z.of_nat todo <= numservers cfg ->
  when c = first_when cfg + k * nap cfg ->
  monitored phases always ready
    (fun c' _ => when c' = first_when cfg + (k + Z.of_nat todo) * nap cfg)
    (burst_loop strptime gmtmktime env cfg todo burst host port c).
Proof.
  induction todo as [|todo IH] in burst, c, k |- *; intros Hk Hn Hw; simpl.
  - apply monitored_ret. intros _ _. rewrite Hw. f_equal. lia.
  - eapply monitored_bind.
    { apply phases_burst_body. rewrite Hw. apply phase_range. lia. }
    intros c'. simpl.
    intros tr [] Hc'.
    destruct (IH (burst + 1) c' (k + 1)) with (tr := tr) (s := tt)
      as (calls & s' & H1 & H2 & H3 & H4); [lia|lia| |done|].
    { rewrite Hc', Hw, wrap_int_id.
      - lia.
      - replace (first_when cfg + k * nap cfg + nap cfg)
          with (first_when cfg + (k + 1) * nap cfg) by lia.
        apply phase_int. lia. }
    exists calls, s'. split_and!; [done|done| |done].
    intros a Ha. rewrite (H3 a Ha). f_equal. lia.
Qed.

Lemma bursts_value :
  Z.of_nat (bursts cfg) = if burstmode cfg =? 0 then 1 else numservers cfg.
Proof.
  unfold bursts. destruct burst_flag as [-> | ->]; simpl; lia.
Qed.

Lemma phases_server_loop hosts sleeptime c k :
  0 <= k ->
  (burstmode cfg = 0 ->
   k + Z.of_nat (List.length hosts) <= numservers cfg
   /\ when c = first_when cfg + k * nap cfg) ->
  monitored phases always ready (fun _ => ready)
    (server_loop strptime gmtmktime env cfg hosts sleeptime c).
Proof.
  induction hosts as [|[host port] hosts IH] in c, k |- *; intros Hk Hc; simpl.
  - by apply monitored_ret.
  - eapply monitored_bind; [apply phases_log|]. intros [].
    pose proof bursts_value as Hb.
    destruct (Z.eqb_spec (burstmode cfg) 0) as [E|E]; simpl.
    + destruct (Hc E) as [Hlen Hw]. simpl in Hlen.
      eapply monitored_bind.
      { apply (phases_burst_loop _ _ _ _ _ k); [done|lia|done]. }
      intros c'. simpl. eapply monitored_bind.
      { apply (monitored_when _ _ (fun _ : unit => when c'
                 = first_when cfg + (k + Z.of_nat (bursts cfg)) * nap cfg)).
        apply monitored_call. intros pos [] H. by exists tt. }
      intros []. intros tr [] Hc'.
      apply (IH c' (k + 1)); [lia| |done].
      intros _. split; [lia|]. rewrite Hc', Hb. done.
    + eapply monitored_bind.
      { apply (phases_burst_loop _ _ _ _ _ 0); [done|lia|simpl; lia]. }
      intros c'. simpl. eapply monitored_bind.
      { apply (monitored_when _ _ (fun _ : unit => when c'
                 = first_when cfg + (0 + Z.of_nat (bursts cfg)) * nap cfg)).
        apply monitored_call. intros pos [] H. by exists tt. }
      intros []. intros tr [] Hc'.
      apply (IH c' 0); [lia| |done]. intros E'. done.
Qed.

Lemma phases_collect_samples st :
  monitored phases always ready (fun _ => ready)
    (collect_samples strptime gmtmktime env cfg st).
Proof using All.
  unfold collect_samples. apply (phases_server_loop _ _ _ 0); [done|].
  intros _. simpl. split; [unfold numservers; lia|lia].
Qed.

End PhaseFacts.

(** The phases that [spread] leaves room for. *)
Lemma spread_phases (n precision0 precision nap : Z) :
  0 < n <= MAX_HTTP_HOSTS ->
  0 <= precision0 <= 500000 ->
  spread n precision0 = (precision, nap) ->
  let first := if negb (precision =? 0) then precision else nap in
  (forall k, 0 <= k < n -> 0 < first + k * nap < 1000000)
  /\ (forall k, 0 <= k <= n -> is_int (first + k * nap)).
Proof.
  intros Hn Hp E first. subst first.
  unfold MAX_HTTP_HOSTS, spread, is_int, INT_MIN, INT_MAX in *.
  destruct (Z.gtb_spec n 1) as [Hn1|Hn1].
  - destruct (Z.eqb_spec precision0 0) as [Hp0|Hp0]; simpl in E.
    + injection E as <- <-. rewrite Hp0. simpl.
      rewrite Z.quot_div_nonneg by lia.
      pose proof (Z.mul_div_le 1000000 (n + 1) ltac:(lia)).
      assert (0 < 1000000 / (n + 1)) by (apply Z.div_str_pos; lia).
      split; intros k Hk; nia.
    + destruct (Z.gtb_spec n 2) as [Hn2|Hn2]; injection E as <- <-;
        (destruct (Z.eqb_spec precision0 0); [done|]); simpl.
      * rewrite Z.quot_div_nonneg by lia.
        pose proof (Z.mul_div_le (1000000 - 2 * precision0) (n - 1) ltac:(lia)).
        assert (0 <= (1000000 - 2 * precision0) / (n - 1))
          by (apply Z.div_pos; lia).
        split; intros k Hk; nia.
      * assert (n = 2) as -> by lia.
        change (1000000 ÷ (2 + 1)) with 333333.
        split; intros k Hk; nia.
  - injection E as <- <-. simpl. assert (n = 1) as -> by lia.
    split; intros k Hk; nia.
Qed.

(** X20.  With 1 to 15 servers and a precision of at most half a second,
    the moments within the second that [main] computes for the polls of a
    cycle, in burst mode or not, are all strictly inside the second: every
    exchange of the pass over the servers is aimed at a [when] with
    0 < [when] < 1000000 microseconds. *)
Theorem poll_phases {tm : Type} (strptime : string -> option tm)
    (gmtmktime : tm -> Z) (env : environment) (cfg : config) (precision0 : Z)
    (st : state) (tr : list call) (i : nat) (host port : string) (when : Z) :
  0 < numservers cfg <= MAX_HTTP_HOSTS ->
  burstmode cfg = 0 \/ burstmode cfg = 1 ->
  0 <= precision0 <= 500000 ->
  spread (numservers cfg) precision0 = (precision cfg, nap cfg) ->
  calls_of (collect_samples strptime gmtmktime env cfg st) tr !! i
  = Some (HTTPexchange host port when) ->
  0 < when < 1000000.
Proof.
  intros Hn Hb Hp Hs Hi.
  destruct (spread_phases _ _ _ _ Hn Hp Hs) as [Hrange Hint].
  destruct (monitored_calls _ _ _ _ _ tr tt
              (phases_collect_samples strptime gmtmktime env cfg
                 (proj1 Hn) Hb Hrange Hint st) I)
    as (s' & Hrun & _ & _).
  destruct (run_monitor_lookup _ _ _ _ _ _ _ Hrun Hi) as (si & _ & [s1 Hs1]).
  simpl in Hs1.
  destruct (Z.ltb_spec 0 when); [|done].
  destruct (Z.ltb_spec when 1000000); [lia|done].
Qed.

Lemma poll_phases_witness : 0 < 950000 < 1000000.
Proof.
  apply (poll_phases Libc.strptime Libc.gmtmktime Runs.env_behind
           Samples.cfg_precision 50000
           (State 0 DEFAULT_MIN_SLEEP 0 0 Samples.timedelta0) [] 4
           "c.example.com" "80" 950000).
  - unfold numservers, MAX_HTTP_HOSTS. simpl. lia.
  - by left.
  - lia.
  - reflexivity.
  - vm_compute. reflexivity.
Defined.

(** * The command line *)

Module CommandLineFacts.

Import CommandLine.

Section ParseFacts.

Variable atoi : string -> Z.
Variable getpwnam : string -> option (Z * Z).
Variable getgrnam : string -> option Z.

Lemma switch_user_well_formed o optarg o' :
  well_formed o ->
  switch_user getpwnam getgrnam o optarg = Continue o' ->
  well_formed o'.
Proof.
  unfold switch_user. intros Ho Hs.
  destruct (getpwnam _) as [[pw_uid pw_gid]|]; [|done].
  destruct (match HostPort.strchr _ _ with Some _ => _ | None => _ end)
    as [g|]; [destruct (getgrnam g); [|done]|]; by simplify_eq.
Qed.

Lemma switch_well_formed o param optarg o' :
  well_formed o ->
  switch atoi getpwnam getgrnam o param optarg = Continue o' ->
  well_formed o'.
Proof.
  intros Ho Hs.
  destruct param as [[] [] [] [] [] [] [] []]; simpl in Hs; try done;
    try (by eapply switch_user_well_formed);
    repeat match type of Hs with
           | context [if ?b then _ else _] => destruct b eqn:?
           | context [let '(_, _) := ?x in _] => destruct x
           end;
    try done; injection Hs as <-;
    destruct Ho as (H1 & H2 & H3 & H4 & H5 & H6 & H7 & H8 & H9);
    unfold well_formed; simpl; split_and!; auto; try lia.
  right. exists (atoi optarg).
  assert (0 < atoi optarg < 500) by lia. split; [done|].
  apply wrap_int_id. unfold is_int, INT_MIN, INT_MAX. lia.
Qed.

Lemma parse_well_formed args o o' :
  well_formed o ->
  parse atoi getpwnam getgrnam args o = Continue o' ->
  well_formed o'.
Proof.
  induction args as [|[param optarg] args IH] in o |- *; simpl; intros Ho Hp.
  - by simplify_eq.
  - destruct (switch atoi getpwnam getgrnam o param optarg) as [o1| |] eqn:E;
      [|done..].
    eapply IH; [|done]. by eapply switch_well_formed.
Qed.

Lemma defaults_well_formed : well_formed defaults.
Proof.
  unfold well_formed, defaults, DEFAULT_MIN_SLEEP, DEFAULT_MAX_SLEEP. simpl.
  split_and!; auto; lia.
Qed.

(** X21.  Whatever switches are given, in whatever order and however often,
    if the loop over them is left without ending the process then the
    precision is 0 or a whole number of milliseconds from 1 to 499, the
    poll intervals are positive and [sleeptime] is [minsleep], the mode is
    one of 0 to 3, [burstmode] is 0 or 1, the sanity limit is the default
    or off, the IP version is unspecified, 4 or 6, and a daemon logs to
    syslog; and for 1 to 15 servers the variables of the poll loop are
    options as the loop expects them ([valid_options]). *)
Theorem options_well_formed (args : list (ascii * string)) (o : options) :
  parse atoi getpwnam getgrnam args defaults = Continue o ->
  well_formed o
  /\ forall servers,
       0 < Z.of_nat (List.length servers) <= MAX_HTTP_HOSTS ->
       valid_options (config_of o servers).
Proof.
  intros Hp.
  pose proof (parse_well_formed _ _ _ defaults_well_formed Hp) as Ho.
  split; [done|]. intros servers Hn.
  destruct Ho as (H1 & H2 & H3 & H4 & H5 & H6 & H7 & H8 & H9).
  unfold valid_options, numservers, config_of. simpl.
  split_and!; [lia|lia|done|].
  destruct H7 as [-> | ->]; by vm_compute.
Qed.

(** X22.  The switch [-q] does nothing: the variables are the same with
    and without it, wherever it stands.  The mode that [-a], [-s] or [-x]
    chose before it, or choose after it, stays. *)
Theorem query_switch_ignored (args : list (ascii * string)) (o : options) :
  parse atoi getpwnam getgrnam
    (List.filter (fun a => negb (Ascii.eqb a.1 "q")) args) o
  = parse atoi getpwnam getgrnam args o.
Proof.
  induction args as [|[param optarg] args IH] in o |- *; [done|].
  simpl List.filter.
  destruct (Ascii.eqb_spec param "q") as [->|Hq]; simpl; [apply IH|].
  destruct (switch atoi getpwnam getgrnam o param optarg); [apply IH|done..].
Qed.

End ParseFacts.

End CommandLineFacts.

Lemma options_well_formed_witness :
  let o := CommandLine.set_precision
             (CommandLine.set_setmode
                (CommandLine.set_setmode CommandLine.defaults 2) 1) 50000 in
  CommandLine.well_formed o
  /\ forall servers,
       0 < Z.of_nat (List.length servers) <= MAX_HTTP_HOSTS ->
       valid_options (CommandLine.config_of o servers).
Proof.
  apply (CommandLineFacts.options_well_formed (fun _ => 50) (fun _ => None)
           (fun _ => None)
           [("s"%char, ""%string); ("a"%char, ""%string);
            ("q"%char, ""%string); ("p"%char, "50"%string)]).
  reflexivity.
Defined.

(** * The number of exchanges *)

Lemma tally_run pos n calls :
  run_monitor tally pos n calls
  = Some (n + List.length (List.filter is_exchange calls))%nat.
Proof.
  induction calls as [|c calls IH] in pos, n |- *; simpl.
  - by rewrite Nat.add_0_r.
  - rewrite IH. destruct (is_exchange c); simpl; f_equal; lia.
Qed.

Section TallyFacts.

Context {tm : Type}.
Variable strptime : string -> option tm.
Variable gmtmktime : tm -> Z.
Variable env : environment.
Variable cfg : config.

#[local] Abbreviation whatever := (fun (_ : Z) (_ : nat) => True).
#[local] Abbreviation between :=
  (fun (lo hi : nat) (n : nat) => (lo <= n <= hi)%nat).

Lemma tally_emit lo hi (calls : list call) :
  Forall is_log calls ->
  monitored tally whatever (between lo hi) (fun _ => between lo hi) (emit calls).
Proof.
  intros Hlog tr n Hn. exists calls, n. split_and!; try done.
  rewrite tally_run. f_equal.
  assert (List.filter is_exchange calls = []) as ->; [|simpl; lia].
  induction Hlog as [|c calls Hc _ IH]; [done|]. simpl. by destruct c.
Qed.

Lemma tally_other {A} lo hi (c : call) (answer : nat -> A) :
  is_exchange c = false ->
  monitored tally whatever (between lo hi) (fun _ => between lo hi)
    (do_call c answer).
Proof.
  intros Hc. apply monitored_call. intros pos n Hn. exists n.
  unfold tally. by rewrite Hc.
Qed.

Lemma tally_poll lo hi host port when :
  monitored tally whatever (between lo hi) (fun _ => between (S lo) (S hi))
    (poll strptime gmtmktime env cfg host port when).
Proof.
  unfold poll. eapply monitored_bind.
  - apply monitored_call with (post := fun _ => between (S lo) (S hi)).
    intros pos n Hn. exists (S n). split; [done|lia].
  - intros ex. eapply monitored_bind;
      [apply (tally_emit (S lo) (S hi)), getHTTPdate_logs|].
    intros []. by apply monitored_ret.
Qed.

Lemma tally_attempts lo hi try burst host port when :
  monitored tally whatever (between lo hi)
    (fun _ => between (lo + Nat.min 1 try)%nat (hi + try)%nat)
    (attempts strptime gmtmktime env cfg try burst host port when).
Proof.
  induction try as [|try IH] in lo, hi |- *; simpl.
  - apply monitored_ret. intros n. lia.
  - eapply monitored_bind.
    { apply (monitored_when _ _ (between lo hi)). by apply tally_other. }
    intros []. eapply monitored_bind; [apply tally_poll|].
    intros timestamp.
    destruct (negb (timestamp =? 0) && negb (Nat.eqb try 0)).
    + eapply monitored_weaken; [apply (IH (S lo) (S hi))|done| |done].
      intros ? n. unfold MAX_ATTEMPT. simpl. lia.
    + apply monitored_ret. intros n. lia.
Qed.

Lemma tally_burst_body lo hi burst host port c :
  monitored tally whatever (between lo hi)
    (fun _ => between (S lo) (hi + MAX_ATTEMPT)%nat)
    (burst_body strptime gmtmktime env cfg burst host port c).
Proof.
  unfold burst_body. eapply monitored_bind; [apply tally_attempts|].
  intros timestamp. apply monitored_ret. intros n. unfold MAX_ATTEMPT. simpl. lia.
Qed.

Lemma tally_burst_loop lo hi todo burst host port c :
  monitored tally whatever (between lo hi)
    (fun _ => between (lo + todo)%nat (hi + MAX_ATTEMPT * todo)%nat)
    (burst_loop strptime gmtmktime env cfg todo burst host port c).
Proof.
  induction todo as [|todo IH] in lo, hi, burst, c |- *; simpl.
  - apply monitored_ret. intros n. lia.
  - eapply monitored_bind; [apply tally_burst_body|]. intros c'.
    eapply monitored_weaken;
      [apply (IH (S lo) (hi + MAX_ATTEMPT)%nat)|done| |done].
    intros ? n. unfold MAX_ATTEMPT. simpl. lia.
Qed.

Lemma tally_server_loop lo hi hosts sleeptime c :
  monitored tally whatever (between lo hi)
    (fun _ => between (lo + List.length hosts * bursts cfg)%nat
                      (hi + MAX_ATTEMPT * (List.length hosts * bursts cfg))%nat)
    (server_loop strptime gmtmktime env cfg hosts sleeptime c).
Proof.
  induction hosts as [|[host port] hosts IH] in lo, hi, c |- *; simpl.
  - apply monitored_ret. intros n. lia.
  - eapply monitored_bind.
    { apply (monitored_when _ _ (between lo hi)). by apply tally_other. }
    intros []. eapply monitored_bind; [apply tally_burst_loop|].
    intros c'. eapply monitored_bind.
    { apply (monitored_when _ _ (between (lo + bursts cfg)%nat
                                     (hi + MAX_ATTEMPT * bursts cfg)%nat)).
      by apply tally_other. }
    intros [].
    eapply monitored_weaken;
      [apply (IH (lo + bursts cfg)%nat (hi + MAX_ATTEMPT * bursts cfg)%nat)
      |done| |done].
    intros ? n. unfold MAX_ATTEMPT. simpl. lia.
Qed.

End TallyFacts.

Lemma asked_run pos l calls :
  run_monitor asked pos l calls = Some (l ++ targets calls).
Proof.
  induction calls as [|c calls IH] in pos, l |- *; simpl.
  - by rewrite app_nil_r.
  - rewrite IH. unfold asked, targets. simpl.
    destruct (exchange_target c); [|done]. by rewrite <- app_assoc.
Qed.

Section AskedFacts.

Context {tm : Type}.
Variable strptime : string -> option tm.
Variable gmtmktime : tm -> Z.
Variable env : environment.
Variable cfg : config.

#[local] Abbreviation whichever :=
  (fun (_ : Z) (_ : list (string * string)) => True).

Lemma asked_emit (P : list (string * string) -> Prop) (calls : list call) :
  Forall is_log calls ->
  monitored asked whichever P (fun _ => P) (emit calls).
Proof.
  intros Hlog tr l Hl. exists calls, l. split_and!; try done.
  rewrite asked_run.
  assert (targets calls = []) as ->; [|by rewrite app_nil_r].
  induction Hlog as [|c calls Hc _ IH]; [done|].
  unfold targets in *. simpl. by destruct c.
Qed.

Lemma asked_other {A} (P : list (string * string) -> Prop) (c : call)
    (answer : nat -> A) :
  exchange_target c = None ->
  monitored asked whichever P (fun _ => P) (do_call c answer).
Proof.
  intros Hc. apply monitored_call. intros pos l Hl. exists l.
  unfold asked. by rewrite Hc.
Qed.

Lemma asked_poll P lo hi host port when :
  monitored asked whichever (attempted P (host, port) lo hi)
    (fun _ => attempted P (host, port) (S lo) (S hi))
    (poll strptime gmtmktime env cfg host port when).
Proof.
  unfold poll. eapply monitored_bind.
  - apply monitored_call
      with (post := fun _ => attempted P (host, port) (S lo) (S hi)).
    intros pos l (l1 & n & Hl1 & Hn & ->). eexists. split; [done|].
    exists l1, (S n). split; [done|]. split; [lia|].
    simpl. by rewrite <- app_assoc, <- replicate_cons_app.
  - intros ex. eapply monitored_bind; [apply asked_emit, getHTTPdate_logs|].
    intros []. by apply monitored_ret.
Qed.

Lemma asked_attempts P lo hi try burst host port when :
  monitored asked whichever (attempted P (host, port) lo hi)
    (fun _ => attempted P (host, port) (lo + Nat.min 1 try)%nat (hi + try)%nat)
    (attempts strptime gmtmktime env cfg try burst host port when).
Proof.
  induction try as [|try IH] in lo, hi |- *; simpl.
  - apply monitored_ret. intros l (l1 & n & ? & ? & ->).
    exists l1, n. split; [done|]. split; [lia|done].
  - eapply monitored_bind.
    { apply (monitored_when _ _ (attempted P (host, port) lo hi)).
      by apply asked_other. }
    intros []. eapply monitored_bind; [apply asked_poll|].
    intros timestamp.
    destruct (negb (timestamp =? 0) && negb (Nat.eqb try 0)).
    + eapply monitored_weaken; [apply (IH (S lo) (S hi))|done| |done].
      intros ? l (l1 & n & ? & ? & ->).
      exists l1, n. split; [done|]. split; [lia|done].
    + apply monitored_ret. intros l (l1 & n & ? & ? & ->).
      exists l1, n. split; [done|]. split; [lia|done].
Qed.

Lemma asked_burst_body P k burst host port c :
  monitored asked whichever (bursted P (host, port) k)
    (fun _ => bursted P (host, port) (S k))
    (burst_body strptime gmtmktime env cfg burst host port c).
Proof.
  unfold burst_body. eapply monitored_bind.
  { eapply monitored_weaken;
      [apply (asked_attempts (bursted P (host, port) k) 0 0)| |done|done].
    intros l Hl. exists l, 0%nat. split; [done|]. split; [lia|].
    simpl. by rewrite app_nil_r. }
  intros timestamp. apply monitored_ret.
  intros l (l0 & n & (l1 & ns & Hl1 & [Hlen Hns] & ->) & Hn & ->).
  exists l1, (ns ++ [n]). split_and!; [done| |].
  - split; [rewrite length_app; simpl; lia|].
    apply Forall_app. split; [done|].
    apply Forall_singleton. unfold MAX_ATTEMPT in *. simpl in Hn. lia.
  - rewrite sum_list_with_app. simpl.
    by rewrite Nat.add_0_r, replicate_add, app_assoc.
Qed.

Lemma asked_burst_loop P k todo burst host port c :
  monitored asked whichever (bursted P (host, port) k)
    (fun _ => bursted P (host, port) (k + todo))
    (burst_loop strptime gmtmktime env cfg todo burst host port c).
Proof.
  induction todo as [|todo IH] in k, burst, c |- *; simpl.
  - apply monitored_ret. intros l. by rewrite Nat.add_0_r.
  - eapply monitored_bind; [apply asked_burst_body|]. intros c'.
    eapply monitored_weaken; [apply (IH (S k))|done| |done].
    intros ? l. by rewrite Nat.add_succ_r.
Qed.

Lemma asked_server_loop served_hosts hosts sleeptime c :
  monitored asked whichever (served (bursts cfg) served_hosts)
    (fun _ => served (bursts cfg) (served_hosts ++ hosts))
    (server_loop strptime gmtmktime env cfg hosts sleeptime c).
Proof.
  induction hosts as [|[host port] hosts IH] in served_hosts, c |- *; simpl.
  - apply monitored_ret. intros l. by rewrite app_nil_r.
  - eapply monitored_bind.
    { apply (monitored_when _ _ (served (bursts cfg) served_hosts)).
      by apply asked_other. }
    intros []. eapply monitored_bind.
    { eapply monitored_weaken;
        [apply (asked_burst_loop (served (bursts cfg) served_hosts) 0
                  (bursts cfg))| |done|done].
      intros l Hl. exists l, []. split; [done|]. split; [by split|].
      simpl. by rewrite app_nil_r. }
    intros c'. eapply monitored_bind.
    { apply (monitored_when _ _
               (bursted (served (bursts cfg) served_hosts) (host, port)
                  (0 + bursts cfg))).
      by apply asked_other. }
    intros [].
    eapply monitored_weaken;
      [apply (IH (served_hosts ++ [(host, port)]))| | |done].
    + intros l (l1 & ns & (nss & Hlen & Hnss & ->) & Hns & ->).
      exists (nss ++ [ns]). split; [|split].
      * rewrite !length_app. simpl. lia.
      * apply Forall_app. split; [done|]. by apply Forall_singleton.
      * rewrite zip_with_app by done. rewrite concat_app. simpl.
        by rewrite app_nil_r.
    + intros ? l. by rewrite <- app_assoc.
Qed.

End AskedFacts.

(** X23.  In every pass over the servers each of them is asked at least
    once and at most [MAX_ATTEMPT] times in each burst, whatever the
    answers are.  The servers asked by the pass, in the order of the
    exchanges, are the servers of the command line in their order, each
    repeated as often as its [bursts] bursts asked it, and each burst asks
    between 1 and [MAX_ATTEMPT] times; so the pass makes between
    [numservers * bursts] and [MAX_ATTEMPT * numservers * bursts]
    exchanges. *)
Theorem exchanges_bounded {tm : Type} (strptime : string -> option tm)
    (gmtmktime : tm -> Z) (env : environment) (cfg : config) (st : state)
    (tr : list call) :
  let calls := calls_of (collect_samples strptime gmtmktime env cfg st) tr in
  let exchanges := List.length (List.filter is_exchange calls) in
  (exists nss : list (list nat),
     List.length nss = List.length (servers cfg)
     /\ Forall (fun ns =>
                  List.length ns = bursts cfg
                  /\ Forall (fun n => (1 <= n <= MAX_ATTEMPT)%nat) ns) nss
     /\ targets calls
        = concat (zip_with (fun ns hp => replicate (sum_list ns) hp) nss
                    (servers cfg)))
  /\ (List.length (servers cfg) * bursts cfg <= exchanges
      <= MAX_ATTEMPT * (List.length (servers cfg) * bursts cfg))%nat.
Proof.
  intros calls exchanges. subst calls exchanges. split.
  { destruct (monitored_calls _ _ _ _ _ tr []
                (asked_server_loop strptime gmtmktime env cfg [] (servers cfg)
                   (sleeptime st)
                   (Collect (timedelta st) 0 false (first_when cfg)))
                (ex_intro _ [] (conj eq_refl (conj (Forall_nil_2 _) eq_refl))))
      as (l & Hrun & Hpost & _).
    fold (collect_samples strptime gmtmktime env cfg st) in Hrun, Hpost.
    rewrite asked_run in Hrun. injection Hrun as <-.
    destruct (collect_samples_returns strptime gmtmktime env cfg st tr)
      as (col & calls & E & _).
    exact (Hpost _ _ E). }
  destruct (monitored_calls _ _ _ _ _ tr 0%nat
              (tally_server_loop strptime gmtmktime env cfg 0 0 (servers cfg)
                 (sleeptime st) (Collect (timedelta st) 0 false (first_when cfg)))
              (conj (le_n 0) (le_n 0)))
    as (n & Hrun & Hpost & _).
  fold (collect_samples strptime gmtmktime env cfg st) in Hrun, Hpost.
  rewrite tally_run in Hrun. injection Hrun as <-.
  destruct (collect_samples_returns strptime gmtmktime env cfg st tr)
    as (col & calls & E & _).
  specialize (Hpost _ _ E). simpl in *. lia.
Qed.

(** A query of three servers with the local clock five seconds behind:
    each of them is asked twice, since the first answer is not zero. *)
Lemma servers_asked_in_order :
  targets
    (calls_of
       (collect_samples Libc.strptime Libc.gmtmktime Runs.env_behind
          Samples.cfg_precision
          (State 0 DEFAULT_MIN_SLEEP 0 0 Samples.timedelta0)) [])
  = concat (zip_with (fun ns hp => replicate (sum_list ns) hp)
              [[2%nat]; [2%nat]; [2%nat]] (servers Samples.cfg_precision)).
Proof. reflexivity. Qed.
